(** * Pricebook smartphone scraper: a shallow embedding of [web_scrape.py]

    The development follows the source file top to bottom: the text helpers
    of the Python runtime that the scraper calls ([str.strip], [str.replace],
    [in], [int], [float], [re.search]), the field extractors [clean_price]
    and [extract_spec_value], the persistence helpers, the layout
    classifier, the three record extractors and the crawl loop of
    [scrape_pricebook].

    Text is modelled as [string], one [ascii] per character, so the model
    speaks about ASCII pages.  Python integers are [Z].  A Python float is
    represented by the exact decimal it was parsed from (a [Q]); rounding to
    binary64 is outside the model. *)

From Stdlib Require Import ZArith QArith String Ascii List Bool Lia.
From stdpp Require Import base gmap strings list.
Import ListNotations.

Close Scope Q_scope.
Local Open Scope string_scope.
Local Open Scope Z_scope.
Set Warnings "-clear-no-such-hyp".

(** ** Python text primitives *)

Module Py.

(** Characters for which [str.isspace] holds, restricted to ASCII. *)
Definition is_space (c : ascii) : bool :=
  let n := nat_of_ascii c in
  ((9 <=? n) && (n <=? 13) || (28 <=? n) && (n <=? 32))%nat.

Definition digit_val (c : ascii) : option Z :=
  let n := nat_of_ascii c in
  if ((48 <=? n) && (n <=? 57))%nat then Some (Z.of_nat (n - 48)) else None.

Definition is_digit (c : ascii) : bool :=
  match digit_val c with Some _ => true | None => false end.

Definition is_alnum (c : ascii) : bool :=
  let n := nat_of_ascii c in
  ((48 <=? n) && (n <=? 57) || (65 <=? n) && (n <=? 90)
   || (97 <=? n) && (n <=? 122))%nat.

(** [\w] of the [re] module: alphanumerics and the underscore. *)
Definition is_word (c : ascii) : bool :=
  is_alnum c || Ascii.eqb c "_".

Definition lower_char (c : ascii) : ascii :=
  let n := nat_of_ascii c in
  if ((65 <=? n) && (n <=? 90))%nat then ascii_of_nat (n + 32) else c.

Definition upper_char (c : ascii) : ascii :=
  let n := nat_of_ascii c in
  if ((97 <=? n) && (n <=? 122))%nat then ascii_of_nat (n - 32) else c.

Fixpoint map_chars (f : ascii -> ascii) (s : string) : string :=
  match s with
  | EmptyString => EmptyString
  | String c r => String (f c) (map_chars f r)
  end.

(** [s.lower()] and [s.upper()]. *)
Definition lower : string -> string := map_chars lower_char.
Definition upper : string -> string := map_chars upper_char.

(** [s.lstrip()], [s.rstrip()], [s.strip()]. *)
Fixpoint lstrip (s : string) : string :=
  match s with
  | EmptyString => EmptyString
  | String c r => if is_space c then lstrip r else s
  end.

Fixpoint rstrip (s : string) : string :=
  match s with
  | EmptyString => EmptyString
  | String c r =>
      match rstrip r with
      | EmptyString => if is_space c then EmptyString else String c EmptyString
      | r' => String c r'
      end
  end.

Definition strip (s : string) : string := rstrip (lstrip s).

(** [needle in hay]. *)
Fixpoint contains (needle hay : string) : bool :=
  String.prefix needle hay ||
  match hay with
  | EmptyString => false
  | String _ r => contains needle r
  end.

(** [s.replace(old, new)] for a non-empty [old]: one pass from the left,
    occurrences do not overlap.  [skip] counts the characters of the
    occurrence just replaced that are still to be dropped. *)
Fixpoint replace_from (old new : string) (skip : nat) (s : string) : string :=
  match s with
  | EmptyString => EmptyString
  | String c r =>
      match skip with
      | S k => replace_from old new k r
      | O =>
          if String.prefix old s
          then new ++ replace_from old new (String.length old - 1) r
          else String c (replace_from old new 0 r)
      end
  end.

Definition replace (old new s : string) : string := replace_from old new 0 s.

(** A run of decimal digits in which single underscores may separate
    digits, as [int] and [float] accept it.  Returns the value and the
    number of digits read. *)
Fixpoint digits_from (acc : Z) (n : nat) (after_digit : bool) (s : string)
  : option (Z * nat) :=
  match s with
  | EmptyString => if after_digit then Some (acc, n) else None
  | String c r =>
      match digit_val c with
      | Some d => digits_from (10 * acc + d) (S n) true r
      | None =>
          if Ascii.eqb c "_" && after_digit
          then digits_from acc n false r
          else None
      end
  end.

Definition digits (s : string) : option (Z * nat) := digits_from 0 0 false s.

Definition split_sign (s : string) : bool * string :=
  match s with
  | String "-" r => (true, r)
  | String "+" r => (false, r)
  | _ => (false, s)
  end.

Definition apply_sign (neg : bool) (z : Z) : Z := if neg then - z else z.

(** [int(s)]: [None] stands for [ValueError]. *)
Definition int (s : string) : option Z :=
  let (neg, body) := split_sign (strip s) in
  match digits body with
  | Some (v, _) => Some (apply_sign neg v)
  | None => None
  end.

(** Splits at the first character satisfying [p]; the separator is
    dropped. *)
Fixpoint split_first (p : ascii -> bool) (s : string) : string * option string :=
  match s with
  | EmptyString => (EmptyString, None)
  | String c r =>
      if p c then (EmptyString, Some r)
      else let (a, b) := split_first p r in (String c a, b)
  end.

Definition is_exp_mark (c : ascii) : bool := Ascii.eqb c "e" || Ascii.eqb c "E".
Definition is_dot (c : ascii) : bool := Ascii.eqb c ".".

Definition opt_digits (s : string) : option (Z * nat) :=
  match s with
  | EmptyString => Some (0, 0%nat)
  | _ => digits s
  end.

(** The decimal [m * 10^e] as a reduced fraction. *)
Definition decimal (m e : Z) : Q :=
  if 0 <=? e then Qmake (m * 10 ^ e) 1
  else Qred (Qmake m (Z.to_pos (10 ^ (- e)))).

(** [float(s)] on decimal literals: sign, integer part, fraction,
    exponent.  [None] stands for [ValueError].  The spellings of infinity
    and not-a-number are left out: every call site passes either a string
    that contains a ['.'] or a run of digits and dots. *)
Definition float (s : string) : option Q :=
  let (neg, body) := split_sign (strip s) in
  let (mant, ex) := split_first is_exp_mark body in
  let (ip, fp) := split_first is_dot mant in
  let fp' := match fp with Some f => f | None => EmptyString end in
  match ip, fp' with
  | EmptyString, EmptyString => None
  | _, _ =>
      match opt_digits ip, opt_digits fp' with
      | Some (iv, _), Some (fv, fn) =>
          let m := apply_sign neg (iv * 10 ^ Z.of_nat fn + fv) in
          match ex with
          | None => Some (decimal m (- Z.of_nat fn))
          | Some e =>
              let (eneg, ebody) := split_sign e in
              match digits ebody with
              | Some (ev, _) =>
                  Some (decimal m (apply_sign eneg ev - Z.of_nat fn))
              | None => None
              end
          end
      | _, _ => None
      end
  end.

End Py.

(** ** Field extractors *)

(** [clean_price]: the empty text is rejected first; otherwise every
    occurrence of the currency marker and every dot is removed, the rest is
    stripped and handed to [int]; a [ValueError] becomes [None]. *)
Definition price_remainder (price_text : string) : string :=
  Py.strip (Py.replace "." "" (Py.replace "Rp" "" price_text)).

Definition clean_price (price_text : string) : option Z :=
  match price_text with
  | EmptyString => None
  | _ => Py.int (price_remainder price_text)
  end.

(** ** Regular expressions

    The patterns of the scraper are written in a small fragment of the
    [re] syntax: literals, the classes [\d], [\s] and bracketed sets,
    sequencing, the greedy quantifiers, groups and [\b].  A pattern is kept
    in parsed form; [Group n r] is the capturing group number [n].  The
    matcher is the backtracking one of [re]: alternatives left to right,
    quantifiers greedy, first success wins. *)

Module Re.

Inductive cset_item :=
| CDigit
| CSpace
| CChar (c : ascii).

Inductive regex :=
| Eps
| Chr (c : ascii)
| Set_ (items : list cset_item)
| Seq (r1 r2 : regex)
| Alt (r1 r2 : regex)
| Star (r : regex)
| Group (n : nat) (r : regex)
| WordB.

Definition Plus (r : regex) : regex := Seq r (Star r).
Definition Opt (r : regex) : regex := Alt r Eps.
Definition digit : regex := Set_ [CDigit].
Definition space : regex := Set_ [CSpace].

Fixpoint Lit (s : string) : regex :=
  match s with
  | EmptyString => Eps
  | String c EmptyString => Chr c
  | String c r => Seq (Chr c) (Lit r)
  end.

Definition item_matches (c : ascii) (i : cset_item) : bool :=
  match i with
  | CDigit => Py.is_digit c
  | CSpace => Py.is_space c
  | CChar d => Ascii.eqb c d
  end.

(** [pattern.groups]: the number of capturing groups. *)
Fixpoint ngroups (r : regex) : nat :=
  match r with
  | Seq a b | Alt a b => (ngroups a + ngroups b)%nat
  | Star a => ngroups a
  | Group _ a => S (ngroups a)
  | _ => O
  end.

Definition captures := list (nat * string).

Definition is_word_opt (c : option ascii) : bool :=
  match c with Some a => Py.is_word a | None => false end.

Definition head (s : string) : option ascii :=
  match s with EmptyString => None | String c _ => Some c end.

(** The part of [s] consumed when [rest] is what remains of it. *)
Definition consumed (s rest : string) : string :=
  String.substring 0 (String.length s - String.length rest) s.

Section Matcher.

Context {R : Type}.

(** A continuation receives the character before the current position,
    the remaining input and the groups captured so far. *)
Definition cont := option ascii -> string -> captures -> option R.

Fixpoint run (r : regex) (prev : option ascii) (s : string) (cs : captures)
  (k : cont) {struct r} : option R :=
  match r with
  | Eps => k prev s cs
  | Chr c =>
      match s with
      | String d rest => if Ascii.eqb c d then k (Some d) rest cs else None
      | EmptyString => None
      end
  | Set_ items =>
      match s with
      | String d rest =>
          if existsb (item_matches d) items then k (Some d) rest cs else None
      | EmptyString => None
      end
  | Seq a b => run a prev s cs (fun p' s' cs' => run b p' s' cs' k)
  | Alt a b =>
      match run a prev s cs k with
      | Some res => Some res
      | None => run b prev s cs k
      end
  | Star a =>
      (fix iter (fuel : nat) (prev : option ascii) (s : string)
           (cs : captures) {struct fuel} : option R :=
         match fuel with
         | O => k prev s cs
         | S fuel' =>
             match
               run a prev s cs
                 (fun p' s' cs' =>
                    if (String.length s' <? String.length s)%nat
                    then iter fuel' p' s' cs'
                    else None)
             with
             | Some res => Some res
             | None => k prev s cs
             end
         end) (String.length s) prev s cs
  | Group n a =>
      run a prev s cs (fun p' s' cs' => k p' s' ((n, consumed s s') :: cs'))
  | WordB =>
      if xorb (is_word_opt prev) (is_word_opt (head s))
      then k prev s cs else None
  end.

End Matcher.

(** A match object: the whole match and the captured groups. *)
Record match_obj := {
  m_pattern_groups : nat;
  m_whole : string;
  m_captures : captures
}.

Definition try_at (r : regex) (prev : option ascii) (s : string) : option match_obj :=
  match run r prev s [] (fun _ rest cs => Some (rest, cs)) with
  | Some (rest, cs) =>
      Some {| m_pattern_groups := ngroups r;
              m_whole := consumed s rest;
              m_captures := cs |}
  | None => None
  end.

Fixpoint search_from (r : regex) (prev : option ascii) (s : string)
  : option match_obj :=
  match try_at r prev s with
  | Some m => Some m
  | None =>
      match s with
      | EmptyString => None
      | String c rest => search_from r (Some c) rest
      end
  end.

(** [re.search(pattern, text)]. *)
Definition search (r : regex) (text : string) : option match_obj :=
  search_from r None text.

Fixpoint lookup_capture (n : nat) (cs : captures) : option string :=
  match cs with
  | [] => None
  | (i, v) :: rest => if Nat.eqb i n then Some v else lookup_capture n rest
  end.

End Re.

(** ** Exceptions *)

Inductive exn :=
| ValueError
| TypeError
| IndexError
| ZeroDivisionError
| EmptyDataError
| ParserError.

Inductive result (A : Type) :=
| Ok (a : A)
| Raise (e : exn).
Arguments Ok {A} a.
Arguments Raise {A} e.

#[global] Instance result_bind : MBind result := fun A B f m =>
  match m with
  | Ok a => f a
  | Raise e => Raise e
  end.

(** A library call that signals failure with [ValueError]. *)
Definition or_value_error {A : Type} (o : option A) : result A :=
  match o with Some a => Ok a | None => Raise ValueError end.

(** [match.group(n)]: [IndexError] when the pattern has no such group,
    Python's [None] when the group took no part in the match. *)
Definition group (m : Re.match_obj) (n : nat) : result (option string) :=
  match n with
  | O => Ok (Some (Re.m_whole m))
  | _ =>
      if (n <=? Re.m_pattern_groups m)%nat
      then Ok (Re.lookup_capture n (Re.m_captures m))
      else Raise IndexError
  end.

(** ['.' in g] and [g.strip()] raise [TypeError] and [AttributeError] on
    [None]; only the first can be reached, the membership test comes
    first. *)
Definition str_of (g : option string) : result string :=
  match g with Some s => Ok s | None => Raise TypeError end.

Inductive pynum :=
| PyInt (z : Z)
| PyFloat (q : Q).

(** The patterns that the extractors pass to [re.search]. *)
Module Pat.
Import Re.

(** [(\d+)\s*GB] and its siblings for the other units. *)
Definition int_unit (u : string) : regex :=
  Seq (Group 1 (Plus digit)) (Seq (Star space) (Lit u)).

Definition gb : regex := int_unit "GB".
Definition mp : regex := int_unit "MP".
Definition mah : regex := int_unit "mAh".

(** [([\d.]+)\s*inch] *)
Definition inch : regex :=
  Seq (Group 1 (Plus (Set_ [CDigit; CChar "."])))
      (Seq (Star space) (Lit "inch")).

(** [ROM\s*(\d+)\s*GB] and [RAM\s*(\d+)\s*GB] *)
Definition named_gb (k : string) : regex :=
  Seq (Lit k) (Seq (Star space) (int_unit "GB")).

(** [RAM\s*(\d+(?:\.\d+)?)\s*GB] *)
Definition ram_frac : regex :=
  Seq (Lit "RAM")
    (Seq (Star space)
       (Seq (Group 1 (Seq (Plus digit) (Opt (Seq (Chr ".") (Plus digit)))))
          (Seq (Star space) (Lit "GB")))).

(** [\b(20\d{2})\b] *)
Definition year : regex :=
  Seq WordB
    (Seq (Group 1 (Seq (Lit "20") (Seq digit digit))) WordB).

(** [Rp\s*([\d\.]+)] *)
Definition rp : regex :=
  Seq (Lit "Rp")
    (Seq (Star space) (Group 1 (Plus (Set_ [CDigit; CChar "."])))).

End Pat.

(** [extract_spec_value]: the body of the [try] is [spec_value_of_match];
    the handler turns [ValueError] and [TypeError] into [None] and lets
    every other exception through. *)
Definition spec_value_of_match (m : Re.match_obj) : result pynum :=
  g ← group m 1;
  s ← str_of g;
  if Py.contains "." s
  then g' ← group m 1; s' ← str_of g';
       q ← or_value_error (Py.float (Py.strip s')); Ok (PyFloat q)
  else g' ← group m 1; s' ← str_of g';
       z ← or_value_error (Py.int (Py.strip s')); Ok (PyInt z).

Definition extract_spec_value (text : string) (pattern : Re.regex)
  : result (option pynum) :=
  match text with
  | EmptyString => Ok None
  | _ =>
      match Re.search pattern text with
      | Some m =>
          match spec_value_of_match m with
          | Ok v => Ok (Some v)
          | Raise ValueError | Raise TypeError => Ok None
          | Raise e => Raise e
          end
      | None => Ok None
      end
  end.

(** ** Parsed pages

    A page is the tree that [BeautifulSoup] builds: text nodes and
    elements.  Of an element's attributes the scraper reads [class], kept as
    the list of its space-separated tokens (empty when the attribute is
    missing), and [href]. *)

#[warnings="-register-all"]
Inductive node :=
| Text (s : string)
| Elem (tag : string) (classes : list string) (href : option string)
       (children : list node).

Module Soup.

(** All nodes below [n], in document order. *)
Fixpoint descendants (n : node) : list node :=
  match n with
  | Text _ => []
  | Elem _ _ _ cs =>
      (fix go (l : list node) : list node :=
         match l with
         | [] => []
         | c :: r => c :: descendants c ++ go r
         end) cs
  end.

(** [n.text]: the strings below [n], concatenated. *)
Fixpoint text (n : node) : string :=
  match n with
  | Text s => s
  | Elem _ _ _ cs =>
      (fix go (l : list node) : string :=
         match l with
         | [] => EmptyString
         | c :: r => text c ++ go r
         end) cs
  end.

Definition is_elem (n : node) : bool :=
  match n with Elem _ _ _ _ => true | Text _ => false end.

Definition tag_of (n : node) : option string :=
  match n with Elem t _ _ _ => Some t | Text _ => None end.

Definition classes_of (n : node) : list string :=
  match n with Elem _ c _ _ => c | Text _ => [] end.

Definition href_of (n : node) : option string :=
  match n with Elem _ _ h _ => h | Text _ => None end.

Definition has_tag (t : string) (n : node) : bool :=
  match tag_of n with Some t' => String.eqb t t' | None => false end.

Definition has_tag_in (ts : list string) (n : node) : bool :=
  existsb (fun t => has_tag t n) ts.

(** The value of the [class] attribute as one string. *)
Definition class_value (n : node) : string :=
  String.concat " " (classes_of n).

(** The [class_] filter of [find_all]: the test is tried on every token
    and then on the whole attribute value; a missing attribute fails. *)
Definition class_matches (p : string -> bool) (n : node) : bool :=
  match classes_of n with
  | [] => false
  | cs => existsb p cs || p (class_value n)
  end.

Definition has_class (c : string) : node -> bool :=
  class_matches (String.eqb c).

(** [node.find_all(...)] and [node.find(...)] with the filter [p]. *)
Definition find_all (p : node -> bool) (n : node) : list node :=
  List.filter p (descendants n).

Definition find (p : node -> bool) (n : node) : option node :=
  List.head (find_all p n).

(** [find_all(text=...)]: the text nodes, as strings. *)
Fixpoint strings_of (l : list node) : list string :=
  match l with
  | [] => []
  | Text s :: r => s :: strings_of r
  | Elem _ _ _ _ :: r => strings_of r
  end.

Definition find_all_text (p : string -> bool) (n : node) : list string :=
  List.filter p (strings_of (descendants n)).

(** The attribute selectors of [select]: [tag[class*="sub"]] and
    [tag.token]. *)
Definition class_attr_contains (sub : string) (n : node) : bool :=
  match classes_of n with
  | [] => false
  | _ => Py.contains sub (class_value n)
  end.

Definition has_token (c : string) (n : node) : bool :=
  existsb (String.eqb c) (classes_of n).

End Soup.

(** ** Layout classifier *)

Inductive layout := Old | New | Newest.

Definition product_panel : string := "styles_productPanel__Tlvp6".

Definition mentions_ram_rom (header : node) : bool :=
  Py.contains "RAM" (Soup.text header) && Py.contains "ROM" (Soup.text header).

Definition nonempty {A : Type} (l : list A) : bool :=
  match l with [] => false | _ => true end.

Definition is_div : node -> bool := Soup.has_tag "div".

Definition new_layout_indicators (soup : node) : list (list node) :=
  [ Soup.find_all (fun n => is_div n && Soup.class_attr_contains "productPanel" n) soup;
    Soup.find_all (fun n => is_div n && Soup.has_token product_panel n) soup;
    Soup.find_all (fun n => is_div n && Soup.class_attr_contains "product" n
                            && Soup.class_attr_contains "Panel" n) soup ].

Definition old_layout_indicators (soup : node) : list (list node) :=
  [ Soup.find_all (fun n => is_div n && Soup.has_class product_panel n) soup;
    Soup.find_all (fun n => is_div n && Soup.has_class "row" n) soup ].

Definition detect_layout (soup : node) (page_number : Z) : layout :=
  let h2_headers := Soup.find_all (Soup.has_tag "h2") soup in
  if nonempty h2_headers && (5 <? length h2_headers)%nat
     && existsb mentions_ram_rom h2_headers
  then Newest
  else
    let default_layout := if 202 <=? page_number then New else Old in
    if existsb nonempty (new_layout_indicators soup) then New
    else if existsb nonempty (old_layout_indicators soup) then Old
    else default_layout.

(** ** Listing records *)

Record phone_data := {
  Name : string;
  Price : option Z;
  RAM : option pynum;
  Storage : option pynum;
  Camera : option pynum;
  ScreenSize : option pynum;
  Battery : option pynum;
  ReleaseYear : option Z
}.

(** Truth value of an optional integer: [None] and [0] are false. *)
Definition truthy (p : option Z) : bool :=
  match p with
  | Some z => negb (z =? 0)
  | None => false
  end.

(** The loop [for x in l: price = f(x); if price: break], started with
    [price = cur]; the result is the value of [price] after the loop. *)
Fixpoint scan_until_truthy {A : Type} (f : A -> option Z) (l : list A)
  (cur : option Z) : option Z :=
  match l with
  | [] => cur
  | x :: r =>
      let price := f x in
      if truthy price then price else scan_until_truthy f r price
  end.

(** The loop [for x in l: if p(x): price = f(x); break]. *)
Definition first_then_break {A : Type} (p : A -> bool) (f : A -> option Z)
  (l : list A) : option Z :=
  match List.find p l with
  | Some x => f x
  | None => None
  end.

Definition has_rp (s : string) : bool := Py.contains "Rp" s.

Definition name_or_title (c : string) : bool :=
  Py.contains "name" (Py.lower c) || Py.contains "title" (Py.lower c).

Definition price_class (c : string) : bool := Py.contains "price" (Py.lower c).

Definition spec_or_detail (c : string) : bool :=
  Py.contains "spec" (Py.lower c) || Py.contains "detail" (Py.lower c).

Definition spec_item_class (c : string) : bool :=
  Py.contains "col-md-6" c || Py.contains "spec" (Py.lower c).

(** The name element: the heading with the product-name class, else any
    [h2], else a heading or [div] whose class mentions a name or title. *)
Definition find_name_element (product : node) : option node :=
  match Soup.find (fun n => Soup.has_tag "h2" n
                            && Soup.has_class "styles_productName__fr99s" n) product with
  | Some e => Some e
  | None =>
      match Soup.find (Soup.has_tag "h2") product with
      | Some e => Some e
      | None =>
          Soup.find (fun n => Soup.has_tag_in ["h2"; "h3"; "div"] n
                              && Soup.class_matches name_or_title n) product
      end
  end.

(** [int(match.group(1))] *)
Definition int_group1 (m : Re.match_obj) : result Z :=
  g ← group m 1; s ← str_of g; or_value_error (Py.int s).

(** [float(match.group(1))] *)
Definition float_group1 (m : Re.match_obj) : result Q :=
  g ← group m 1; s ← str_of g; or_value_error (Py.float s).

(** The release year: the dedicated element first; when that leaves the
    year false, the first text node with a token [20dd]. *)
Definition year_of_text (s : string) : option (result Z) :=
  match Re.search Pat.year (Py.strip s) with
  | Some m => Some (int_group1 m)
  | None => None
  end.

Fixpoint scan_year (l : list string) (cur : option Z) : option Z :=
  match l with
  | [] => cur
  | s :: r =>
      match year_of_text s with
      | Some (Ok y) => Some y
      | _ => scan_year r cur
      end
  end.

Definition extract_release_year (product : node) : option Z :=
  let release_year :=
    match Soup.find (fun n => is_div n
                              && Soup.has_class "styles_yearReleased___jyCv" n) product with
    | Some year_div =>
        match Soup.find (Soup.has_tag "span") year_div with
        | Some year_span => Py.int (Py.strip (Soup.text year_span))
        | None => None
        end
    | None => None
    end in
  if truthy release_year then release_year
  else scan_year (Soup.find_all_text (fun _ => true) product) release_year.

(** Price chain of the old layout, methods 1 to 4. *)
Definition seller_link (n : node) : bool :=
  Soup.has_tag "a" n &&
  match Soup.href_of n with
  | Some h => Py.contains "track/seller" h
  | None => false
  end.

Definition price_from_links (product : node) : option Z :=
  first_then_break (fun link => has_rp (Py.strip (Soup.text link)))
    (fun link => clean_price (Py.strip (Soup.text link)))
    (Soup.find_all seller_link product).

Definition price_from_text_nodes (product : node) : option Z :=
  scan_until_truthy (fun s => clean_price (Py.strip s))
    (Soup.find_all_text has_rp product) None.

Definition price_from_cells (product : node) : option Z :=
  first_then_break (fun td => has_rp (Soup.text td))
    (fun td => clean_price (Soup.text td))
    (Soup.find_all (Soup.has_tag "td") product).

Definition price_from_price_class (product : node) : option Z :=
  scan_until_truthy (fun e => clean_price (Soup.text e))
    (List.filter (fun e => has_rp (Soup.text e))
       (Soup.find_all (fun n => Soup.is_elem n
                                && Soup.class_matches price_class n) product))
    None.

Definition or_else (p : option Z) (next : option Z) : option Z :=
  match p with
  | Some _ => p
  | None => next
  end.

Definition extract_price_old (product : node) : option Z :=
  let price := price_from_links product in
  let price := or_else price (price_from_text_nodes product) in
  let price := or_else price (price_from_cells product) in
  or_else price (price_from_price_class product).

(** Price chain of the new layout, methods 1 and 2. *)
Definition extract_price_new (product : node) : option Z :=
  or_else (price_from_text_nodes product) (price_from_price_class product).

(** The five specification fields filled from the specs container. *)
Record specs := {
  s_ram : option pynum;
  s_storage : option pynum;
  s_camera : option pynum;
  s_screen : option pynum;
  s_battery : option pynum
}.

Definition no_specs : specs :=
  {| s_ram := None; s_storage := None; s_camera := None;
     s_screen := None; s_battery := None |}.

Definition is_none {A : Type} (o : option A) : bool :=
  match o with None => true | Some _ => false end.

Definition find_specs_div (product : node) : option node :=
  match Soup.find (fun n => is_div n
                            && Soup.has_class "styles_primarySpecsList__4s_rn" n) product with
  | Some d => Some d
  | None => Soup.find (fun n => is_div n && Soup.class_matches spec_or_detail n) product
  end.

Definition spec_items (specs_div : node) : list node :=
  Soup.find_all (fun n => is_div n && Soup.class_matches spec_item_class n) specs_div.

(** The storage rule is the same in both layouts. *)
Definition storage_step (spec_text : string) (storage : option pynum)
  : result (option pynum) :=
  let up := Py.upper spec_text in
  if Py.contains "GB" spec_text
     && (Py.contains "ROM" up || Py.contains "STORAGE" up || is_none storage)
  then
    match Re.search Pat.gb spec_text with
    | Some m =>
        if negb (Py.contains "RAM" up)
        then z ← int_group1 m; Ok (Some (PyInt z))
        else Ok storage
    | None => Ok storage
    end
  else Ok storage.

(** One pass of the loop over the spec items, old layout. *)
Definition spec_step_old (acc : specs) (item : node) : result specs :=
  let spec_text := Py.strip (Soup.text item) in
  let up := Py.upper spec_text in
  ram ← (if Py.contains "GB" spec_text
            && (Py.contains "RAM" up || is_none (s_ram acc))
         then extract_spec_value spec_text Pat.gb
         else Ok (s_ram acc));
  storage ← storage_step spec_text (s_storage acc);
  camera ← (if Py.contains "MP" spec_text && is_none (s_camera acc)
            then extract_spec_value spec_text Pat.mp
            else Ok (s_camera acc));
  screen ← (if Py.contains "inch" spec_text && is_none (s_screen acc)
            then extract_spec_value spec_text Pat.inch
            else Ok (s_screen acc));
  battery ← (if Py.contains "mAh" spec_text && is_none (s_battery acc)
             then extract_spec_value spec_text Pat.mah
             else Ok (s_battery acc));
  Ok {| s_ram := ram; s_storage := storage; s_camera := camera;
        s_screen := screen; s_battery := battery |}.

(** [m = re.search(p, text); if m: field = conv(m.group(1))] *)
Definition match_then {A : Type} (p : Re.regex) (spec_text : string)
  (conv : Re.match_obj -> result A) (wrap : A -> pynum) (cur : option pynum)
  : result (option pynum) :=
  match Re.search p spec_text with
  | Some m => v ← conv m; Ok (Some (wrap v))
  | None => Ok cur
  end.

(** One pass of the loop over the spec items, new layout. *)
Definition spec_step_new (acc : specs) (item : node) : result specs :=
  let spec_text := Py.strip (Soup.text item) in
  let up := Py.upper spec_text in
  ram ← (if Py.contains "GB" spec_text
            && (Py.contains "RAM" up || is_none (s_ram acc))
         then match_then Pat.gb spec_text int_group1 PyInt (s_ram acc)
         else Ok (s_ram acc));
  storage ← storage_step spec_text (s_storage acc);
  camera ← (if Py.contains "MP" spec_text && is_none (s_camera acc)
            then match_then Pat.mp spec_text int_group1 PyInt (s_camera acc)
            else Ok (s_camera acc));
  screen ← (if Py.contains "inch" spec_text && is_none (s_screen acc)
            then match_then Pat.inch spec_text float_group1 PyFloat (s_screen acc)
            else Ok (s_screen acc));
  battery ← (if Py.contains "mAh" spec_text && is_none (s_battery acc)
             then match_then Pat.mah spec_text int_group1 PyInt (s_battery acc)
             else Ok (s_battery acc));
  Ok {| s_ram := ram; s_storage := storage; s_camera := camera;
        s_screen := screen; s_battery := battery |}.

Fixpoint fold_result {A B : Type} (f : A -> B -> result A) (l : list B) (a : A)
  : result A :=
  match l with
  | [] => Ok a
  | x :: r => a' ← f a x; fold_result f r a'
  end.

Definition extract_specs (step : specs -> node -> result specs) (product : node)
  : result specs :=
  match find_specs_div product with
  | Some specs_div => fold_result step (spec_items specs_div) no_specs
  | None => Ok no_specs
  end.

(** Storage and RAM are read from the name when the specs left them
    empty. *)
Definition from_name (key : string) (name : string) (cur : option pynum)
  : result (option pynum) :=
  if is_none cur && Py.contains key name
  then extract_spec_value name (Pat.named_gb key)
  else Ok cur.

(** The common body of the old and new extractors, inside their [try]. *)
Definition extract_product_body
  (price_of : node -> option Z) (step : specs -> node -> result specs)
  (product : node) : result (option phone_data) :=
  match find_name_element product with
  | None => Ok None
  | Some name_element =>
      let name := Py.strip (Soup.text name_element) in
      let release_year := extract_release_year product in
      let price := price_of product in
      sp ← extract_specs step product;
      storage ← from_name "ROM" name (s_storage sp);
      ram ← from_name "RAM" name (s_ram sp);
      Ok (Some {| Name := name; Price := price; RAM := ram; Storage := storage;
                  Camera := s_camera sp; ScreenSize := s_screen sp;
                  Battery := s_battery sp; ReleaseYear := release_year |})
  end.

(** [except Exception: return None] *)
Definition catch_all {A : Type} (r : result (option A)) : option A :=
  match r with
  | Ok v => v
  | Raise _ => None
  end.

Definition extract_product_data_new_layout (product : node) : option phone_data :=
  catch_all (extract_product_body extract_price_new spec_step_new product).

Definition extract_product_data_old_layout (product : node) : option phone_data :=
  catch_all (extract_product_body extract_price_old spec_step_old product).

(** The newest layout works on a heading; [following] lists the nodes that
    come after the heading in document order, where [find_next] looks. *)
Definition ram_of_name (name : string) : result (option pynum) :=
  match Re.search Pat.ram_frac name with
  | Some m =>
      g ← group m 1; ram_value ← str_of g;
      if Py.contains "." ram_value
      then q ← or_value_error (Py.float ram_value); Ok (Some (PyFloat q))
      else z ← or_value_error (Py.int ram_value); Ok (Some (PyInt z))
  | None => Ok None
  end.

Definition price_of_link_text (link_text : string) : result (option Z) :=
  match Re.search Pat.rp link_text with
  | Some m => g ← group m 0; price_text ← str_of g; Ok (clean_price price_text)
  | None => Ok None
  end.

Definition year_of_link_text (link_text : string) : result (option Z) :=
  match Re.search Pat.year link_text with
  | Some m => y ← int_group1 m; Ok (Some y)
  | None => Ok None
  end.

Definition extract_newest_body (header_element : node) (following : list node)
  : result (option phone_data) :=
  let name := Py.strip (Soup.text header_element) in
  ram ← ram_of_name name;
  storage ← match_then (Pat.named_gb "ROM") name int_group1 PyInt None;
  match List.find (Soup.has_tag "a") following with
  | Some next_element =>
      let link_text := Py.strip (Soup.text next_element) in
      price ← price_of_link_text link_text;
      camera ← match_then Pat.mp link_text int_group1 PyInt None;
      screen ← match_then Pat.inch link_text float_group1 PyFloat None;
      battery ← match_then Pat.mah link_text int_group1 PyInt None;
      release_year ← year_of_link_text link_text;
      Ok (Some {| Name := name; Price := price; RAM := ram; Storage := storage;
                  Camera := camera; ScreenSize := screen; Battery := battery;
                  ReleaseYear := release_year |})
  | None =>
      Ok (Some {| Name := name; Price := None; RAM := ram; Storage := storage;
                  Camera := None; ScreenSize := None; Battery := None;
                  ReleaseYear := None |})
  end.

Definition extract_product_data_newest_layout (header_element : node)
  (following : list node) : option phone_data :=
  catch_all (extract_newest_body header_element following).

(** ** Persistence

    A CSV file is kept as its lines: a header line with the column names
    or the line of one record.  How [pandas] prints the numeric cells plays
    no part in the scraper and is not modelled. *)

Inductive csv_line :=
| HeaderLine (columns : list string)
| DataLine (row : phone_data).

Record dataframe := {
  df_columns : list string;
  df_column : string -> list string
}.

(** What lies outside the program: the site, the clock and the CSV reader
    of [pandas].  [http_get page attempt] is [None] when the request raises
    [RequestException], otherwise the parsed response. *)
Record env := {
  http_get : Z -> Z -> option node;
  now : nat -> string;
  read_csv : list csv_line -> result dataframe
}.

(** The files on disk; [ticks] counts the readings of the clock. *)
Record disk := {
  files : gmap string (list csv_line);
  ticks : nat
}.

Module Path.

(** [os.path.basename] *)
Fixpoint after_last_slash (p : string) : option string :=
  match p with
  | EmptyString => None
  | String c r =>
      match after_last_slash r with
      | Some b => Some b
      | None => if Ascii.eqb c "/" then Some r else None
      end
  end.

Definition basename (p : string) : string :=
  match after_last_slash p with Some b => b | None => p end.

Fixpoint split_last_dot (s : string) : option (string * string) :=
  match s with
  | EmptyString => None
  | String c r =>
      match split_last_dot r with
      | Some (a, b) => Some (String c a, b)
      | None => if Ascii.eqb c "." then Some (EmptyString, s) else None
      end
  end.

Fixpoint all_dots (s : string) : bool :=
  match s with
  | EmptyString => true
  | String c r => Ascii.eqb c "." && all_dots r
  end.

(** [os.path.splitext] on a file name: the extension starts at the last
    dot, unless only dots come before it. *)
Definition splitext (name : string) : string * string :=
  match split_last_dot name with
  | Some (stem, ext) => if all_dots stem then (name, EmptyString) else (stem, ext)
  | None => (name, EmptyString)
  end.

End Path.

Definition backup_dir : string := "backups".

Definition backup_path_of (file_path timestamp : string) : string :=
  let file_name := Path.basename file_path in
  let (stem, ext) := Path.splitext file_name in
  backup_dir ++ "/" ++ stem ++ "_" ++ timestamp ++ ext.

(** [create_backup]: copies an existing file under a timestamped name and
    returns that name. *)
Definition create_backup (e : env) (file_path : string) (d : disk)
  : option string * disk :=
  match files d !! file_path with
  | Some content =>
      let backup_path := backup_path_of file_path (now e (ticks d)) in
      (Some backup_path,
       {| files := <[backup_path := content]> (files d); ticks := S (ticks d) |})
  | None => (None, d)
  end.

Definition csv_columns : list string :=
  ["Name"; "Price"; "RAM"; "Storage"; "Camera"; "ScreenSize"; "Battery";
   "ReleaseYear"].

(** The columns of [pd.DataFrame(data)]: the keys of the records. *)
Definition frame_columns (data : list phone_data) : list string :=
  match data with
  | [] => []
  | _ => csv_columns
  end.

Inductive write_mode := ModeW | ModeA.

(** [df.to_csv(path, mode=..., header=..., index=False)] *)
Definition to_csv (data : list phone_data) (csv_filename : string)
  (mode : write_mode) (header : bool) (d : disk) : disk :=
  let lines :=
    ((if header then [HeaderLine (frame_columns data)] else [])
     ++ List.map DataLine data)%list in
  let before :=
    match mode, files d !! csv_filename with
    | ModeA, Some old => old
    | _, _ => []
    end in
  {| files := <[csv_filename := (before ++ lines)%list]> (files d);
     ticks := ticks d |}.

Definition exists_file (p : string) (d : disk) : bool :=
  match files d !! p with Some _ => true | None => false end.

Definition save_data_to_csv (e : env) (data : list phone_data)
  (csv_filename : string) (append : bool) (d : disk) : disk :=
  let file_exists := exists_file csv_filename d in
  let d := if file_exists && negb append
           then snd (create_backup e csv_filename d) else d in
  let mode := if append && file_exists then ModeA else ModeW in
  let header := negb (append && file_exists) in
  to_csv data csv_filename mode header d.

(** [get_existing_phones]: the [Name] column of the stored file as a set;
    the empty set when the file is missing, when reading raises, or when
    there is no such column. *)
Definition get_existing_phones (e : env) (csv_filename : string) (d : disk)
  : gset string :=
  match files d !! csv_filename with
  | Some content =>
      match read_csv e content with
      | Ok df =>
          if bool_decide ("Name" ∈ df_columns df)
          then list_to_set (df_column df "Name")
          else ∅
      | Raise _ => ∅
      end
  | None => ∅
  end.

(** ** Crawl loop *)

Record config := {
  csv_filename : string;
  backup_interval : Z;
  max_retries : Z;
  retry_delay : Z;
  end_page : option Z
}.

(** What a run does to the outside, in order: requests, waits between
    retries, the pause between pages, and the records handed to
    [save_data_to_csv]. *)
Inductive event :=
| EvGet (page attempt : Z)
| EvSleep (seconds : Z)
| EvPause
| EvSave (page : Z) (layout_type : layout) (records : list phone_data).

(** The local variables of [scrape_pricebook], the disk and the trace. *)
Record state := {
  page : Z;
  total_phones : Z;
  empty_pages_count : Z;
  existing_phones : gset string;
  store : disk;
  trace : list event
}.

Definition max_empty_pages : Z := 3.

Definition set_page (p : Z) (st : state) : state :=
  {| page := p; total_phones := total_phones st;
     empty_pages_count := empty_pages_count st;
     existing_phones := existing_phones st; store := store st;
     trace := trace st |}.

Definition set_empty_pages_count (n : Z) (st : state) : state :=
  {| page := page st; total_phones := total_phones st;
     empty_pages_count := n;
     existing_phones := existing_phones st; store := store st;
     trace := trace st |}.

Definition set_store (d : disk) (st : state) : state :=
  {| page := page st; total_phones := total_phones st;
     empty_pages_count := empty_pages_count st;
     existing_phones := existing_phones st; store := d;
     trace := trace st |}.

Definition log (ev : event) (st : state) : state :=
  {| page := page st; total_phones := total_phones st;
     empty_pages_count := empty_pages_count st;
     existing_phones := existing_phones st; store := store st;
     trace := (trace st ++ [ev])%list |}.

(** The inner [while not success and retry_count < max_retries] loop.
    [url_page] is the page of [page_url], fixed before the loop; [fuel]
    bounds the number of passes and is never the reason to stop when it
    starts at [max_retries - retry_count]. *)
Fixpoint fetch_loop (e : env) (c : config) (url_page : Z) (fuel : nat)
  (retry_count : Z) (st : state) : option node * state :=
  if retry_count <? max_retries c then
    match fuel with
    | O => (None, st)
    | S fuel' =>
        let st := log (EvGet url_page (retry_count + 1)) st in
        match http_get e url_page (retry_count + 1) with
        | Some soup => (Some soup, st)
        | None =>
            let retry_count := retry_count + 1 in
            if retry_count <? max_retries c
            then
              let wait_time := retry_delay c * retry_count in
              fetch_loop e c url_page fuel' retry_count (log (EvSleep wait_time) st)
            else
              fetch_loop e c url_page fuel' retry_count (set_page (page st + 1) st)
        end
    end
  else (None, st).

Definition product_like (terms : list string) (c : string) : bool :=
  existsb (fun term => Py.contains term (Py.lower c)) terms.

(** The product containers of an old or new page. *)
Definition select_products (layout_type : layout) (soup : node) : list node :=
  let products :=
    match layout_type with
    | Old =>
        let products :=
          Soup.find_all (fun n => is_div n && Soup.has_class product_panel n) soup in
        if nonempty products then products
        else Soup.find_all (fun n => is_div n && Soup.has_class "row" n) soup
    | _ =>
        let products :=
          Soup.find_all (fun n => is_div n && Soup.has_token product_panel n) soup in
        let products :=
          if nonempty products then products
          else Soup.find_all
                 (fun n => is_div n && Soup.class_attr_contains "productPanel" n) soup in
        if nonempty products then products
        else Soup.find_all
               (fun n => is_div n
                         && Soup.class_matches (product_like ["product"; "item"]) n) soup
    end in
  if nonempty products then products
  else Soup.find_all
         (fun n => is_div n
                   && Soup.class_matches
                        (product_like ["product"; "item"; "card"; "listing"]) n) soup.

(** The candidates of a newest page: one per [h2] that mentions RAM and
    ROM, each with the nodes that follow it. *)
Fixpoint newest_candidates (nodes : list node) : list (option phone_data) :=
  match nodes with
  | [] => []
  | n :: following =>
      if Soup.has_tag "h2" n && mentions_ram_rom n
      then extract_product_data_newest_layout n following
           :: newest_candidates following
      else newest_candidates following
  end.

Definition is_empty_string (s : string) : bool :=
  match s with EmptyString => true | _ => false end.

(** The filter of the product loops.  A candidate is dropped when the
    extractor returned nothing or an empty name, when its name is in the
    ledger, and, where [require_price] is set, when it has no price.  An
    accepted record joins [page_phones] and its name joins the ledger. *)
Fixpoint accept_loop (require_price : bool) (cands : list (option phone_data))
  (existing : gset string) : list phone_data * gset string :=
  match cands with
  | [] => ([], existing)
  | None :: r => accept_loop require_price r existing
  | Some phone :: r =>
      if is_empty_string (Name phone) then accept_loop require_price r existing
      else if bool_decide (Name phone ∈ existing)
      then accept_loop require_price r existing
      else if require_price && is_none (Price phone)
      then accept_loop require_price r existing
      else
        let (page_phones, existing') :=
          accept_loop require_price r ({[Name phone]} ∪ existing) in
        (phone :: page_phones, existing')
  end.

(** The candidates of a page and whether its loop asks for a price. *)
Definition candidates (layout_type : layout) (soup : node) (products : list node)
  : list (option phone_data) * bool :=
  match layout_type with
  | Newest => (newest_candidates (Soup.descendants soup), false)
  | New => (List.map extract_product_data_new_layout products, true)
  | Old => (List.map extract_product_data_old_layout products, true)
  end.

Inductive outcome :=
| Continue (st : state)
| Break (st : state).

Definition state_of (o : outcome) : state :=
  match o with Continue st | Break st => st end.

Definition is_break (o : outcome) : bool :=
  match o with Break _ => true | Continue _ => false end.

Definition count_empty_page (st : state) : state :=
  set_empty_pages_count (empty_pages_count st + 1) st.

(** The end of the loop body: the pause and [page += 1]. *)
Definition next_page (st : state) : state :=
  let st := log EvPause st in set_page (page st + 1) st.

(** The page-level handler: a backup if the file exists, then
    [page += 1]. *)
Definition page_error (e : env) (c : config) (st : state) : state :=
  let st :=
    if exists_file (csv_filename c) (store st)
    then set_store (snd (create_backup e (csv_filename c) (store st))) st
    else st in
  set_page (page st + 1) st.

(** From the product loop to the end of the body. *)
Definition persist (e : env) (c : config) (layout_type : layout)
  (cands : list (option phone_data)) (require_price : bool) (st : state)
  : outcome :=
  let (page_phones, existing) :=
    accept_loop require_price cands (existing_phones st) in
  let st :=
    {| page := page st; total_phones := total_phones st;
       empty_pages_count := empty_pages_count st;
       existing_phones := existing; store := store st; trace := trace st |} in
  if nonempty page_phones then
    let append_mode := exists_file (csv_filename c) (store st) in
    let st :=
      set_store (save_data_to_csv e page_phones (csv_filename c) append_mode
                   (store st)) st in
    let st := log (EvSave (page st) layout_type page_phones) st in
    let st :=
      {| page := page st;
         total_phones := total_phones st + Z.of_nat (length page_phones);
         empty_pages_count := empty_pages_count st;
         existing_phones := existing_phones st; store := store st;
         trace := trace st |} in
    if backup_interval c =? 0
    then (* [page % backup_interval] raises [ZeroDivisionError] *)
      Continue (page_error e c st)
    else
      let st :=
        if page st mod backup_interval c =? 0
        then set_store (snd (create_backup e (csv_filename c) (store st))) st
        else st in
      Continue (next_page st)
  else
    let st := count_empty_page st in
    if max_empty_pages <=? empty_pages_count st then Break st
    else Continue (next_page st).

(** The body of the outer loop once the page was fetched. *)
Definition process_page (e : env) (c : config) (soup : node) (st : state)
  : outcome :=
  let layout_type := detect_layout soup (page st) in
  match layout_type with
  | Newest =>
      let (cands, require_price) := candidates Newest soup [] in
      persist e c Newest cands require_price st
  | _ =>
      let products := select_products layout_type soup in
      if nonempty products then
        let st := set_empty_pages_count 0 st in
        let (cands, require_price) := candidates layout_type soup products in
        persist e c layout_type cands require_price st
      else
        let st := count_empty_page st in
        if max_empty_pages <=? empty_pages_count st then Break st
        else Continue (set_page (page st + 1) st)
  end.

(** One pass of the outer loop. *)
Definition crawl_step (e : env) (c : config) (st : state) : outcome :=
  let (response, st') :=
    fetch_loop e c (page st) (Z.to_nat (max_retries c)) 0 st in
  match response with
  | Some soup => process_page e c soup st'
  | None => Continue st'
  end.

Definition in_range (c : config) (st : state) : bool :=
  match end_page c with
  | None => true
  | Some last => page st <=? last
  end.

(** The outer loop, cut off after [fuel] passes; the flag tells whether
    the loop ended by itself. *)
Fixpoint scrape_loop (e : env) (c : config) (fuel : nat) (st : state)
  : state * bool :=
  if in_range c st then
    match fuel with
    | O => (st, false)
    | S fuel' =>
        match crawl_step e c st with
        | Continue st' => scrape_loop e c fuel' st'
        | Break st' => (st', true)
        end
    end
  else (st, true).

Definition initial_state (e : env) (c : config) (start_page : Z) (d : disk)
  : state :=
  let d := if exists_file (csv_filename c) d
           then snd (create_backup e (csv_filename c) d) else d in
  {| page := start_page; total_phones := 0; empty_pages_count := 0;
     existing_phones := get_existing_phones e (csv_filename c) d;
     store := d; trace := [] |}.

Definition scrape_pricebook (e : env) (c : config) (start_page : Z)
  (fuel : nat) (d : disk) : state * bool :=
  scrape_loop e c fuel (initial_state e c start_page d).

(** ** Specifications

    The properties below are phrased over these notions. *)

(** A character that may occur in a decimal integer literal. *)
Definition numeric_char (c : ascii) : bool :=
  Py.is_digit c || Ascii.eqb c "_" || Ascii.eqb c "+" || Ascii.eqb c "-".

Fixpoint all_chars (p : ascii -> bool) (s : string) : bool :=
  match s with
  | EmptyString => true
  | String c r => p c && all_chars p r
  end.


(** The number written by the digits of [s], read from the left. *)
Fixpoint decimal_value (acc : Z) (s : string) : Z :=
  match s with
  | EmptyString => acc
  | String c r =>
      match Py.digit_val c with
      | Some d => decimal_value (10 * acc + d) r
      | None => decimal_value acc r
      end
  end.


(** No path separator occurs in [s]. *)
Definition no_slash (s : string) : bool :=
  all_chars (fun c => negb (Ascii.eqb c "/")) s.

(** The rules of the layout classifier, in the order of the
    specification. *)
Definition heading_rule (soup : node) : Prop :=
  (5 < length (Soup.find_all (Soup.has_tag "h2") soup))%nat ∧
  ∃ h, h ∈ Soup.find_all (Soup.has_tag "h2") soup ∧
       Py.contains "RAM" (Soup.text h) = true ∧
       Py.contains "ROM" (Soup.text h) = true.

Definition new_marker (n : node) : bool :=
  is_div n &&
  (Soup.class_attr_contains "productPanel" n
   || Soup.has_token product_panel n
   || Soup.class_attr_contains "product" n && Soup.class_attr_contains "Panel" n).

Definition old_marker (n : node) : bool :=
  is_div n && (Soup.has_class product_panel n || Soup.has_class "row" n).

Definition probe (marker : node -> bool) (soup : node) : Prop :=
  ∃ n, n ∈ Soup.descendants soup ∧ marker n = true.

Inductive classifies (soup : node) (page_number : Z) : layout -> Prop :=
| by_headings :
    heading_rule soup -> classifies soup page_number Newest
| by_new_probe :
    ¬ heading_rule soup -> probe new_marker soup ->
    classifies soup page_number New
| by_old_probe :
    ¬ heading_rule soup -> ¬ probe new_marker soup -> probe old_marker soup ->
    classifies soup page_number Old
| by_page_index :
    ¬ heading_rule soup -> ¬ probe new_marker soup -> ¬ probe old_marker soup ->
    classifies soup page_number (if 202 <=? page_number then New else Old).

(** The price chain as the specification words it: every candidate of
    every method, in priority order, cleaned; the first present result. *)
Fixpoint first_present (l : list (option Z)) : option Z :=
  match l with
  | [] => None
  | Some z :: _ => Some z
  | None :: r => first_present r
  end.

Definition price_candidates_old (product : node) : list string :=
  (List.filter has_rp
     (List.map (fun link => Py.strip (Soup.text link))
        (Soup.find_all seller_link product))
   ++ List.map Py.strip (Soup.find_all_text has_rp product)
   ++ List.filter has_rp
        (List.map Soup.text (Soup.find_all (Soup.has_tag "td") product))
   ++ List.filter has_rp
        (List.map Soup.text
           (Soup.find_all (fun n => Soup.is_elem n
                                    && Soup.class_matches price_class n) product)))%list.

Definition price_candidates_new (product : node) : list string :=
  (List.map Py.strip (Soup.find_all_text has_rp product)
   ++ List.filter has_rp
        (List.map Soup.text
           (Soup.find_all (fun n => Soup.is_elem n
                                    && Soup.class_matches price_class n) product)))%list.

Definition price_by_priority (cands : list string) : option Z :=
  first_present (List.map clean_price cands).

(** The records handed to [save_data_to_csv] in a trace, with the layout
    of their page. *)
Fixpoint saved (tr : list event) : list (layout * phone_data) :=
  match tr with
  | [] => []
  | EvSave _ l recs :: r => (List.map (fun d => (l, d)) recs ++ saved r)%list
  | _ :: r => saved r
  end.

Definition saved_records (tr : list event) : list phone_data :=
  List.map snd (saved tr).

Definition well_formed (lr : layout * phone_data) : Prop :=
  Name (snd lr) ≠ EmptyString ∧
  (fst lr ≠ Newest -> Price (snd lr) ≠ None) ∧
  (Price (snd lr) = None -> fst lr = Newest).

Definition names (l : list phone_data) : gset string :=
  list_to_set (List.map Name l).

(** What the loop body extracts from a page before filtering: the layout,
    the candidates in page order, and whether a price is asked for. *)
Definition page_candidates (soup : node) (page_number : Z)
  : layout * list (option phone_data) * bool :=
  let layout_type := detect_layout soup page_number in
  match layout_type with
  | Newest => (Newest, fst (candidates Newest soup []), false)
  | _ =>
      (layout_type,
       fst (candidates layout_type soup (select_products layout_type soup)),
       true)
  end.

(** The records a page adds under the ledger [existing]. *)
Definition page_phones_of (soup : node) (page_number : Z)
  (existing : gset string) : list phone_data :=
  let '(_, cands, require_price) := page_candidates soup page_number in
  fst (accept_loop require_price cands existing).

(** The requests and waits of a page whose first [n] attempts fail,
    attempts being numbered from [k + 1]; a wait follows every failure
    but the one of attempt [last]. *)
Fixpoint failed_attempts (p delay last : Z) (k : Z) (n : nat) : list event :=
  match n with
  | O => []
  | S n' =>
      (EvGet p (k + 1)
       :: (if k + 1 <? last then [EvSleep (delay * (k + 1))] else [])
       ++ failed_attempts p delay last (k + 1) n')%list
  end.

Fixpoint count_gets (tr : list event) : nat :=
  match tr with
  | [] => O
  | EvGet _ _ :: r => S (count_gets r)
  | _ :: r => count_gets r
  end.

Fixpoint sleeps (tr : list event) : list Z :=
  match tr with
  | [] => []
  | EvSleep s :: r => s :: sleeps r
  | _ :: r => sleeps r
  end.

(** ** Notions for whole runs *)

(** The stored file after [recs] were saved to it the way the crawl loop
    saves: behind the old content, or behind a header line when there was
    no file; nothing is written for no records. *)
Definition extend_csv (content : option (list csv_line)) (recs : list phone_data)
  : option (list csv_line) :=
  match recs with
  | [] => content
  | _ =>
      Some ((match content with
             | Some old => old
             | None => [HeaderLine csv_columns]
             end) ++ List.map DataLine recs)%list
  end.

(** The pages requested in a trace. *)
Fixpoint requested (tr : list event) : list Z :=
  match tr with
  | [] => []
  | EvGet p _ :: r => p :: requested r
  | _ :: r => requested r
  end.

(** What one page does to the state, with [accepted] the records it
    adds. *)
Definition page_effect (c : config) (st st' : state) (accepted : list phone_data)
  : Prop :=
  saved_records (trace st') = (saved_records (trace st) ++ accepted)%list /\
  total_phones st' = total_phones st + Z.of_nat (length accepted) /\
  existing_phones st' = names accepted ∪ existing_phones st /\
  (forall d, d ∈ accepted -> Name d ∉ existing_phones st) /\
  NoDup (List.map Name accepted) /\
  files (store st') !! csv_filename c
  = extend_csv (files (store st) !! csv_filename c) accepted.

(** ** Notions for the patterns *)

(** The strings a pattern can consume, captures aside. *)
Inductive lang : Re.regex -> string -> Prop :=
| lang_eps : lang Re.Eps EmptyString
| lang_chr c : lang (Re.Chr c) (String c EmptyString)
| lang_set items c :
    existsb (Re.item_matches c) items = true ->
    lang (Re.Set_ items) (String c EmptyString)
| lang_seq a b x y : lang a x -> lang b y -> lang (Re.Seq a b) (x ++ y)
| lang_alt_l a b x : lang a x -> lang (Re.Alt a b) x
| lang_alt_r a b x : lang b x -> lang (Re.Alt a b) x
| lang_star_nil a : lang (Re.Star a) EmptyString
| lang_star_cons a x y :
    lang a x -> lang (Re.Star a) y -> lang (Re.Star a) (x ++ y)
| lang_group n a x : lang a x -> lang (Re.Group n a) x
| lang_wordb : lang Re.WordB EmptyString.

(** A pattern whose only group is group 1, around [a], on the spine of
    its sequence. *)
Inductive one_group (a : Re.regex) : Re.regex -> Prop :=
| og_here : one_group a (Re.Group 1 a)
| og_before r post :
    one_group a r -> Re.ngroups post = O -> one_group a (Re.Seq r post)
| og_after pre r :
    Re.ngroups pre = O -> one_group a r -> one_group a (Re.Seq pre r).

Definition in_set (items : list Re.cset_item) (c : ascii) : bool :=
  existsb (Re.item_matches c) items.

(** The integer patterns that the extractors hand to
    [extract_spec_value]. *)
Definition integer_patterns : list Re.regex :=
  [Pat.gb; Pat.mp; Pat.mah; Pat.named_gb "ROM"; Pat.named_gb "RAM"].

(** A text whose screen size is matched by the inch pattern but is no
    number: [float] raises on what group 1 captured. *)
Definition malformed_screen (text : string) : Prop :=
  exists m d,
    Re.search Pat.inch text = Some m /\
    group m 1 = Ok (Some d) /\
    Py.float d = None.

(** The year read from the element for the release year, before the
    fallback. *)
Definition year_element_value (product : node) : option Z :=
  match Soup.find (fun n => is_div n
                            && Soup.has_class "styles_yearReleased___jyCv" n) product with
  | Some year_div =>
      match Soup.find (Soup.has_tag "span") year_div with
      | Some year_span => Py.int (Py.strip (Soup.text year_span))
      | None => None
      end
  | None => None
  end.


(** A new-layout product whose screen item reads two dots in a row. *)
Definition dotted_screen : node :=
  Elem "div" ["styles_productPanel__Tlvp6"] None
    [Elem "h2" ["styles_productName__fr99s"] None [Text "Nova 12"];
     Elem "div" ["styles_primarySpecsList__4s_rn"] None
       [Elem "div" ["col-md-6"] None [Text "6..7 inch"]]].

(** The bodies of two patterns' groups: [20\d{2}] and [\d+(?:\.\d+)?]. *)
Definition year_body : Re.regex :=
  Re.Seq (Re.Lit "20") (Re.Seq Re.digit Re.digit).

Definition decimal_body : Re.regex :=
  Re.Seq (Re.Plus Re.digit) (Re.Opt (Re.Seq (Re.Chr ".") (Re.Plus Re.digit))).

Definition no_space (c : ascii) : bool := negb (Py.is_space c).

(** The strings that [pandas.read_csv], called without options, takes
    for missing values: it returns [NaN] for them, which is no string and
    equals no name. *)
Definition na_values : list string :=
  [""; "#N/A"; "#N/A N/A"; "#NA"; "-1.#IND"; "-1.#QNAN"; "-NaN"; "-nan";
   "1.#IND"; "1.#QNAN"; "<NA>"; "N/A"; "NA"; "NULL"; "NaN"; "None"; "n/a";
   "nan"; "null"].

Definition is_na (s : string) : bool :=
  existsb (String.eqb s) na_values.

(** A file the scraper wrote: missing, or the header of its columns
    followed by record lines. *)
Definition own_file (content : option (list csv_line)) : Prop :=
  match content with
  | None => True
  | Some lines => exists recs, lines = HeaderLine csv_columns :: List.map DataLine recs
  end.

(** What is taken of the CSV reader on the files the scraper wrote: it
    returns no name that is not in the file, and it returns every name of
    the file for which [kept] holds.  [kept] stands for the names that
    come back as the strings they were whatever else the file holds: the
    missing-value markers of [na_values] are not among them, nor are the
    names that read as numbers. *)
Definition reads_kept_names (kept : string -> bool) (e : env) : Prop :=
  forall recs,
    exists df,
      read_csv e (HeaderLine csv_columns :: List.map DataLine recs) = Ok df /\
      "Name" ∈ df_columns df /\
      (forall n, n ∈ df_column df "Name" -> n ∈ names recs) /\
      (forall n, n ∈ names recs -> kept n = true -> n ∈ df_column df "Name").

(** A reader that treats the missing-value markers as [pandas] does and
    returns every other name as written. *)
Definition na_reader (content : list csv_line) : result dataframe :=
  match content with
  | [] => Raise EmptyDataError
  | HeaderLine cols :: rows =>
      Ok {| df_columns := cols;
            df_column := fun c =>
              if String.eqb c "Name"
              then flat_map (fun l => match l with
                                      | DataLine r =>
                                          if is_na (Name r) then [] else [Name r]
                                      | HeaderLine _ => []
                                      end) rows
              else [] |}
  | DataLine _ :: _ => Raise ParserError
  end.

Definition na_env (site : Z -> Z -> option node) : env :=
  {| http_get := site; now := fun _ => "20250101_000000";
     read_csv := na_reader |}.

(** The file of the logging handler.  The program appends a line to it at
    almost every step; the disk of the model holds the data files only, so
    what is said of other paths leaves out every path with this name. *)
Definition log_file : string := "scraping.log".

Definition names_log (g : string) : bool := String.eqb (Path.basename g) log_file.

(** What a run may do to the disk: paths other than the CSV file, those
    under [backups/] and the log file keep their content, and no path is
    lost. *)
Definition disk_grows (csv : string) (d d' : disk) : Prop :=
  (forall g, g <> csv -> String.prefix "backups/" g = false ->
     names_log g = false ->
     files d' !! g = files d !! g) /\
  (forall g, is_Some (files d !! g) -> is_Some (files d' !! g)).

(** [name] is the last component of the path [p], as [os.path.basename]
    gives it: what follows the last ['/'], or all of [p] without one. *)
Definition last_component (p name : string) : Prop :=
  no_slash name = true /\
  (p = name \/ exists dir, p = dir ++ String "/" name).

(** No dot occurs in [s]. *)
Definition no_dot (s : string) : bool :=
  all_chars (fun c => negb (Ascii.eqb c ".")) s.

(** [stem] and [ext] split [name] as [os.path.splitext] does: the
    extension starts at the last dot of the name, unless there is no dot
    or only dots come before it, and then it is empty. *)
Definition splits_extension (name stem ext : string) : Prop :=
  name = stem ++ ext /\
  ((ext = EmptyString /\
    forall a b, name = a ++ String "." b -> no_dot b = true ->
                Path.all_dots a = true) \/
   (exists x, ext = String "." x /\ no_dot x = true /\
              Path.all_dots stem = false)).

(** ** Notions for the integer that [int] reads *)






(** Whether a page that saved records is followed by a backup. *)
Definition backup_due (c : config) (p : Z) : bool :=
  (backup_interval c =? 0) || (p mod backup_interval c =? 0).

Fixpoint pauses (tr : list event) : nat :=
  match tr with
  | [] => O
  | EvPause :: r => S (pauses r)
  | _ :: r => pauses r
  end.

(** ** Sample sites and stores *)

Module Sample.

(** A reader for the files the scraper writes: the first line names the
    columns, an empty file raises, as [pandas] does. *)
Definition read_store (content : list csv_line) : result dataframe :=
  match content with
  | [] => Raise EmptyDataError
  | HeaderLine cols :: rows =>
      Ok {| df_columns := cols;
            df_column := fun c =>
              if String.eqb c "Name"
              then flat_map (fun l => match l with
                                      | DataLine r => [Name r]
                                      | HeaderLine _ => []
                                      end) rows
              else [] |}
  | DataLine _ :: _ => Raise ParserError
  end.

Definition site_env (site : Z -> Z -> option node) : env :=
  {| http_get := site; now := fun _ => "20250101_000000";
     read_csv := read_store |}.

Definition cfg : config :=
  {| csv_filename := "smartphone_data.csv"; backup_interval := 5;
     max_retries := 5; retry_delay := 30; end_page := None |}.

Definition empty_disk : disk := {| files := ∅; ticks := 0 |}.

Definition state_at (p streak : Z) (ledger : gset string) : state :=
  {| page := p; total_phones := 0; empty_pages_count := streak;
     existing_phones := ledger; store := empty_disk; trace := [] |}.

(** A page of the newest layout: headings, each followed by its link. *)
Definition heading (name : string) : list node :=
  [ Elem "h2" [] None [Text name];
    Elem "a" [] (Some "/p") [Text "Rp 2.500.000 50 MP 6.5 inch 5000 mAh 2023"] ].

Definition newest_page (names : list string) : node :=
  Elem "[document]" [] None (flat_map heading names).

Definition models (brand : string) : list string :=
  List.map (fun s => brand ++ " " ++ s ++ " RAM 8GB ROM 128GB")
    ["a"; "b"; "c"; "d"; "e"; "f"].

(** A product panel of the old layout. *)
Definition panel (name price : string) : node :=
  Elem "div" [product_panel] None
    [ Elem "h2" ["styles_productName__fr99s"] None [Text name];
      Elem "a" [] (Some "/track/seller/1") [Text price] ].

Definition old_page (products : list node) : node :=
  Elem "[document]" [] None products.

Definition galaxy : node := panel "Galaxy A55" "Rp 5.999.000".
Definition unpriced : node := panel "Redmi 13" "Hubungi toko".

(** Every request for page 7 is answered by the same page. *)
Definition serve (soup : node) (p attempt : Z) : option node :=
  if p =? 7 then Some soup else None.

(** A site that never answers. *)
Definition down (p attempt : Z) : option node := None.

(** Pages 1, 3 and 5 list six models already stored; pages 2 and 4 list
    new ones. *)
Definition alternating (p attempt : Z) : option node :=
  if (p =? 1) || (p =? 3) || (p =? 5) then Some (newest_page (models "Vivo"))
  else if p =? 2 then Some (newest_page (models "Oppo"))
  else if p =? 4 then Some (newest_page (models "Poco"))
  else None.

(** A product whose first seller link shows no amount, whose second
    seller link shows one, split over two elements. *)
Definition two_sellers : node :=
  Elem "div" [product_panel] None
    [ Elem "h2" ["styles_productName__fr99s"] None [Text "Galaxy A55"];
      Elem "a" [] (Some "/track/seller/1")
        [Elem "span" [] None [Text "Rp"]; Text " "; Elem "b" [] None [Text "-"]];
      Elem "a" [] (Some "/track/seller/2")
        [Elem "span" [] None [Text "Rp"]; Text " ";
         Elem "b" [] None [Text "2.000.000"]] ].

(** A product of the new layout with a zero amount before the price. *)
Definition zero_first : node :=
  Elem "div" [product_panel] None
    [ Elem "h2" ["styles_productName__fr99s"] None [Text "Galaxy A55"];
      Elem "span" [] None [Text "Rp 0"];
      Elem "span" [] None [Text "Rp 5.999.000"] ].

Definition example_frame : list phone_data :=
  [ {| Name := "Galaxy A55"; Price := Some 5999000; RAM := Some (PyInt 8);
       Storage := Some (PyInt 128); Camera := None; ScreenSize := None;
       Battery := None; ReleaseYear := Some 2024 |} ].

Definition stored : disk :=
  {| files := {[ "smartphone_data.csv" := [HeaderLine csv_columns] ]};
     ticks := 0 |}.

(** A store whose file is empty, and one whose header lacks the name
    column. *)
Definition corrupt : disk :=
  {| files := {[ "smartphone_data.csv" := [] ]}; ticks := 0 |}.

Definition nameless : disk :=
  {| files := {[ "smartphone_data.csv" := [HeaderLine ["Model"; "Price"]] ]};
     ticks := 0 |}.

End Sample.

(** A product listed under a placeholder for its name, and a page that
    lists it after a named one. *)
Definition unnamed : node := Sample.panel "N/A" "Rp 5.999.000".

Definition two_names : node := Sample.old_page [Sample.galaxy; unnamed].

(** ** Text lemmas *)




Lemma digit_not_space (c : ascii) : Py.is_digit c = true -> Py.is_space c = false.
Proof.
  unfold Py.is_digit, Py.digit_val, Py.is_space.
  destruct (48 <=? nat_of_ascii c)%nat eqn:H1; simpl; [|done].
  destruct (nat_of_ascii c <=? 57)%nat eqn:H2; simpl; [|done].
  intros _. apply Nat.leb_le in H1, H2.
  apply orb_false_iff; split; apply andb_false_iff.
  - right. apply Nat.leb_gt. lia.
  - right. apply Nat.leb_gt. lia.
Qed.

Lemma lstrip_digits (s : string) :
  all_chars Py.is_digit s = true -> Py.lstrip s = s.
Proof.
  destruct s as [|c r]; simpl; [done|].
  intros [Hc _]%andb_prop. by rewrite (digit_not_space _ Hc).
Qed.

Lemma rstrip_digits (s : string) :
  all_chars Py.is_digit s = true -> Py.rstrip s = s.
Proof.
  induction s as [|c r IH]; simpl; [done|].
  intros [Hc Hr]%andb_prop. rewrite (IH Hr).
  destruct r; [|done]. by rewrite (digit_not_space _ Hc).
Qed.

Lemma strip_digits (s : string) :
  all_chars Py.is_digit s = true -> Py.strip s = s.
Proof.
  intros H. unfold Py.strip. rewrite (lstrip_digits _ H). by apply rstrip_digits.
Qed.

(** [strip] is idempotent. *)
Lemma rstrip_head (c : ascii) (r : string) :
  Py.is_space c = false -> exists r', Py.rstrip (String c r) = String c r'.
Proof.
  intros Hc. simpl. destruct (Py.rstrip r); rewrite ?Hc; eauto.
Qed.

Lemma lstrip_shape (s : string) :
  Py.lstrip s = EmptyString \/
  exists c r, Py.lstrip s = String c r /\ Py.is_space c = false.
Proof.
  induction s as [|c r IH]; simpl; [by left|].
  destruct (Py.is_space c) eqn:Hc; [done|]. right. eauto.
Qed.

Lemma rstrip_idem (s : string) : Py.rstrip (Py.rstrip s) = Py.rstrip s.
Proof.
  induction s as [|c r IH]; simpl; [done|].
  destruct (Py.rstrip r) as [|c' r'] eqn:Hr.
  - destruct (Py.is_space c) eqn:Hc; simpl; [done|]. by rewrite Hc.
  - change (Py.rstrip (String c (String c' r'))) with
      (match Py.rstrip (String c' r') with
       | EmptyString => if Py.is_space c then EmptyString else String c EmptyString
       | x => String c x
       end).
    by rewrite IH.
Qed.

Lemma strip_idem (s : string) : Py.strip (Py.strip s) = Py.strip s.
Proof.
  unfold Py.strip. destruct (lstrip_shape s) as [->|(c & r & -> & Hc)]; [done|].
  destruct (rstrip_head c r Hc) as [r' Hr']. rewrite Hr'. simpl Py.lstrip.
  rewrite Hc, <- Hr'. apply rstrip_idem.
Qed.

(** Unfolding [prefix] and [replace] one character at a time. *)
Lemma prefix_nil (s : string) : String.prefix "" s = true.
Proof. by destruct s. Qed.

Lemma prefix_cons (a b : ascii) (s1 s2 : string) :
  String.prefix (String a s1) (String b s2) = Ascii.eqb a b && String.prefix s1 s2.
Proof.
  change (String.prefix (String a s1) (String b s2))
    with (if ascii_dec a b then String.prefix s1 s2 else false).
  destruct (ascii_dec a b) as [->|H].
  - by rewrite Ascii.eqb_refl.
  - apply Ascii.eqb_neq in H. by rewrite H.
Qed.








(** Reading a run of digits. *)
Lemma digits_from_digits (s : string) (acc : Z) (n : nat) (b : bool) :
  all_chars Py.is_digit s = true -> s <> EmptyString ->
  exists k, Py.digits_from acc n b s = Some (decimal_value acc s, k).
Proof.
  revert acc n b. induction s as [|c r IH]; intros acc n b Hall Hne; [done|].
  simpl in *. apply andb_prop in Hall as [Hc Hr].
  unfold Py.is_digit in Hc. destruct (Py.digit_val c) as [d|]; [|done].
  destruct r as [|c' r']; [simpl; eauto|]. by apply IH.
Qed.

Lemma digits_from_numeric (s : string) (acc : Z) (n : nat) (b : bool) (v : Z * nat) :
  Py.digits_from acc n b s = Some v ->
  all_chars numeric_char s = true /\ (b = false -> s <> EmptyString).
Proof.
  revert acc n b. induction s as [|c r IH]; intros acc n b; simpl.
  - destruct b; [|done]. intros _. split; [done|]. done.
  - unfold numeric_char, Py.is_digit.
    destruct (Py.digit_val c) as [d|].
    + intros [H _]%IH. simpl. split; [done|]. done.
    + destruct (Ascii.eqb c "_" && b) eqn:E; [|done].
      apply andb_prop in E as [-> _]. intros [H _]%IH. simpl. split; [done|]. done.
Qed.

Lemma split_sign_cases (s : string) (neg : bool) (body : string) :
  Py.split_sign s = (neg, body) ->
  s = String "-" body \/ s = String "+" body \/ s = body.
Proof.
  unfold Py.split_sign. intros H.
  repeat match type of H with
         | context [match ?x with _ => _ end] => destruct x
         end; inversion H; subst; auto.
Qed.

Lemma int_numeric (s : string) (z : Z) :
  Py.int s = Some z ->
  all_chars numeric_char (Py.strip s) = true /\ Py.strip s <> EmptyString.
Proof.
  unfold Py.int.
  destruct (Py.split_sign (Py.strip s)) as [neg body] eqn:Hsplit.
  destruct (Py.digits body) as [[v k]|] eqn:Hd; [|done].
  intros _. apply digits_from_numeric in Hd as [Hall Hne].
  apply split_sign_cases in Hsplit as [-> | [-> | ->]].
  - split; [|done]. cbn [all_chars]. by rewrite Hall.
  - split; [|done]. cbn [all_chars]. by rewrite Hall.
  - split; [done|]. by apply Hne.
Qed.

Lemma split_sign_digit (c : ascii) (r : string) :
  Py.is_digit c = true -> Py.split_sign (String c r) = (false, String c r).
Proof.
  intros Hc. destruct (Py.split_sign (String c r)) as [neg body] eqn:H.
  pose proof H as H'. apply split_sign_cases in H' as [E | [E | E]].
  - inversion E; subst. done.
  - inversion E; subst. done.
  - subst body. f_equal. unfold Py.split_sign in H.
    repeat match type of H with
           | context [match ?x with _ => _ end] => destruct x
           end; by inversion H.
Qed.

Lemma int_digits (s : string) :
  all_chars Py.is_digit s = true -> s <> EmptyString ->
  Py.int s = Some (decimal_value 0 s).
Proof.
  intros Hall Hne. unfold Py.int. rewrite (strip_digits _ Hall).
  destruct s as [|c r]; [done|].
  pose proof Hall as Hall'. cbn [all_chars] in Hall'.
  apply andb_prop in Hall' as [Hc _].
  rewrite (split_sign_digit _ _ Hc). unfold Py.digits.
  destruct (digits_from_digits (String c r) 0 0 false Hall Hne) as [k ->].
  done.
Qed.




Lemma clean_price_numeric (s : string) (z : Z) :
  clean_price s = Some z ->
  price_remainder s <> EmptyString /\
  all_chars numeric_char (price_remainder s) = true.
Proof.
  unfold clean_price. destruct s as [|c r]; [done|].
  intros [Hall Hne]%int_numeric.
  unfold price_remainder in *. rewrite strip_idem in Hall, Hne. done.
Qed.

(** ** Matches *)

Lemma try_at_groups (r : Re.regex) (prev : option ascii) (s : string)
  (m : Re.match_obj) :
  Re.try_at r prev s = Some m -> Re.m_pattern_groups m = Re.ngroups r.
Proof.
  unfold Re.try_at.
  destruct (Re.run r prev s [] _) as [[rest cs]|]; [|done].
  intros [= <-]. done.
Qed.

Lemma search_from_groups (r : Re.regex) (s : string) (prev : option ascii)
  (m : Re.match_obj) :
  Re.search_from r prev s = Some m -> Re.m_pattern_groups m = Re.ngroups r.
Proof.
  revert prev. induction s as [|c rest IH]; intros prev; simpl.
  - destruct (Re.try_at r prev "") eqn:E; [|done].
    intros [= <-]. by eapply try_at_groups.
  - destruct (Re.try_at r prev (String c rest)) eqn:E.
    + intros [= <-]. by eapply try_at_groups.
    + apply IH.
Qed.

Lemma search_groups (r : Re.regex) (text : string) (m : Re.match_obj) :
  Re.search r text = Some m -> Re.m_pattern_groups m = Re.ngroups r.
Proof. apply search_from_groups. Qed.

Lemma group1_present (m : Re.match_obj) :
  (1 <= Re.m_pattern_groups m)%nat ->
  group m 1 = Ok (Re.lookup_capture 1 (Re.m_captures m)).
Proof.
  intros H. unfold group. destruct (1 <=? Re.m_pattern_groups m)%nat eqn:E; [done|].
  apply Nat.leb_gt in E. lia.
Qed.

Lemma group1_missing (m : Re.match_obj) :
  Re.m_pattern_groups m = O -> group m 1 = Raise IndexError.
Proof. intros H. unfold group. by rewrite H. Qed.

(** The value computed inside the [try] once group 1 is known. *)
Lemma spec_value_of_group (m : Re.match_obj) (g : string) :
  (1 <= Re.m_pattern_groups m)%nat ->
  Re.lookup_capture 1 (Re.m_captures m) = Some g ->
  spec_value_of_match m =
    if Py.contains "." g
    then match Py.float (Py.strip g) with
         | Some q => Ok (PyFloat q) | None => Raise ValueError end
    else match Py.int (Py.strip g) with
         | Some z => Ok (PyInt z) | None => Raise ValueError end.
Proof.
  intros Hn Hg. unfold spec_value_of_match.
  rewrite (group1_present _ Hn), Hg. cbn.
  destruct (Py.contains "." g); cbn.
  - by destruct (Py.float (Py.strip g)).
  - by destruct (Py.int (Py.strip g)).
Qed.

Lemma spec_value_unset_group (m : Re.match_obj) :
  (1 <= Re.m_pattern_groups m)%nat ->
  Re.lookup_capture 1 (Re.m_captures m) = None ->
  spec_value_of_match m = Raise TypeError.
Proof.
  intros Hn Hg. unfold spec_value_of_match.
  by rewrite (group1_present _ Hn), Hg.
Qed.

(** C6.  For a pattern with a capture group, [extract_spec_value] raises
    on no text: without a match the result is [None]; with a match whose
    group 1 holds [g] the result is the float read from [g] when [g]
    contains a dot and the integer read from [g] otherwise, [None] when
    reading fails; a group that took no part in the match gives [None].
    The two sample values hold. *)
Theorem extract_spec_value_spec (text : string) (pattern : Re.regex)
  (Hgroup : (1 <= Re.ngroups pattern)%nat) :
  (exists v, extract_spec_value text pattern = Ok v) /\
  (text = EmptyString \/ Re.search pattern text = None ->
   extract_spec_value text pattern = Ok None) /\
  (forall m, text <> EmptyString -> Re.search pattern text = Some m ->
     extract_spec_value text pattern =
       match Re.lookup_capture 1 (Re.m_captures m) with
       | Some g =>
           if Py.contains "." g
           then Ok (option_map PyFloat (Py.float (Py.strip g)))
           else Ok (option_map PyInt (Py.int (Py.strip g)))
       | None => Ok None
       end) /\
  extract_spec_value "6.5 inch display" Pat.inch = Ok (Some (PyFloat (13 # 2))) /\
  extract_spec_value "128GB storage" Pat.gb = Ok (Some (PyInt 128)).
Proof.
  assert (Hmatch : forall m, text <> EmptyString ->
            Re.search pattern text = Some m ->
            extract_spec_value text pattern =
              match Re.lookup_capture 1 (Re.m_captures m) with
              | Some g =>
                  if Py.contains "." g
                  then Ok (option_map PyFloat (Py.float (Py.strip g)))
                  else Ok (option_map PyInt (Py.int (Py.strip g)))
              | None => Ok None
              end).
  { intros m Hne Hs. unfold extract_spec_value.
    destruct text as [|c r]; [done|]. rewrite Hs.
    assert (Hn : (1 <= Re.m_pattern_groups m)%nat)
      by (rewrite (search_groups _ _ _ Hs); exact Hgroup).
    destruct (Re.lookup_capture 1 (Re.m_captures m)) as [g|] eqn:Hg.
    - rewrite (spec_value_of_group _ _ Hn Hg).
      destruct (Py.contains "." g).
      + by destruct (Py.float (Py.strip g)).
      + by destruct (Py.int (Py.strip g)).
    - by rewrite (spec_value_unset_group _ Hn Hg). }
  assert (Hnone : text = EmptyString \/ Re.search pattern text = None ->
            extract_spec_value text pattern = Ok None).
  { intros [-> | Hs]; [done|]. unfold extract_spec_value.
    destruct text; [done|]. by rewrite Hs. }
  split; [|split; [exact Hnone|split; [exact Hmatch|split; by vm_compute]]].
  destruct (string_dec text EmptyString) as [Ht|Ht].
  { rewrite Hnone; [by eexists | by left]. }
  destruct (Re.search pattern text) as [m|] eqn:Hs.
  - rewrite (Hmatch m Ht eq_refl).
    destruct (Re.lookup_capture 1 (Re.m_captures m)) as [g|]; [|by eexists].
    destruct (Py.contains "." g); by eexists.
  - rewrite Hnone; [by eexists | by right].
Qed.

Lemma extract_spec_value_spec_witness :
  (1 <= Re.ngroups Pat.inch)%nat /\
  exists v, extract_spec_value "6.5 inch display" Pat.inch = Ok v.
Proof.
  assert (H : (1 <= Re.ngroups Pat.inch)%nat) by (vm_compute; lia).
  split; [exact H|].
  exact (proj1 (extract_spec_value_spec "6.5 inch display" Pat.inch H)).
Defined.

(** C6, as stated for every pattern: a pattern without a capture group
    makes [match.group(1)] raise [IndexError], which the handler lets
    through. *)
Lemma extract_spec_value_raises_without_group :
  extract_spec_value "128GB storage"
    (Re.Seq (Re.Plus Re.digit) (Re.Seq (Re.Star Re.space) (Re.Lit "GB")))
  = Raise IndexError.
Proof. by vm_compute. Qed.

(** A pattern without a capture group raises as soon as it matches. *)
Lemma extract_spec_value_no_group (text : string) (pattern : Re.regex)
  (m : Re.match_obj) :
  Re.ngroups pattern = O -> text <> EmptyString ->
  Re.search pattern text = Some m ->
  extract_spec_value text pattern = Raise IndexError.
Proof.
  intros Hn Hne Hs. unfold extract_spec_value.
  destruct text as [|c r]; [done|]. rewrite Hs.
  unfold spec_value_of_match. rewrite group1_missing; [done|].
  by rewrite (search_groups _ _ _ Hs).
Qed.

(** ** Layout classifier *)

Lemma nonempty_find_all (p : node -> bool) (soup : node) :
  nonempty (Soup.find_all p soup) = true <-> probe p soup.
Proof.
  unfold probe, Soup.find_all. split.
  - destruct (List.filter p (Soup.descendants soup)) as [|n l] eqn:E; [done|].
    intros _. exists n.
    assert (Hin : In n (List.filter p (Soup.descendants soup)))
      by (rewrite E; by left).
    apply filter_In in Hin as [Hin Hp]. split; [|done].
    by apply list_elem_of_In.
  - intros (n & Hin & Hp).
    assert (Hf : In n (List.filter p (Soup.descendants soup))).
    { apply filter_In. split; [|done]. by apply list_elem_of_In. }
    by destruct (List.filter p (Soup.descendants soup)).
Qed.

Lemma probe_or (p q : node -> bool) (soup : node) :
  probe (fun n => p n || q n) soup <-> probe p soup \/ probe q soup.
Proof.
  unfold probe. split.
  - intros (n & Hin & [H|H]%orb_prop); [left|right]; eauto.
  - intros [(n & Hin & H)|(n & Hin & H)]; exists n; rewrite H;
      (split; [exact Hin|]); [reflexivity | apply orb_true_r].
Qed.

Lemma probe_ext (p q : node -> bool) (soup : node) :
  (forall n, p n = q n) -> probe p soup <-> probe q soup.
Proof.
  intros H. unfold probe. split; intros (n & Hin & Hp); exists n;
    (split; [exact Hin|]); [by rewrite <- H | by rewrite H].
Qed.

Lemma new_indicators_probe (soup : node) :
  existsb nonempty (new_layout_indicators soup) = true <-> probe new_marker soup.
Proof.
  unfold new_layout_indicators. cbn [existsb]. rewrite orb_false_r.
  rewrite !orb_true_iff, !nonempty_find_all, <- !probe_or.
  apply probe_ext. intros n. unfold new_marker.
  destruct (is_div n); [|done]. cbn [andb]. by rewrite orb_assoc.
Qed.

Lemma old_indicators_probe (soup : node) :
  existsb nonempty (old_layout_indicators soup) = true <-> probe old_marker soup.
Proof.
  unfold old_layout_indicators. cbn [existsb]. rewrite orb_false_r.
  rewrite !orb_true_iff, !nonempty_find_all, <- !probe_or.
  apply probe_ext. intros n. unfold old_marker.
  by destruct (is_div n).
Qed.

Lemma heading_rule_iff (soup : node) :
  let h2_headers := Soup.find_all (Soup.has_tag "h2") soup in
  nonempty h2_headers && (5 <? length h2_headers)%nat
  && existsb mentions_ram_rom h2_headers = true <-> heading_rule soup.
Proof.
  cbn zeta. unfold heading_rule.
  set (hs := Soup.find_all (Soup.has_tag "h2") soup).
  rewrite !andb_true_iff, Nat.ltb_lt, existsb_exists. split.
  - intros [[_ Hlen] (h & Hin & Hm)]. split; [done|].
    exists h. apply andb_prop in Hm as [H1 H2].
    split; [by apply list_elem_of_In|done].
  - intros [Hlen (h & Hin & H1 & H2)]. split; [split; [|done]|].
    + destruct hs; [simpl in Hlen; lia|done].
    + exists h. split; [by apply list_elem_of_In|].
      unfold mentions_ram_rom. by rewrite H1, H2.
Qed.

Lemma detect_layout_classifies (soup : node) (page_number : Z) :
  classifies soup page_number (detect_layout soup page_number).
Proof.
  unfold detect_layout. cbn zeta.
  pose proof (heading_rule_iff soup) as Hh. cbn zeta in Hh.
  destruct (nonempty _ && _ && _) eqn:E1.
  { apply by_headings. by apply Hh. }
  assert (Hnh : ¬ heading_rule soup) by (rewrite <- Hh; done).
  destruct (existsb nonempty (new_layout_indicators soup)) eqn:E2.
  { apply by_new_probe; [done|]. by apply new_indicators_probe. }
  assert (Hnn : ¬ probe new_marker soup)
    by (rewrite <- new_indicators_probe, E2; done).
  destruct (existsb nonempty (old_layout_indicators soup)) eqn:E3.
  { apply by_old_probe; [done..|]. by apply old_indicators_probe. }
  assert (Hno : ¬ probe old_marker soup)
    by (rewrite <- old_indicators_probe, E3; done).
  by apply by_page_index.
Qed.

Lemma classifies_functional (soup : node) (page_number : Z) (l1 l2 : layout) :
  classifies soup page_number l1 -> classifies soup page_number l2 -> l1 = l2.
Proof. intros H1 H2. destruct H1; destruct H2; done. Qed.

(** C4.  The layout returned by [detect_layout] is the one the ordered
    rules name: newest when more than five [h2] headings exist and one of
    them mentions both RAM and ROM; otherwise new when a new-layout marker
    is found; otherwise old when an old-layout marker is found; otherwise
    new from page 202 on and old before.  The rules name exactly one
    layout. *)
Theorem detect_layout_order (soup : node) (page_number : Z) :
  classifies soup page_number (detect_layout soup page_number) /\
  (forall l, classifies soup page_number l -> l = detect_layout soup page_number).
Proof.
  split; [apply detect_layout_classifies|].
  intros l Hl. eapply classifies_functional; [exact Hl|].
  apply detect_layout_classifies.
Qed.

Lemma detect_layout_order_witness :
  Newest = detect_layout (Sample.newest_page (Sample.models "Oppo")) 1.
Proof.
  apply (proj2 (detect_layout_order (Sample.newest_page (Sample.models "Oppo")) 1)).
  apply by_headings. split; [vm_compute; lia|].
  exists (Elem "h2" [] None [Text "Oppo a RAM 8GB ROM 128GB"]).
  split; [|split; by vm_compute].
  apply list_elem_of_In. vm_compute. by left.
Defined.

(** ** Paths *)

Lemma append_nil (s : string) : "" ++ s = s.
Proof. reflexivity. Qed.

Lemma append_cons (c : ascii) (a b : string) : String c a ++ b = String c (a ++ b).
Proof. reflexivity. Qed.

Lemma length_append (a b : string) :
  String.length (a ++ b) = (String.length a + String.length b)%nat.
Proof.
  induction a as [|c a IH]; [done|].
  rewrite append_cons. cbn [String.length]. by rewrite IH.
Qed.

Lemma all_chars_append (p : ascii -> bool) (a b : string) :
  all_chars p (a ++ b) = all_chars p a && all_chars p b.
Proof.
  induction a as [|c a IH]; [done|].
  rewrite append_cons. cbn [all_chars]. by rewrite IH, andb_assoc.
Qed.

Lemma after_last_slash_none (s : string) :
  no_slash s = true -> Path.after_last_slash s = None.
Proof.
  unfold no_slash. induction s as [|c r IH]; [done|].
  cbn [all_chars Path.after_last_slash]. intros [Hc Hr]%andb_prop.
  rewrite (IH Hr). apply negb_true_iff in Hc. by rewrite Hc.
Qed.

Lemma after_last_slash_none_inv (s : string) :
  Path.after_last_slash s = None -> no_slash s = true.
Proof.
  unfold no_slash. induction s as [|c r IH]; [done|].
  cbn [Path.after_last_slash all_chars].
  destruct (Path.after_last_slash r); [done|].
  destruct (Ascii.eqb c "/"); [done|]. intros _. by rewrite IH.
Qed.

Lemma after_last_slash_no_slash (s b : string) :
  Path.after_last_slash s = Some b -> no_slash b = true.
Proof.
  revert b. induction s as [|c r IH]; intros b; [done|].
  cbn [Path.after_last_slash].
  destruct (Path.after_last_slash r) as [b'|] eqn:E.
  - intros [= <-]. by apply IH.
  - destruct (Ascii.eqb c "/"); [|done]. intros [= <-].
    by apply after_last_slash_none_inv.
Qed.

Lemma basename_no_slash (p : string) : no_slash (Path.basename p) = true.
Proof.
  unfold Path.basename. destruct (Path.after_last_slash p) as [b|] eqn:E.
  - by eapply after_last_slash_no_slash.
  - by apply after_last_slash_none_inv.
Qed.

Lemma after_last_slash_append (a b : string) :
  no_slash b = true -> Path.after_last_slash (a ++ String "/" b) = Some b.
Proof.
  intros Hb. induction a as [|c a IH].
  - rewrite append_nil. cbn [Path.after_last_slash].
    by rewrite (after_last_slash_none _ Hb).
  - rewrite append_cons. cbn [Path.after_last_slash]. by rewrite IH.
Qed.

Lemma split_last_dot_append (s a b : string) :
  Path.split_last_dot s = Some (a, b) -> s = a ++ b.
Proof.
  revert a b. induction s as [|c r IH]; intros a b; [done|].
  cbn [Path.split_last_dot].
  destruct (Path.split_last_dot r) as [[a' b']|].
  - intros [= <- <-]. rewrite append_cons. f_equal. by apply IH.
  - destruct (Ascii.eqb c "."); [|done]. by intros [= <- <-].
Qed.

Lemma splitext_append (name stem ext : string) :
  Path.splitext name = (stem, ext) -> name = stem ++ ext.
Proof.
  unfold Path.splitext.
  destruct (Path.split_last_dot name) as [[a b]|] eqn:E.
  - destruct (Path.all_dots a).
    + intros [= <- <-]. clear. induction name as [|c r IH]; [done|].
      rewrite append_cons. by rewrite <- IH.
    + intros [= <- <-]. by apply split_last_dot_append.
  - intros [= <- <-]. clear. induction name as [|c r IH]; [done|].
    rewrite append_cons. by rewrite <- IH.
Qed.

(** A backup never lands on the file it copies. *)
Lemma backup_path_differs (file_path timestamp : string) :
  no_slash timestamp = true -> backup_path_of file_path timestamp <> file_path.
Proof.
  intros Hts Heq. unfold backup_path_of in Heq.
  destruct (Path.splitext (Path.basename file_path)) as [stem ext] eqn:E.
  apply splitext_append in E.
  pose proof (basename_no_slash file_path) as Hbase. rewrite E in Hbase.
  unfold no_slash in Hbase, Hts. rewrite all_chars_append in Hbase.
  apply andb_prop in Hbase as [Hstem Hext].
  assert (Hname : no_slash (stem ++ "_" ++ timestamp ++ ext) = true).
  { unfold no_slash. rewrite !all_chars_append, Hstem, Hts, Hext. done. }
  assert (Hb : Path.basename file_path = stem ++ "_" ++ timestamp ++ ext).
  { rewrite <- Heq at 1. unfold Path.basename, backup_dir.
    change ("backups" ++ "/" ++ stem ++ "_" ++ timestamp ++ ext)
      with ("backups" ++ String "/" (stem ++ "_" ++ timestamp ++ ext)).
    by rewrite (after_last_slash_append _ _ Hname). }
  rewrite E in Hb. apply (f_equal String.length) in Hb.
  rewrite !length_append in Hb. cbn [String.length] in Hb. lia.
Qed.

(** ** Persistence *)

Lemma exists_file_true (p : string) (d : disk) (content : list csv_line) :
  files d !! p = Some content -> exists_file p d = true.
Proof. unfold exists_file. by intros ->. Qed.

Lemma exists_file_false (p : string) (d : disk) :
  files d !! p = None -> exists_file p d = false.
Proof. unfold exists_file. by intros ->. Qed.

Lemma create_backup_existing (e : env) (p : string) (d : disk)
  (content : list csv_line) :
  files d !! p = Some content ->
  create_backup e p d =
    (Some (backup_path_of p (now e (ticks d))),
     {| files := <[backup_path_of p (now e (ticks d)) := content]> (files d);
        ticks := S (ticks d) |}).
Proof. unfold create_backup. by intros ->. Qed.

(** A backup leaves the content of the file it copies in place. *)
Lemma create_backup_keeps (e : env) (p : string) (d : disk)
  (content : list csv_line) :
  files d !! p = Some content ->
  files (snd (create_backup e p d)) !! p = Some content.
Proof.
  intros H. rewrite (create_backup_existing _ _ _ _ H). cbn.
  destruct (decide (backup_path_of p (now e (ticks d)) = p)) as [->|Hne].
  - apply lookup_insert_eq.
  - by rewrite lookup_insert_ne.
Qed.

(** C9.  [save_data_to_csv] by cases on [append] and on whether the file
    exists.  Not appending to an existing file: [create_backup] copies the
    old content under the timestamped name, then the file is rewritten
    with a header line followed by the records.  Appending to an existing
    file: the records follow the old content, without a header.  No file:
    it is created with a header line, whatever [append] is. *)
Theorem save_data_to_csv_cases (e : env) (data : list phone_data)
  (f : string) (append : bool) (d : disk) :
  (forall old, files d !! f = Some old -> append = false ->
     let bp := backup_path_of f (now e (ticks d)) in
     create_backup e f d =
       (Some bp, {| files := <[bp := old]> (files d); ticks := S (ticks d) |}) /\
     files (save_data_to_csv e data f append d) =
       <[f := HeaderLine (frame_columns data) :: List.map DataLine data]>
         (<[bp := old]> (files d)) /\
     files (save_data_to_csv e data f append d) !! f =
       Some (HeaderLine (frame_columns data) :: List.map DataLine data) /\
     (no_slash (now e (ticks d)) = true ->
      bp <> f /\
      files (save_data_to_csv e data f append d) !! bp = Some old)) /\
  (forall old, files d !! f = Some old -> append = true ->
     files (save_data_to_csv e data f append d) =
       <[f := (old ++ List.map DataLine data)%list]> (files d) /\
     files (save_data_to_csv e data f append d) !! f =
       Some (old ++ List.map DataLine data)%list) /\
  (files d !! f = None ->
     files (save_data_to_csv e data f append d) =
       <[f := HeaderLine (frame_columns data) :: List.map DataLine data]> (files d) /\
     files (save_data_to_csv e data f append d) !! f =
       Some (HeaderLine (frame_columns data) :: List.map DataLine data)).
Proof.
  split; [|split].
  - intros old Hold -> bp.
    assert (Hsave : files (save_data_to_csv e data f false d) =
              <[f := HeaderLine (frame_columns data) :: List.map DataLine data]>
                (<[bp := old]> (files d))).
    { unfold save_data_to_csv. rewrite (exists_file_true _ _ _ Hold). cbn [andb negb].
      rewrite (create_backup_existing _ _ _ _ Hold). done. }
    split; [by apply create_backup_existing|]. split; [exact Hsave|].
    rewrite Hsave. split; [apply lookup_insert_eq|].
    intros Hts. pose proof (backup_path_differs f _ Hts) as Hne.
    split; [exact Hne|].
    rewrite lookup_insert_ne by done. apply lookup_insert_eq.
  - intros old Hold ->.
    assert (Hsave : files (save_data_to_csv e data f true d) =
              <[f := (old ++ List.map DataLine data)%list]> (files d)).
    { unfold save_data_to_csv. rewrite (exists_file_true _ _ _ Hold). cbn [andb negb].
      unfold to_csv. rewrite Hold. done. }
    split; [exact Hsave|]. rewrite Hsave. apply lookup_insert_eq.
  - intros Hnone.
    assert (Hsave : files (save_data_to_csv e data f append d) =
              <[f := HeaderLine (frame_columns data) :: List.map DataLine data]>
                (files d)).
    { unfold save_data_to_csv. rewrite (exists_file_false _ _ Hnone).
      rewrite andb_false_r. cbn [andb negb]. done. }
    split; [exact Hsave|]. rewrite Hsave. apply lookup_insert_eq.
Qed.

Lemma save_data_to_csv_cases_witness :
  files (save_data_to_csv (Sample.site_env Sample.down) Sample.example_frame
           "smartphone_data.csv" false Sample.stored)
    !! "backups/smartphone_data_20250101_000000.csv"
  = Some [HeaderLine csv_columns] /\
  files (save_data_to_csv (Sample.site_env Sample.down) Sample.example_frame
           "smartphone_data.csv" true Sample.stored) !! "smartphone_data.csv"
  = Some ([HeaderLine csv_columns] ++ List.map DataLine Sample.example_frame)%list /\
  files (save_data_to_csv (Sample.site_env Sample.down) Sample.example_frame
           "smartphone_data.csv" true Sample.empty_disk) !! "smartphone_data.csv"
  = Some (HeaderLine csv_columns :: List.map DataLine Sample.example_frame).
Proof.
  split; [|split].
  - refine (proj2 (proj2 (proj2 (proj2 (proj1
      (save_data_to_csv_cases (Sample.site_env Sample.down) Sample.example_frame
         "smartphone_data.csv" false Sample.stored)
      [HeaderLine csv_columns] _ _))) _)); reflexivity.
  - refine (proj2 (proj1 (proj2
      (save_data_to_csv_cases (Sample.site_env Sample.down) Sample.example_frame
         "smartphone_data.csv" true Sample.stored))
      [HeaderLine csv_columns] _ _)); reflexivity.
  - refine (proj2 (proj2 (proj2
      (save_data_to_csv_cases (Sample.site_env Sample.down) Sample.example_frame
         "smartphone_data.csv" true Sample.empty_disk)) _)); reflexivity.
Defined.

(** C10.  When the stored file exists and reading it raises, or the frame
    read has no [Name] column, [get_existing_phones] returns the empty set,
    and the crawl starts from an empty ledger. *)
Theorem get_existing_phones_unreadable (e : env) (c : config) (d : disk)
  (content : list csv_line) (start_page : Z)
  (Hfile : files d !! csv_filename c = Some content)
  (Hbad : (exists ex, read_csv e content = Raise ex) \/
          (exists df, read_csv e content = Ok df /\ "Name" ∉ df_columns df)) :
  get_existing_phones e (csv_filename c) d = ∅ /\
  existing_phones (initial_state e c start_page d) = ∅.
Proof.
  assert (Hany : forall d', files d' !! csv_filename c = Some content ->
            get_existing_phones e (csv_filename c) d' = ∅).
  { intros d' Hd'. unfold get_existing_phones. rewrite Hd'.
    destruct Hbad as [[ex ->]|(df & -> & Hcol)]; [done|].
    by rewrite bool_decide_eq_false_2. }
  split; [by apply Hany|].
  unfold initial_state. cbn [existing_phones].
  rewrite (exists_file_true _ _ _ Hfile). apply Hany.
  by apply create_backup_keeps.
Qed.

Lemma get_existing_phones_unreadable_witness :
  existing_phones
    (initial_state (Sample.site_env Sample.down) Sample.cfg 1 Sample.corrupt) = ∅ /\
  existing_phones
    (initial_state (Sample.site_env Sample.down) Sample.cfg 1 Sample.nameless) = ∅.
Proof.
  split.
  - refine (proj2 (get_existing_phones_unreadable (Sample.site_env Sample.down)
      Sample.cfg Sample.corrupt [] 1 _ _)); [reflexivity|].
    left. exists EmptyDataError. reflexivity.
  - refine (proj2 (get_existing_phones_unreadable (Sample.site_env Sample.down)
      Sample.cfg Sample.nameless [HeaderLine ["Model"; "Price"]] 1 _ _));
      [reflexivity|].
    right. eexists. split; [reflexivity|]. cbn.
    intros H. apply elem_of_cons in H as [H|H]; [discriminate|].
    apply elem_of_cons in H as [H|H]; [discriminate|].
    by apply elem_of_nil in H.
Defined.

(** ** Fetching with retries *)

Lemma count_gets_failed (p delay last k : Z) (n : nat) :
  count_gets (failed_attempts p delay last k n) = n.
Proof.
  revert k. induction n as [|n IH]; intros k; [done|].
  cbn [failed_attempts count_gets].
  destruct (k + 1 <? last); cbn; by rewrite IH.
Qed.

(** Every failed attempt before the last one is followed by a wait of
    [delay] times its number. *)
Lemma sleeps_failed_before (p delay last k : Z) (n : nat) :
  k + Z.of_nat n < last ->
  sleeps (failed_attempts p delay last k n) =
  List.map (Z.mul delay) (seqZ (k + 1) (Z.of_nat n)).
Proof.
  revert k. induction n as [|n IH]; intros k Hlt; [done|].
  cbn [failed_attempts].
  destruct (k + 1 <? last) eqn:E; [|apply Z.ltb_ge in E; lia].
  cbn [app sleeps]. rewrite IH by lia.
  rewrite (seqZ_cons (k + 1) (Z.of_nat (S n))) by lia.
  cbn [List.map]. do 3 f_equal; lia.
Qed.

Lemma sleeps_failed_all (p delay last k : Z) (n : nat) :
  k + Z.of_nat (S n) = last ->
  sleeps (failed_attempts p delay last k (S n)) =
  List.map (Z.mul delay) (seqZ (k + 1) (Z.of_nat n)).
Proof.
  revert k. induction n as [|n IH]; intros k Heq.
  - cbn [failed_attempts].
    destruct (k + 1 <? last) eqn:E; [apply Z.ltb_lt in E; lia|]. done.
  - remember (S n) as n' eqn:Hn'. cbn [failed_attempts].
    destruct (k + 1 <? last) eqn:E; [|apply Z.ltb_ge in E; lia].
    cbn [app sleeps]. subst n'. rewrite IH by lia.
    rewrite (seqZ_cons (k + 1) (Z.of_nat (S n))) by lia.
    cbn [List.map]. do 3 f_equal; lia.
Qed.

Lemma fetch_loop_all_fail (e : env) (c : config) (p : Z) (fuel : nat) :
  forall (k : Z) (st : state),
    (1 <= fuel)%nat ->
    Z.of_nat fuel = max_retries c - k ->
    (forall j, k < j <= max_retries c -> http_get e p j = None) ->
    fetch_loop e c p fuel k st =
      (None,
       {| page := page st + 1; total_phones := total_phones st;
          empty_pages_count := empty_pages_count st;
          existing_phones := existing_phones st; store := store st;
          trace :=
            (trace st
             ++ failed_attempts p (retry_delay c) (max_retries c) k fuel)%list |}).
Proof.
  induction fuel as [|fuel IH]; intros k st Hpos Hfuel Hfail; [lia|].
  cbn [fetch_loop].
  destruct (k <? max_retries c) eqn:E; [|apply Z.ltb_ge in E; lia].
  rewrite Hfail by lia. cbn [failed_attempts].
  destruct (k + 1 <? max_retries c) eqn:E'.
  - apply Z.ltb_lt in E'. rewrite IH; [|lia|lia|intros j Hj; apply Hfail; lia].
    cbn. by rewrite <- !app_assoc.
  - pose proof E' as Hge. apply Z.ltb_ge in Hge. assert (fuel = O) as -> by lia.
    cbn [fetch_loop].
    destruct (k + 1 <? max_retries c); [done|].
    cbn. by rewrite <- ?app_assoc.
Qed.

Lemma fetch_loop_success (e : env) (c : config) (p : Z) (soup : node) (n : nat) :
  forall (fuel : nat) (k : Z) (st : state),
    Z.of_nat fuel = max_retries c - k ->
    k + Z.of_nat n + 1 <= max_retries c ->
    (forall j, k < j <= k + Z.of_nat n -> http_get e p j = None) ->
    http_get e p (k + Z.of_nat n + 1) = Some soup ->
    fetch_loop e c p fuel k st =
      (Some soup,
       {| page := page st; total_phones := total_phones st;
          empty_pages_count := empty_pages_count st;
          existing_phones := existing_phones st; store := store st;
          trace :=
            (trace st
             ++ failed_attempts p (retry_delay c) (max_retries c) k n
             ++ [EvGet p (k + Z.of_nat n + 1)])%list |}).
Proof.
  induction n as [|n IH]; intros fuel k st Hfuel Hle Hfail Hok.
  - destruct fuel as [|fuel]; [lia|]. cbn [fetch_loop].
    destruct (k <? max_retries c) eqn:E; [|apply Z.ltb_ge in E; lia].
    replace (k + Z.of_nat 0 + 1) with (k + 1) in * by lia.
    rewrite Hok. done.
  - destruct fuel as [|fuel]; [lia|]. cbn [fetch_loop].
    destruct (k <? max_retries c) eqn:E; [|apply Z.ltb_ge in E; lia].
    rewrite Hfail by lia. cbn [failed_attempts].
    destruct (k + 1 <? max_retries c) eqn:E'; [|apply Z.ltb_ge in E'; lia].
    rewrite (IH fuel (k + 1)); [|lia|lia|intros j Hj; apply Hfail; lia|].
    + cbn. rewrite <- !app_assoc. cbn.
      replace (k + 1 + Z.of_nat n + 1) with (k + Z.of_nat (S n) + 1) by lia.
      done.
    + rewrite <- Hok. f_equal. lia.
Qed.

(** C8.  When every one of the [max_retries] requests for a page raises,
    the pass of the crawl loop makes exactly those requests, waits
    [retry_delay * k] after failed attempt [k] for every attempt but the
    last, and continues the loop at the next page with counters, ledger
    and files untouched.  When instead attempt [j] answers after [j - 1]
    failures, the waits were [retry_delay * 1] up to
    [retry_delay * (j - 1)] and the page is the one processed. *)
Theorem fetch_exhaustion_skips_page (e : env) (c : config) (st : state)
  (Hretries : 1 <= max_retries c) :
  let m := max_retries c in
  ((forall k, 1 <= k <= m -> http_get e (page st) k = None) ->
   let evs := failed_attempts (page st) (retry_delay c) m 0 (Z.to_nat m) in
   crawl_step e c st =
     Continue {| page := page st + 1; total_phones := total_phones st;
                 empty_pages_count := empty_pages_count st;
                 existing_phones := existing_phones st; store := store st;
                 trace := (trace st ++ evs)%list |} /\
   count_gets evs = Z.to_nat m /\
   sleeps evs = List.map (Z.mul (retry_delay c)) (seqZ 1 (m - 1))) /\
  (forall j soup, 1 <= j <= m ->
     (forall k, 1 <= k < j -> http_get e (page st) k = None) ->
     http_get e (page st) j = Some soup ->
     let evs := (failed_attempts (page st) (retry_delay c) m 0 (Z.to_nat (j - 1))
                 ++ [EvGet (page st) j])%list in
     crawl_step e c st =
       process_page e c soup
         {| page := page st; total_phones := total_phones st;
            empty_pages_count := empty_pages_count st;
            existing_phones := existing_phones st; store := store st;
            trace := (trace st ++ evs)%list |} /\
     sleeps evs = List.map (Z.mul (retry_delay c)) (seqZ 1 (j - 1))).
Proof.
  cbn zeta. split.
  - intros Hfail. split; [|split].
    + unfold crawl_step.
      rewrite fetch_loop_all_fail; [done|lia|lia|].
      intros j Hj. apply Hfail. lia.
    + apply count_gets_failed.
    + destruct (Z.to_nat (max_retries c)) as [|n] eqn:En; [lia|].
      rewrite sleeps_failed_all by lia.
      do 2 f_equal. lia.
  - intros j soup Hj Hfail Hok. split.
    + unfold crawl_step.
      rewrite (fetch_loop_success e c (page st) soup (Z.to_nat (j - 1)));
        [|lia|lia|intros k Hk; apply Hfail; lia|rewrite <- Hok; f_equal; lia].
      cbn. replace (0 + Z.of_nat (Z.to_nat (j - 1)) + 1) with j by lia. done.
    + assert (Hs : forall l ev, sleeps (l ++ [EvGet (page st) ev]) = sleeps l).
      { intros l ev. induction l as [|[] l IH]; cbn; by rewrite ?IH. }
      rewrite Hs, sleeps_failed_before by lia.
      do 2 f_equal. lia.
Qed.

Lemma fetch_exhaustion_skips_page_witness :
  exists st',
    crawl_step (Sample.site_env Sample.down) Sample.cfg (Sample.state_at 7 2 ∅)
    = Continue st' /\
    page st' = 8 /\ empty_pages_count st' = 2 /\
    sleeps (trace st') = [30; 60; 90; 120] /\ count_gets (trace st') = 5%nat.
Proof.
  assert (H : 1 <= max_retries Sample.cfg) by (vm_compute; discriminate).
  destruct (proj1 (fetch_exhaustion_skips_page (Sample.site_env Sample.down)
                     Sample.cfg (Sample.state_at 7 2 ∅) H)) as (Hstep & _).
  { intros k _. reflexivity. }
  eexists. split; [exact Hstep|]. repeat split; reflexivity.
Defined.

(** ** The product filter *)

Lemma is_empty_string_false (s : string) :
  is_empty_string s = false <-> s <> EmptyString.
Proof. by destruct s. Qed.

Lemma accept_loop_sound (require_price : bool) (cands : list (option phone_data)) :
  forall existing,
    Forall (fun d => Name d <> EmptyString /\
                     (require_price = true -> Price d <> None))
      (fst (accept_loop require_price cands existing)).
Proof.
  induction cands as [|[d|] r IH]; intros existing; cbn [accept_loop]; [done| |done].
  destruct (is_empty_string (Name d)) eqn:En; [done|].
  destruct (bool_decide (Name d ∈ existing)); [done|].
  destruct (require_price && is_none (Price d)) eqn:Ep; [done|].
  specialize (IH ({[Name d]} ∪ existing)).
  destruct (accept_loop require_price r ({[Name d]} ∪ existing)) as [l ex].
  cbn [fst] in *. constructor; [|done]. split.
  - by apply is_empty_string_false.
  - intros ->. cbn in Ep. by destruct (Price d).
Qed.

Lemma accept_loop_ledger (require_price : bool) (cands : list (option phone_data)) :
  forall existing,
    snd (accept_loop require_price cands existing) =
    names (fst (accept_loop require_price cands existing)) ∪ existing.
Proof.
  unfold names.
  induction cands as [|[d|] r IH]; intros existing; cbn [accept_loop];
    [cbn; set_solver| |done].
  destruct (is_empty_string (Name d)); [done|].
  destruct (bool_decide (Name d ∈ existing)); [done|].
  destruct (require_price && is_none (Price d)); [done|].
  specialize (IH ({[Name d]} ∪ existing)).
  destruct (accept_loop require_price r ({[Name d]} ∪ existing)) as [l ex].
  cbn [fst snd List.map] in *. rewrite IH. set_solver.
Qed.

Lemma accept_loop_fresh (require_price : bool) (cands : list (option phone_data)) :
  forall existing,
    (forall d, d ∈ fst (accept_loop require_price cands existing) ->
               Name d ∉ existing) /\
    NoDup (List.map Name (fst (accept_loop require_price cands existing))).
Proof.
  induction cands as [|[d|] r IH]; intros existing; cbn [accept_loop].
  - split; [intros d Hd; by apply elem_of_nil in Hd | constructor].
  - destruct (is_empty_string (Name d)); [done|].
    destruct (bool_decide (Name d ∈ existing)) eqn:Hin; [done|].
    apply bool_decide_eq_false in Hin.
    destruct (require_price && is_none (Price d)); [done|].
    destruct (IH ({[Name d]} ∪ existing)) as [Hfresh Hnd].
    destruct (accept_loop require_price r ({[Name d]} ∪ existing)) as [l ex].
    cbn [fst List.map] in *. split.
    + intros d' [->|Hd']%elem_of_cons; [done|].
      specialize (Hfresh d' Hd'). set_solver.
    + constructor; [|done]. intros Hd.
      apply list_elem_of_fmap in Hd as (d' & Heq & Hd').
      specialize (Hfresh d' Hd'). set_solver.
  - done.
Qed.

(** A second pass under a ledger that holds the first pass's ledger
    accepts nothing. *)
Lemma accept_loop_idempotent (require_price : bool)
  (cands : list (option phone_data)) :
  forall existing later,
    snd (accept_loop require_price cands existing) ⊆ later ->
    accept_loop require_price cands later = ([], later).
Proof.
  induction cands as [|[d|] r IH]; intros existing later; cbn [accept_loop];
    [done| |apply IH].
  destruct (is_empty_string (Name d)); [apply IH|].
  destruct (bool_decide (Name d ∈ existing)) eqn:Hin.
  { intros Hsub. rewrite (IH _ _ Hsub).
    apply bool_decide_eq_true in Hin.
    pose proof (accept_loop_ledger require_price r existing) as Hl.
    rewrite bool_decide_eq_true_2; [done|]. set_solver. }
  destruct (require_price && is_none (Price d)) eqn:Ep.
  { intros Hsub. rewrite (IH _ _ Hsub). by destruct (bool_decide (Name d ∈ later)). }
  pose proof (accept_loop_ledger require_price r ({[Name d]} ∪ existing)) as Hl.
  destruct (accept_loop require_price r ({[Name d]} ∪ existing)) as [l ex] eqn:E.
  cbn [snd fst] in *. intros Hsub.
  rewrite bool_decide_eq_true_2 by set_solver.
  apply (IH ({[Name d]} ∪ existing)). by rewrite E.
Qed.

(** ** Traces *)

Lemma saved_app (t1 t2 : list event) : saved (t1 ++ t2) = (saved t1 ++ saved t2)%list.
Proof.
  induction t1 as [|ev t1 IH]; [done|].
  destruct ev; cbn [app saved]; rewrite IH; [done..|].
  by rewrite app_assoc.
Qed.

(** What [persist] does with the candidates of a page. *)
Lemma persist_spec (e : env) (c : config) (l : layout)
  (cands : list (option phone_data)) (require_price : bool) (st : state) :
  let page_phones := fst (accept_loop require_price cands (existing_phones st)) in
  let st' := state_of (persist e c l cands require_price st) in
  saved (trace st') = (saved (trace st) ++ List.map (fun d => (l, d)) page_phones)%list /\
  total_phones st' = total_phones st + Z.of_nat (length page_phones) /\
  existing_phones st' = snd (accept_loop require_price cands (existing_phones st)) /\
  (page_phones = [] -> store st' = store st).
Proof.
  cbn zeta. unfold persist.
  destruct (accept_loop require_price cands (existing_phones st)) as [pp ex].
  cbn [fst snd]. destruct pp as [|d pp].
  - cbn [nonempty]. unfold count_empty_page, set_empty_pages_count. cbn.
    destruct (max_empty_pages <=? empty_pages_count st + 1); cbn;
      rewrite ?saved_app, ?app_nil_r; repeat split; lia.
  - cbn [nonempty].
    destruct (backup_interval c =? 0).
    + unfold page_error. cbn.
      destruct (exists_file _ _); cbn; rewrite saved_app; cbn;
        rewrite ?app_nil_r; repeat split; done.
    + cbn. destruct (page st mod backup_interval c =? 0); cbn;
        rewrite !saved_app; cbn; rewrite ?app_nil_r; repeat split; done.
Qed.

(** Saving in the mode the crawl loop chooses puts the records at the end
    of the file. *)
Lemma save_appends (e : env) (data : list phone_data) (f : string) (d : disk) :
  exists before,
    files (save_data_to_csv e data f (exists_file f d) d) !! f
    = Some (before ++ List.map DataLine data)%list.
Proof.
  unfold save_data_to_csv, exists_file, to_csv.
  destruct (files d !! f) as [old|] eqn:E; cbn [andb negb files].
  - rewrite ?E. exists old. apply lookup_insert_eq.
  - rewrite ?E. exists [HeaderLine (frame_columns data)]. apply lookup_insert_eq.
Qed.

(** The records of an [EvSave] are on disk when the pass ends. *)
Lemma persist_writes (e : env) (c : config) (l : layout)
  (cands : list (option phone_data)) (require_price : bool) (st : state) :
  let page_phones := fst (accept_loop require_price cands (existing_phones st)) in
  let st' := state_of (persist e c l cands require_price st) in
  page_phones <> [] ->
  exists before,
    files (store st') !! csv_filename c
    = Some (before ++ List.map DataLine page_phones)%list.
Proof.
  cbn zeta. unfold persist.
  destruct (accept_loop require_price cands (existing_phones st)) as [pp ex].
  cbn [fst]. intros Hne. destruct pp as [|d pp]; [done|]. cbn [nonempty].
  destruct (save_appends e (d :: pp) (csv_filename c) (store st)) as [before Hb].
  exists before.
  destruct (backup_interval c =? 0).
  - unfold page_error. cbn. rewrite (exists_file_true _ _ _ Hb). cbn.
    by apply create_backup_keeps.
  - cbn. destruct (page st mod backup_interval c =? 0); cbn; [|done].
    by apply create_backup_keeps.
Qed.

Lemma process_page_spec (e : env) (c : config) (soup : node) (st : state) :
  let '(l, cands, require_price) := page_candidates soup (page st) in
  let page_phones := fst (accept_loop require_price cands (existing_phones st)) in
  let st' := state_of (process_page e c soup st) in
  saved (trace st') = (saved (trace st) ++ List.map (fun d => (l, d)) page_phones)%list /\
  total_phones st' = total_phones st + Z.of_nat (length page_phones) /\
  existing_phones st' = snd (accept_loop require_price cands (existing_phones st)) /\
  (page_phones = [] -> store st' = store st).
Proof.
  unfold page_candidates, process_page. cbn zeta.
  destruct (detect_layout soup (page st)) eqn:El.
  - destruct (nonempty (select_products Old soup)) eqn:Ep.
    + cbn [candidates fst].
      apply (persist_spec e c Old _ true (set_empty_pages_count 0 st)).
    + destruct (select_products Old soup); [|done]. cbn.
      destruct (max_empty_pages <=? _); cbn; rewrite app_nil_r;
        repeat split; lia.
  - destruct (nonempty (select_products New soup)) eqn:Ep.
    + cbn [candidates fst].
      apply (persist_spec e c New _ true (set_empty_pages_count 0 st)).
    + destruct (select_products New soup); [|done]. cbn.
      destruct (max_empty_pages <=? _); cbn; rewrite app_nil_r;
        repeat split; lia.
  - cbn [candidates fst]. apply (persist_spec e c Newest _ false st).
Qed.

(** The retry loop touches only the page number and the trace, and hands
    nothing to the store. *)
Lemma fetch_loop_frame (e : env) (c : config) (p : Z) (fuel : nat) :
  forall (k : Z) (st : state),
    let st' := snd (fetch_loop e c p fuel k st) in
    saved (trace st') = saved (trace st) /\
    total_phones st' = total_phones st /\
    empty_pages_count st' = empty_pages_count st /\
    existing_phones st' = existing_phones st /\
    store st' = store st.
Proof.
  induction fuel as [|fuel IH]; intros k st; cbn [fetch_loop].
  - by destruct (k <? max_retries c).
  - destruct (k <? max_retries c); [|done].
    destruct (http_get e p (k + 1)).
    + cbn. rewrite saved_app, app_nil_r. done.
    + destruct (k + 1 <? max_retries c).
      * destruct (IH (k + 1) (log (EvSleep (retry_delay c * (k + 1)))
                                (log (EvGet p (k + 1)) st)))
          as (H1 & H2 & H3 & H4 & H5).
        cbn zeta. rewrite H1, H2, H3, H4, H5. cbn.
        rewrite !saved_app, !app_nil_r. done.
      * destruct (IH (k + 1) (set_page (page (log (EvGet p (k + 1)) st) + 1)
                                (log (EvGet p (k + 1)) st)))
          as (H1 & H2 & H3 & H4 & H5).
        cbn zeta. rewrite H1, H2, H3, H4, H5. cbn.
        rewrite !saved_app, !app_nil_r. done.
Qed.

Lemma page_candidates_price (soup : node) (page_number : Z) :
  let '(l, _, require_price) := page_candidates soup page_number in
  (l = Newest /\ require_price = false) \/ (l <> Newest /\ require_price = true).
Proof.
  unfold page_candidates. cbn zeta.
  destruct (detect_layout soup page_number); [right|right|left]; done.
Qed.

Lemma process_page_well_formed (e : env) (c : config) (soup : node) (st : state) :
  Forall well_formed (saved (trace st)) ->
  Forall well_formed (saved (trace (state_of (process_page e c soup st)))).
Proof.
  intros Hst. pose proof (process_page_spec e c soup st) as Hspec.
  pose proof (page_candidates_price soup (page st)) as Hprice.
  destruct (page_candidates soup (page st)) as [[l cands] rp].
  cbn zeta in Hspec. destruct Hspec as (-> & _).
  apply Forall_app. split; [done|].
  pose proof (accept_loop_sound rp cands (existing_phones st)) as Hsound.
  apply Forall_fmap. eapply Forall_impl; [exact Hsound|].
  intros d [Hname Hp]. unfold well_formed. cbn.
  destruct Hprice as [[-> ->]|[Hl ->]].
  - split; [done|]. split; done.
  - split; [done|]. split; [auto|].
    intros Hnone. by destruct (Hp eq_refl).
Qed.

Lemma crawl_step_well_formed (e : env) (c : config) (st : state) :
  Forall well_formed (saved (trace st)) ->
  Forall well_formed (saved (trace (state_of (crawl_step e c st)))).
Proof.
  intros Hst. unfold crawl_step.
  pose proof (fetch_loop_frame e c (page st) (Z.to_nat (max_retries c)) 0 st)
    as (Hsaved & _).
  destruct (fetch_loop e c (page st) (Z.to_nat (max_retries c)) 0 st)
    as [[soup|] st'] eqn:E; cbn [snd] in Hsaved.
  - apply process_page_well_formed. by rewrite Hsaved.
  - cbn. by rewrite Hsaved.
Qed.

Lemma scrape_loop_well_formed (e : env) (c : config) (fuel : nat) :
  forall st,
    Forall well_formed (saved (trace st)) ->
    Forall well_formed (saved (trace (fst (scrape_loop e c fuel st)))).
Proof.
  induction fuel as [|fuel IH]; intros st Hst; cbn [scrape_loop].
  - by destruct (in_range c st).
  - destruct (in_range c st); [|done].
    pose proof (crawl_step_well_formed e c st Hst) as Hstep.
    destruct (crawl_step e c st) as [st'|st']; cbn in Hstep; [|done].
    by apply IH.
Qed.

(** C1.  In every run of the crawl loop, however long, each record handed
    to [save_data_to_csv] has a non-empty name; a record of a page handled
    by the old or new extractor has a price; and a record without a price
    comes from a page of the newest layout. *)
Theorem persisted_records_well_formed (e : env) (c : config) (start_page : Z)
  (fuel : nat) (d : disk) :
  Forall well_formed
    (saved (trace (fst (scrape_pricebook e c start_page fuel d)))).
Proof.
  unfold scrape_pricebook. apply scrape_loop_well_formed. constructor.
Qed.

(** Once the ledger holds the names the first pass over a page had in
    its ledger and the names of all it saved, a second pass over the
    same page accepts no record: nothing is saved, the total and the
    store stay as they are.  On any pass, the records saved are the
    accepted ones; none of them has a name the ledger held, no name occurs
    twice among them, and they are exactly what the total grows by. *)
Theorem dedup_idempotent (e : env) (c : config) (soup : node) (st1 st2 : state)
  (Hpage : page st2 = page st1)
  (Hledger : existing_phones st1 ⊆ existing_phones st2)
  (Hseed : forall d,
     d ∈ saved_records (trace (state_of (process_page e c soup st1))) ->
     Name d ∈ existing_phones st2) :
  (page_phones_of soup (page st2) (existing_phones st2) = [] /\
   saved (trace (state_of (process_page e c soup st2))) = saved (trace st2) /\
   total_phones (state_of (process_page e c soup st2)) = total_phones st2 /\
   store (state_of (process_page e c soup st2)) = store st2) /\
  (forall st,
     let accepted := page_phones_of soup (page st) (existing_phones st) in
     let st' := state_of (process_page e c soup st) in
     saved_records (trace st') = (saved_records (trace st) ++ accepted)%list /\
     total_phones st' = total_phones st + Z.of_nat (length accepted) /\
     (forall d, d ∈ accepted -> Name d ∉ existing_phones st) /\
     NoDup (List.map Name accepted)).
Proof.
  split.
  - pose proof (process_page_spec e c soup st1) as H1.
    pose proof (process_page_spec e c soup st2) as H2.
    unfold page_phones_of. rewrite Hpage in *.
    destruct (page_candidates soup (page st1)) as [[l cands] rp].
    cbn zeta in H1, H2. destruct H1 as (Hs1 & _ & Hex1 & _).
    assert (Hsub : snd (accept_loop rp cands (existing_phones st1))
                   ⊆ existing_phones st2).
    { rewrite accept_loop_ledger. apply union_least; [|done].
      intros n Hn. unfold names in Hn. apply elem_of_list_to_set in Hn.
      apply list_elem_of_fmap in Hn as (d & -> & Hd). apply Hseed.
      unfold saved_records. rewrite Hs1, map_app.
      apply elem_of_app. right.
      rewrite map_map. cbn. rewrite map_id. done. }
    rewrite (accept_loop_idempotent _ _ _ _ Hsub) in *. cbn [fst snd] in H2.
    destruct H2 as (Hs2 & Ht2 & _ & Hst2). cbn in Hs2, Ht2.
    rewrite app_nil_r in Hs2. repeat split; [done|lia|by apply Hst2].
  - intros st. cbn zeta. pose proof (process_page_spec e c soup st) as H.
    unfold page_phones_of.
    destruct (page_candidates soup (page st)) as [[l cands] rp].
    cbn zeta in H. destruct H as (Hs & Ht & _ & _).
    destruct (accept_loop_fresh rp cands (existing_phones st)) as [Hfresh Hnd].
    split; [|split; [done|split; done]].
    unfold saved_records. rewrite Hs, map_app, map_map. cbn. by rewrite map_id.
Qed.

Lemma dedup_idempotent_witness :
  let e := Sample.site_env (Sample.serve (Sample.old_page [Sample.galaxy])) in
  let o1 := process_page e Sample.cfg (Sample.old_page [Sample.galaxy])
              (Sample.state_at 7 0 ∅) in
  let st2 := Sample.state_at 7 0
               (get_existing_phones e (csv_filename Sample.cfg)
                  (store (state_of o1))) in
  List.map Name (saved_records (trace (state_of o1))) = ["Galaxy A55"] /\
  page_phones_of (Sample.old_page [Sample.galaxy]) (page st2)
    (existing_phones st2) = [].
Proof.
  cbn zeta. split; [by vm_compute|].
  set (e := Sample.site_env (Sample.serve (Sample.old_page [Sample.galaxy]))).
  set (soup := Sample.old_page [Sample.galaxy]).
  set (st1 := Sample.state_at 7 0 ∅).
  set (st2 := Sample.state_at 7 0
                (get_existing_phones e (csv_filename Sample.cfg)
                   (store (state_of (process_page e Sample.cfg soup st1))))).
  refine (proj1 (proj1 (dedup_idempotent e Sample.cfg soup st1 st2 _ _ _))).
  - reflexivity.
  - apply empty_subseteq.
  - intros d Hd.
    assert (Hname : Name d = "Galaxy A55").
    { revert Hd. vm_compute. intros Hd.
      apply elem_of_cons in Hd as [->|Hd]; [done|]. by apply elem_of_nil in Hd. }
    rewrite Hname. apply (bool_decide_unpack _). by vm_compute.
Defined.

(** ** The empty-page streak *)

(** The streak after a page, as the code keeps it. *)
Lemma persist_streak (e : env) (c : config) (l : layout)
  (cands : list (option phone_data)) (require_price : bool) (st : state) :
  let page_phones := fst (accept_loop require_price cands (existing_phones st)) in
  let o := persist e c l cands require_price st in
  empty_pages_count (state_of o) =
    (if nonempty page_phones then empty_pages_count st
     else empty_pages_count st + 1) /\
  is_break o =
    negb (nonempty page_phones) && (max_empty_pages <=? empty_pages_count st + 1).
Proof.
  cbn zeta. unfold persist.
  destruct (accept_loop require_price cands (existing_phones st)) as [pp ex].
  cbn [fst]. destruct pp as [|d pp]; cbn [nonempty negb andb].
  - unfold count_empty_page. cbn.
    by destruct (max_empty_pages <=? empty_pages_count st + 1).
  - destruct (backup_interval c =? 0).
    + unfold page_error. cbn. by destruct (exists_file _ _).
    + cbn. by destruct (page st mod backup_interval c =? 0).
Qed.

Lemma streak_after_page (e : env) (c : config) (soup : node) (st : state) :
  let l := detect_layout soup (page st) in
  let accepted := page_phones_of soup (page st) (existing_phones st) in
  let o := process_page e c soup st in
  empty_pages_count (state_of o) =
    match l with
    | Newest =>
        if nonempty accepted then empty_pages_count st
        else empty_pages_count st + 1
    | _ =>
        if nonempty (select_products l soup)
        then (if nonempty accepted then 0 else 1)
        else empty_pages_count st + 1
    end.
Proof.
  cbn zeta. unfold page_phones_of, page_candidates, process_page. cbn zeta.
  destruct (detect_layout soup (page st)) eqn:El.
  - destruct (nonempty (select_products Old soup)) eqn:Ep.
    + cbn [candidates fst].
      destruct (persist_streak e c Old
                  (List.map extract_product_data_old_layout (select_products Old soup))
                  true (set_empty_pages_count 0 st)) as [-> _].
      cbn. by destruct (nonempty _).
    + cbn. by destruct (max_empty_pages <=? _).
  - destruct (nonempty (select_products New soup)) eqn:Ep.
    + cbn [candidates fst].
      destruct (persist_streak e c New
                  (List.map extract_product_data_new_layout (select_products New soup))
                  true (set_empty_pages_count 0 st)) as [-> _].
      cbn. by destruct (nonempty _).
    + cbn. by destruct (max_empty_pages <=? _).
  - cbn [candidates fst].
    by destruct (persist_streak e c Newest
                   (newest_candidates (Soup.descendants soup)) false st) as [-> _].
Qed.

(** Starting below [max_empty_pages], the loop goes on only with a streak
    below it and is left with the streak equal to it. *)
Lemma streak_stops_at_three (e : env) (c : config) (soup : node) (st : state) :
  0 <= empty_pages_count st < max_empty_pages ->
  let o := process_page e c soup st in
  if is_break o then empty_pages_count (state_of o) = max_empty_pages
  else 0 <= empty_pages_count (state_of o) < max_empty_pages.
Proof.
  intros Hst. cbn zeta. unfold max_empty_pages in *.
  assert (Hp : forall l cands rp st0,
            0 <= empty_pages_count st0 < 3 ->
            if is_break (persist e c l cands rp st0)
            then empty_pages_count (state_of (persist e c l cands rp st0)) = 3
            else 0 <= empty_pages_count (state_of (persist e c l cands rp st0)) < 3).
  { intros l cands rp st0 H0.
    destruct (persist_streak e c l cands rp st0) as [-> ->].
    unfold max_empty_pages.
    destruct (nonempty _); cbn [negb andb]; [lia|].
    destruct (3 <=? empty_pages_count st0 + 1) eqn:E;
      [apply Z.leb_le in E | apply Z.leb_gt in E]; lia. }
  unfold process_page. cbn zeta.
  destruct (detect_layout soup (page st)).
  - destruct (nonempty (select_products Old soup)).
    + cbn [candidates]. apply Hp. cbn. lia.
    + cbn. unfold max_empty_pages.
      destruct (3 <=? empty_pages_count st + 1) eqn:E;
        [apply Z.leb_le in E | apply Z.leb_gt in E]; cbn; lia.
  - destruct (nonempty (select_products New soup)).
    + cbn [candidates]. apply Hp. cbn. lia.
    + cbn. unfold max_empty_pages.
      destruct (3 <=? empty_pages_count st + 1) eqn:E;
        [apply Z.leb_le in E | apply Z.leb_gt in E]; cbn; lia.
  - cbn [candidates]. by apply Hp.
Qed.

(** A page of the old layout: the priced product is saved, the one
    without a price is dropped. *)
Example unpriced_is_dropped :
  List.map Name
    (page_phones_of (Sample.old_page [Sample.unpriced; Sample.galaxy]) 7 ∅)
  = ["Galaxy A55"].
Proof. by vm_compute. Qed.

(** ** Where the code leaves the specification *)

(** C2.  The streak is not reset by a page of the newest layout that adds
    records, and a page of the old layout whose only product is already
    stored sets the streak to one instead of adding to it.  With a streak
    of two, six new records of a newest page leave it at two; the stored
    product of an old page brings it down to one and the crawl goes on.
    On the alternating site, whose pages 1, 3 and 5 add nothing while
    pages 2 and 4 add six records each, the crawl stops at page 5 with a
    streak of three. *)
Theorem streak_bookkeeping_diverges :
  (let o := crawl_step
              (Sample.site_env (Sample.serve (Sample.newest_page (Sample.models "Oppo"))))
              Sample.cfg (Sample.state_at 7 2 ∅) in
   (exists st', o = Continue st') /\
   total_phones (state_of o) = 6 /\
   empty_pages_count (state_of o) = 2 /\
   page (state_of o) = 8) /\
  (let o := crawl_step
              (Sample.site_env (Sample.serve (Sample.old_page [Sample.galaxy])))
              Sample.cfg (Sample.state_at 7 2 {["Galaxy A55"]}) in
   (exists st', o = Continue st') /\
   total_phones (state_of o) = 0 /\
   empty_pages_count (state_of o) = 1 /\
   page (state_of o) = 8) /\
  (let r := scrape_loop (Sample.site_env Sample.alternating) Sample.cfg 5
              (Sample.state_at 1 0 (list_to_set (Sample.models "Vivo"))) in
   snd r = true /\
   page (fst r) = 5 /\
   total_phones (fst r) = 12 /\
   empty_pages_count (fst r) = 3).
Proof.
  split; [|split].
  - cbn zeta. split; [|by vm_compute]. eexists. by vm_compute.
  - cbn zeta. split; [|by vm_compute]. eexists. by vm_compute.
  - by vm_compute.
Qed.

(** C7.  The old extractor tries only the first seller link that shows
    the marker: on [two_sellers] the second link, whose text cleans to
    2000000, is never tried, no other method finds an amount, and the
    record has no price, while the first present result over all
    candidates in priority order is 2000000.  A zero amount does not end
    the scan of the text nodes: on [zero_first] the new extractor returns
    5999000 although the first present result is 0. *)
Theorem price_chain_diverges :
  (option_map Price (extract_product_data_old_layout Sample.two_sellers)
     = Some None /\
   price_by_priority (price_candidates_old Sample.two_sellers) = Some 2000000) /\
  (option_map Price (extract_product_data_new_layout Sample.zero_first)
     = Some (Some 5999000) /\
   price_by_priority (price_candidates_new Sample.zero_first) = Some 0).
Proof. by vm_compute. Qed.

(** ** Whole runs *)

Lemma extend_csv_app (content : option (list csv_line)) (a b : list phone_data) :
  extend_csv (extend_csv content a) b = extend_csv content (a ++ b).
Proof.
  destruct a as [|x a]; [done|]. destruct b as [|y b].
  - by rewrite app_nil_r.
  - cbn [extend_csv app List.map]. f_equal.
    rewrite <- app_assoc. f_equal. cbn [app]. f_equal.
    by rewrite map_app.
Qed.

(** A backup, made or not, leaves the file it copies as it is. *)
Lemma create_backup_same (e : env) (p : string) (d : disk) :
  files (snd (create_backup e p d)) !! p = files d !! p.
Proof.
  destruct (files d !! p) as [content|] eqn:E.
  - by rewrite (create_backup_keeps _ _ _ _ E).
  - unfold create_backup. by rewrite E.
Qed.

Lemma save_extends (e : env) (data : list phone_data) (f : string) (d : disk) :
  data <> [] ->
  files (save_data_to_csv e data f (exists_file f d) d) !! f
  = extend_csv (files d !! f) data.
Proof.
  intros Hne. unfold save_data_to_csv, exists_file, to_csv.
  destruct data as [|x data]; [done|].
  destruct (files d !! f) as [old|] eqn:E; cbn [andb negb files extend_csv].
  - rewrite ?E. apply lookup_insert_eq.
  - rewrite ?E. apply lookup_insert_eq.
Qed.

Lemma page_error_file (e : env) (c : config) (st : state) :
  files (store (page_error e c st)) !! csv_filename c
  = files (store st) !! csv_filename c.
Proof.
  unfold page_error. destruct (exists_file (csv_filename c) (store st)); cbn; [|done].
  apply create_backup_same.
Qed.

Lemma persist_store (e : env) (c : config) (l : layout)
  (cands : list (option phone_data)) (require_price : bool) (st : state) :
  files (store (state_of (persist e c l cands require_price st))) !! csv_filename c
  = extend_csv (files (store st) !! csv_filename c)
      (fst (accept_loop require_price cands (existing_phones st))).
Proof.
  unfold persist.
  destruct (accept_loop require_price cands (existing_phones st)) as [pp ex].
  cbn [fst]. destruct pp as [|d pp].
  - cbn [nonempty]. unfold count_empty_page. cbn.
    by destruct (max_empty_pages <=? empty_pages_count st + 1).
  - cbn [nonempty].
    pose proof (save_extends e (d :: pp) (csv_filename c) (store st)
                  ltac:(done)) as Hs.
    destruct (backup_interval c =? 0).
    + cbn [state_of]. rewrite page_error_file. exact Hs.
    + cbn [state_of]. unfold next_page.
      destruct (_ mod backup_interval c =? 0); cbn;
        rewrite ?create_backup_same; exact Hs.
Qed.

Lemma persist_effect (e : env) (c : config) (l : layout)
  (cands : list (option phone_data)) (require_price : bool) (st : state) :
  page_effect c st (state_of (persist e c l cands require_price st))
    (fst (accept_loop require_price cands (existing_phones st))).
Proof.
  destruct (persist_spec e c l cands require_price st) as (Hs & Ht & Hex & _).
  destruct (accept_loop_fresh require_price cands (existing_phones st))
    as [Hfresh Hnd].
  unfold page_effect. split; [|split; [done|split; [|split; [done|split; [done|]]]]].
  - unfold saved_records. rewrite Hs, map_app, map_map. cbn. by rewrite map_id.
  - rewrite Hex. apply accept_loop_ledger.
  - apply persist_store.
Qed.

Lemma page_effect_nil (c : config) (st st' : state) :
  saved_records (trace st') = saved_records (trace st) ->
  total_phones st' = total_phones st ->
  existing_phones st' = existing_phones st ->
  store st' = store st ->
  page_effect c st st' [].
Proof.
  intros Hs Ht He Hd. unfold page_effect. rewrite Hs, Ht, He, Hd, app_nil_r.
  cbn. repeat split; [lia|set_solver|by intros d Hd'%elem_of_nil|constructor].
Qed.

Lemma process_page_effect (e : env) (c : config) (soup : node) (st : state) :
  page_effect c st (state_of (process_page e c soup st))
    (page_phones_of soup (page st) (existing_phones st)).
Proof.
  unfold page_phones_of, page_candidates, process_page. cbn zeta.
  destruct (detect_layout soup (page st)).
  - destruct (nonempty (select_products Old soup)) eqn:Ep.
    + cbn [candidates fst].
      apply (persist_effect e c Old _ true (set_empty_pages_count 0 st)).
    + destruct (select_products Old soup); [|done]. cbn [candidates List.map fst accept_loop].
      unfold count_empty_page. cbn.
      by destruct (max_empty_pages <=? _); apply page_effect_nil.
  - destruct (nonempty (select_products New soup)) eqn:Ep.
    + cbn [candidates fst].
      apply (persist_effect e c New _ true (set_empty_pages_count 0 st)).
    + destruct (select_products New soup); [|done]. cbn [candidates List.map fst accept_loop].
      unfold count_empty_page. cbn.
      by destruct (max_empty_pages <=? _); apply page_effect_nil.
  - cbn [candidates fst]. apply (persist_effect e c Newest _ false st).
Qed.

Lemma saved_records_app (t1 t2 : list event) :
  saved_records (t1 ++ t2) = (saved_records t1 ++ saved_records t2)%list.
Proof. unfold saved_records. by rewrite saved_app, map_app. Qed.

Lemma fetch_loop_effect (e : env) (c : config) (p : Z) (fuel : nat) (k : Z)
  (st : state) :
  page_effect c st (snd (fetch_loop e c p fuel k st)) [].
Proof.
  destruct (fetch_loop_frame e c p fuel k st) as (H1 & H2 & _ & H4 & H5).
  apply page_effect_nil; try done. unfold saved_records. by rewrite H1.
Qed.

Lemma page_effect_trans (c : config) (st1 st2 st3 : state)
  (a b : list phone_data) :
  page_effect c st1 st2 a -> page_effect c st2 st3 b ->
  page_effect c st1 st3 (a ++ b).
Proof.
  unfold page_effect.
  intros (Hs1 & Ht1 & He1 & Hf1 & Hn1 & Hd1) (Hs2 & Ht2 & He2 & Hf2 & Hn2 & Hd2).
  split; [by rewrite Hs2, Hs1, app_assoc|].
  split; [rewrite Ht2, Ht1, length_app; lia|].
  split; [rewrite He2, He1; unfold names; rewrite map_app, list_to_set_app_L; set_solver|].
  split; [|split].
  - intros d [Hd|Hd]%elem_of_app; [by apply Hf1|].
    specialize (Hf2 d Hd). rewrite He1 in Hf2. set_solver.
  - rewrite map_app. apply NoDup_app. split; [done|]. split; [|done].
    intros n Hn Hn'. apply list_elem_of_fmap in Hn' as (d & -> & Hd).
    specialize (Hf2 d Hd). rewrite He1 in Hf2. apply Hf2.
    apply elem_of_union_l. unfold names. by apply elem_of_list_to_set.
  - by rewrite Hd2, Hd1, extend_csv_app.
Qed.

Lemma crawl_step_effect (e : env) (c : config) (st : state) :
  exists accepted,
    page_effect c st (state_of (crawl_step e c st)) accepted.
Proof.
  unfold crawl_step.
  pose proof (fetch_loop_effect e c (page st) (Z.to_nat (max_retries c)) 0 st) as Hf.
  destruct (fetch_loop e c (page st) (Z.to_nat (max_retries c)) 0 st)
    as [[soup|] st'] eqn:E; cbn [snd] in Hf.
  - eexists. eapply (page_effect_trans _ _ _ _ [] _ Hf).
    apply process_page_effect.
  - by exists [].
Qed.

Lemma scrape_loop_effect (e : env) (c : config) (fuel : nat) :
  forall st, exists accepted,
    page_effect c st (fst (scrape_loop e c fuel st)) accepted.
Proof.
  induction fuel as [|fuel IH]; intros st; cbn [scrape_loop].
  - exists []. destruct (in_range c st); by apply page_effect_nil.
  - destruct (in_range c st); [|exists []; by apply page_effect_nil].
    destruct (crawl_step_effect e c st) as [a Ha].
    destruct (crawl_step e c st) as [st'|st']; cbn [state_of] in Ha.
    + destruct (IH st') as [b Hb]. exists (a ++ b)%list.
      by eapply page_effect_trans.
    + by exists a.
Qed.

Lemma run_effect (e : env) (c : config) (start_page : Z) (fuel : nat) (d : disk) :
  let st0 := initial_state e c start_page d in
  let st := fst (scrape_pricebook e c start_page fuel d) in
  page_effect c st0 st (saved_records (trace st)).
Proof.
  cbn zeta. unfold scrape_pricebook.
  destruct (scrape_loop_effect e c fuel (initial_state e c start_page d))
    as [a Ha].
  pose proof Ha as (Hs & _). cbn in Hs. by rewrite Hs.
Qed.

Lemma initial_state_file (e : env) (c : config) (start_page : Z) (d : disk) :
  files (store (initial_state e c start_page d)) !! csv_filename c
  = files d !! csv_filename c.
Proof.
  unfold initial_state. cbn [store].
  destruct (exists_file (csv_filename c) d); [|done]. apply create_backup_same.
Qed.

(** X1.  A run never rewrites what the CSV file held: when it ends, or is
    cut off after any number of passes, the file holds its old content
    followed by one line per saved record, in the order of saving; a file
    that did not exist starts with the header line; without a saved record
    the file is as it was. *)
Theorem run_appends_to_store (e : env) (c : config) (start_page : Z)
  (fuel : nat) (d : disk) :
  let st := fst (scrape_pricebook e c start_page fuel d) in
  files (store st) !! csv_filename c
  = extend_csv (files d !! csv_filename c) (saved_records (trace st)).
Proof.
  cbn zeta. destruct (run_effect e c start_page fuel d) as (_ & _ & _ & _ & _ & H).
  by rewrite H, initial_state_file.
Qed.

(** X2.  No name is saved twice in a run, across all its pages, and no
    saved record bears a name that the ledger read from the stored file
    held; at the end the ledger is its initial content together with the
    names saved. *)
Theorem run_saves_each_name_once (e : env) (c : config) (start_page : Z)
  (fuel : nat) (d : disk) :
  let st0 := initial_state e c start_page d in
  let st := fst (scrape_pricebook e c start_page fuel d) in
  NoDup (List.map Name (saved_records (trace st))) /\
  (forall r, r ∈ saved_records (trace st) -> Name r ∉ existing_phones st0) /\
  existing_phones st = names (saved_records (trace st)) ∪ existing_phones st0.
Proof.
  cbn zeta. destruct (run_effect e c start_page fuel d) as (_ & _ & H3 & H4 & H5 & _).
  done.
Qed.

(** X3.  The count that [scrape_pricebook] returns is the number of
    records it handed to [save_data_to_csv]. *)
Theorem run_total_counts_saved (e : env) (c : config) (start_page : Z)
  (fuel : nat) (d : disk) :
  let st := fst (scrape_pricebook e c start_page fuel d) in
  total_phones st = Z.of_nat (length (saved_records (trace st))).
Proof.
  cbn zeta. destruct (run_effect e c start_page fuel d) as (_ & H2 & _).
  rewrite H2. cbn. lia.
Qed.

(** ** Progress of the crawl *)

Lemma requested_app (t1 t2 : list event) :
  requested (t1 ++ t2) = (requested t1 ++ requested t2)%list.
Proof.
  induction t1 as [|ev t1 IH]; [done|].
  destruct ev; cbn [app requested]; by rewrite IH.
Qed.

(** The retry loop asks for its own page only; it leaves the page number
    alone when it succeeds and moves it on by one when it gives up. *)
Lemma fetch_loop_page (e : env) (c : config) (p : Z) (fuel : nat) :
  forall (k : Z) (st : state),
    Z.of_nat fuel = Z.max 0 (max_retries c - k) ->
    let r := fetch_loop e c p fuel k st in
    page (snd r) =
      match fst r with
      | Some _ => page st
      | None => if k <? max_retries c then page st + 1 else page st
      end /\
    exists l,
      requested (trace (snd r)) = (requested (trace st) ++ l)%list /\
      Forall (fun q => q = p) l.
Proof.
  induction fuel as [|fuel IH]; intros k st Hfuel; cbn [fetch_loop].
  - destruct (k <? max_retries c) eqn:E; [apply Z.ltb_lt in E; lia|].
    cbn. split; [done|]. exists []. by rewrite app_nil_r.
  - destruct (k <? max_retries c) eqn:E; [|apply Z.ltb_ge in E; lia].
    apply Z.ltb_lt in E.
    destruct (http_get e p (k + 1)) as [soup|].
    + cbn. split; [done|]. exists [p]. rewrite requested_app. cbn.
      split; [done|]. by repeat constructor.
    + destruct (k + 1 <? max_retries c) eqn:E'.
      * apply Z.ltb_lt in E'.
        destruct (IH (k + 1) (log (EvSleep (retry_delay c * (k + 1)))
                                (log (EvGet p (k + 1)) st)))
          as (Hp & l & Hl & Hall); [lia|].
        cbn zeta in *.
        destruct (k + 1 <? max_retries c) eqn:E''; [|apply Z.ltb_ge in E''; lia].
        split; [exact Hp|]. exists (p :: l). rewrite Hl. cbn.
        rewrite !requested_app. cbn. rewrite app_nil_r, <- app_assoc.
        split; [done|]. by constructor.
      * pose proof E' as Hge. apply Z.ltb_ge in Hge.
        destruct (IH (k + 1) (set_page (page (log (EvGet p (k + 1)) st) + 1)
                                (log (EvGet p (k + 1)) st)))
          as (Hp & l & Hl & Hall); [lia|].
        cbn zeta in *. rewrite E' in Hp.
        assert (Hnone : fst (fetch_loop e c p fuel (k + 1)
                   (set_page (page (log (EvGet p (k + 1)) st) + 1)
                      (log (EvGet p (k + 1)) st))) = None).
        { destruct fuel; cbn [fetch_loop]; by rewrite E'. }
        rewrite Hnone in *. split; [exact Hp|].
        exists (p :: l). rewrite Hl. cbn. rewrite requested_app. cbn.
        rewrite <- app_assoc. split; [done|]. by constructor.
Qed.

Lemma persist_page (e : env) (c : config) (l : layout)
  (cands : list (option phone_data)) (require_price : bool) (st : state) :
  let o := persist e c l cands require_price st in
  page (state_of o) = (if is_break o then page st else page st + 1) /\
  requested (trace (state_of o)) = requested (trace st).
Proof.
  cbn zeta. unfold persist.
  destruct (accept_loop require_price cands (existing_phones st)) as [pp ex].
  destruct pp as [|d pp]; cbn [nonempty].
  - unfold count_empty_page. cbn.
    destruct (max_empty_pages <=? empty_pages_count st + 1); cbn;
      rewrite ?requested_app, ?app_nil_r; done.
  - destruct (backup_interval c =? 0).
    + unfold page_error. cbn. destruct (exists_file _ _); cbn;
        rewrite requested_app, app_nil_r; done.
    + cbn. destruct (page st mod backup_interval c =? 0); cbn;
        rewrite !requested_app, !app_nil_r; done.
Qed.

Lemma process_page_page (e : env) (c : config) (soup : node) (st : state) :
  let o := process_page e c soup st in
  page (state_of o) = (if is_break o then page st else page st + 1) /\
  requested (trace (state_of o)) = requested (trace st).
Proof.
  cbn zeta. unfold process_page. cbn zeta.
  destruct (detect_layout soup (page st)).
  - destruct (nonempty (select_products Old soup)).
    + cbn [candidates].
      apply (persist_page e c Old _ true (set_empty_pages_count 0 st)).
    + unfold count_empty_page. cbn. by destruct (max_empty_pages <=? _).
  - destruct (nonempty (select_products New soup)).
    + cbn [candidates].
      apply (persist_page e c New _ true (set_empty_pages_count 0 st)).
    + unfold count_empty_page. cbn. by destruct (max_empty_pages <=? _).
  - cbn [candidates]. apply (persist_page e c Newest _ false st).
Qed.

(** With at least one attempt allowed, a pass that goes on moves to the
    next page, and the pass asks for its own page only. *)
Lemma crawl_step_page (e : env) (c : config) (st : state) :
  1 <= max_retries c ->
  let o := crawl_step e c st in
  page (state_of o) = (if is_break o then page st else page st + 1) /\
  exists l,
    requested (trace (state_of o)) = (requested (trace st) ++ l)%list /\
    Forall (fun q => q = page st) l.
Proof.
  intros Hm. cbn zeta. unfold crawl_step.
  destruct (fetch_loop_page e c (page st) (Z.to_nat (max_retries c)) 0 st)
    as (Hp & l & Hl & Hall); [lia|].
  cbn zeta in *.
  destruct (fetch_loop e c (page st) (Z.to_nat (max_retries c)) 0 st)
    as [[soup|] st'] eqn:E; cbn [fst snd] in *.
  - destruct (process_page_page e c soup st') as [Hp' Hr'].
    cbn zeta in *. rewrite Hp', Hp, Hr', Hl. split; [done|]. by exists l.
  - cbn. destruct (0 <? max_retries c) eqn:E0; [|apply Z.ltb_ge in E0; lia].
    split; [done|]. by exists l.
Qed.

Lemma scrape_loop_bounded (e : env) (c : config) (last : Z) (fuel : nat) :
  end_page c = Some last -> 1 <= max_retries c ->
  forall st,
    (Z.to_nat (last + 1 - page st) <= fuel)%nat ->
    let r := scrape_loop e c fuel st in
    snd r = true /\
    page st <= page (fst r) <= Z.max (page st) (last + 1) /\
    exists l,
      requested (trace (fst r)) = (requested (trace st) ++ l)%list /\
      Forall (fun q => page st <= q <= last) l.
Proof.
  intros Hend Hm. induction fuel as [|fuel IH]; intros st Hfuel; cbn zeta;
    cbn [scrape_loop]; unfold in_range; rewrite Hend.
  - destruct (page st <=? last) eqn:E; [apply Z.leb_le in E; lia|].
    cbn. split; [done|]. split; [lia|]. exists []. by rewrite app_nil_r.
  - destruct (page st <=? last) eqn:E.
    + apply Z.leb_le in E.
      destruct (crawl_step_page e c st Hm) as (Hp & l & Hl & Hall).
      cbn zeta in *.
      assert (Hall' : Forall (fun q => page st <= q <= last) l).
      { eapply Forall_impl; [exact Hall|]. intros q ->. cbn. lia. }
      destruct (crawl_step e c st) as [st'|st'] eqn:Es; cbn [state_of is_break] in *.
      * destruct (IH st') as (Hfin & Hpage & l' & Hl' & Hall''); [lia|].
        cbn zeta in *. split; [done|]. split; [lia|].
        exists (l ++ l')%list. rewrite Hl', Hl, app_assoc. split; [done|].
        apply Forall_app. split; [done|].
        eapply Forall_impl; [exact Hall''|]. intros q Hq. cbn in *. lia.
      * cbn. split; [done|]. split; [lia|]. by exists l.
    + cbn. split; [done|]. split; [lia|]. exists []. by rewrite app_nil_r.
Qed.

(** X4.  With an end page and at least one attempt per page, the crawl
    ends within [end_page - start_page + 1] passes; it stops no later than
    one page past the end page, and every page it asks for lies between
    the start page and the end page. *)
Theorem bounded_run_terminates (e : env) (c : config) (start_page last : Z)
  (fuel : nat) (d : disk)
  (Hend : end_page c = Some last)
  (Hretries : 1 <= max_retries c)
  (Hfuel : (Z.to_nat (last + 1 - start_page) <= fuel)%nat) :
  let r := scrape_pricebook e c start_page fuel d in
  snd r = true /\
  start_page <= page (fst r) <= Z.max start_page (last + 1) /\
  Forall (fun q => start_page <= q <= last) (requested (trace (fst r))).
Proof.
  cbn zeta. unfold scrape_pricebook.
  destruct (scrape_loop_bounded e c last fuel Hend Hretries
              (initial_state e c start_page d))
    as (Hfin & Hpage & l & Hl & Hall); [done|].
  cbn zeta in *. split; [done|]. split; [done|]. by rewrite Hl.
Qed.

Lemma bounded_run_terminates_witness :
  snd (scrape_pricebook (Sample.site_env Sample.alternating)
         {| csv_filename := "smartphone_data.csv"; backup_interval := 5;
            max_retries := 5; retry_delay := 30; end_page := Some 2 |}
         1 2 Sample.empty_disk) = true.
Proof.
  refine (proj1 (bounded_run_terminates (Sample.site_env Sample.alternating)
    {| csv_filename := "smartphone_data.csv"; backup_interval := 5;
       max_retries := 5; retry_delay := 30; end_page := Some 2 |}
    1 2 2 Sample.empty_disk _ _ _)).
  - reflexivity.
  - cbn. lia.
  - cbn. lia.
Defined.

(** X5.  With [max_retries] zero or negative no request is ever made: a
    pass leaves the state as it is, the page never moves on, and a crawl
    whose page is in range does not end, whatever the number of passes. *)
Theorem no_retries_no_progress (e : env) (c : config) (st : state) (fuel : nat)
  (Hretries : max_retries c <= 0)
  (Hrange : in_range c st = true) :
  crawl_step e c st = Continue st /\
  scrape_loop e c fuel st = (st, false).
Proof.
  assert (Hstep : crawl_step e c st = Continue st).
  { unfold crawl_step. replace (Z.to_nat (max_retries c)) with O by lia.
    cbn [fetch_loop]. destruct (0 <? max_retries c) eqn:E; [|done].
    apply Z.ltb_lt in E. lia. }
  split; [exact Hstep|].
  induction fuel as [|fuel IH]; cbn [scrape_loop]; rewrite Hrange; [done|].
  by rewrite Hstep.
Qed.

Lemma no_retries_no_progress_witness :
  scrape_loop (Sample.site_env Sample.alternating)
    {| csv_filename := "smartphone_data.csv"; backup_interval := 5;
       max_retries := 0; retry_delay := 30; end_page := None |}
    9 (Sample.state_at 1 0 ∅)
  = (Sample.state_at 1 0 ∅, false).
Proof.
  refine (proj2 (no_retries_no_progress (Sample.site_env Sample.alternating)
    {| csv_filename := "smartphone_data.csv"; backup_interval := 5;
       max_retries := 0; retry_delay := 30; end_page := None |}
    (Sample.state_at 1 0 ∅) 9 _ _)).
  - cbn. lia.
  - reflexivity.
Defined.

(** ** Why a crawl ends *)

Lemma crawl_step_streak (e : env) (c : config) (st : state) :
  0 <= empty_pages_count st < max_empty_pages ->
  let o := crawl_step e c st in
  if is_break o then empty_pages_count (state_of o) = max_empty_pages
  else 0 <= empty_pages_count (state_of o) < max_empty_pages.
Proof.
  intros Hst. cbn zeta. unfold crawl_step.
  destruct (fetch_loop_frame e c (page st) (Z.to_nat (max_retries c)) 0 st)
    as (_ & _ & He & _).
  destruct (fetch_loop e c (page st) (Z.to_nat (max_retries c)) 0 st)
    as [[soup|] st'] eqn:E; cbn [snd] in He.
  - apply streak_stops_at_three. by rewrite He.
  - cbn. by rewrite He.
Qed.

Lemma scrape_loop_stops (e : env) (c : config) (fuel : nat) :
  forall st,
    0 <= empty_pages_count st < max_empty_pages ->
    let r := scrape_loop e c fuel st in
    0 <= empty_pages_count (fst r) <= max_empty_pages /\
    (snd r = true ->
     in_range c (fst r) = false \/ empty_pages_count (fst r) = max_empty_pages) /\
    (empty_pages_count (fst r) = max_empty_pages -> snd r = true).
Proof.
  induction fuel as [|fuel IH]; intros st Hst; cbn zeta; cbn [scrape_loop].
  - destruct (in_range c st) eqn:E; cbn; (split; [lia|]);
      (split; [intros; auto; done | intros; lia || done]).
  - destruct (in_range c st) eqn:E.
    + pose proof (crawl_step_streak e c st Hst) as Hs. cbn zeta in Hs.
      destruct (crawl_step e c st) as [st'|st']; cbn [is_break state_of] in Hs.
      * by apply IH.
      * cbn. split; [lia|]. split; [by right|done].
    + cbn. split; [lia|]. split; [by left|lia].
Qed.

(** X6.  The streak of empty pages stays between 0 and 3 throughout a
    run.  A crawl that ended did so for one of two reasons: the page went
    past the end page, or the streak reached 3; and the streak is 3 only
    in a crawl that ended. *)
Theorem run_ends_for_a_reason (e : env) (c : config) (start_page : Z)
  (fuel : nat) (d : disk) :
  let r := scrape_pricebook e c start_page fuel d in
  0 <= empty_pages_count (fst r) <= max_empty_pages /\
  (snd r = true ->
   in_range c (fst r) = false \/ empty_pages_count (fst r) = max_empty_pages) /\
  (empty_pages_count (fst r) = max_empty_pages -> snd r = true).
Proof.
  cbn zeta. unfold scrape_pricebook. apply scrape_loop_stops.
  cbn. unfold max_empty_pages. lia.
Qed.

Lemma run_ends_for_a_reason_witness :
  in_range
    {| csv_filename := "smartphone_data.csv"; backup_interval := 5;
       max_retries := 5; retry_delay := 30; end_page := Some 7 |}
    (fst (scrape_pricebook
            (Sample.site_env (Sample.serve (Sample.old_page [Sample.galaxy])))
            {| csv_filename := "smartphone_data.csv"; backup_interval := 5;
               max_retries := 5; retry_delay := 30; end_page := Some 7 |}
            7 1 Sample.empty_disk)) = false \/
  empty_pages_count
    (fst (scrape_pricebook
            (Sample.site_env (Sample.serve (Sample.old_page [Sample.galaxy])))
            {| csv_filename := "smartphone_data.csv"; backup_interval := 5;
               max_retries := 5; retry_delay := 30; end_page := Some 7 |}
            7 1 Sample.empty_disk)) = max_empty_pages.
Proof.
  exact (proj1 (proj2 (run_ends_for_a_reason
    (Sample.site_env (Sample.serve (Sample.old_page [Sample.galaxy])))
    {| csv_filename := "smartphone_data.csv"; backup_interval := 5;
       max_retries := 5; retry_delay := 30; end_page := Some 7 |}
    7 1 Sample.empty_disk)) eq_refl).
Defined.

Lemma in_range_unbounded (c : config) (st : state) :
  end_page c = None -> in_range c st = true.
Proof. unfold in_range. by intros ->. Qed.

Lemma scrape_loop_site_down (e : env) (c : config) (fuel : nat) :
  end_page c = None -> 1 <= max_retries c ->
  (forall p k, http_get e p k = None) ->
  forall st,
    let r := scrape_loop e c fuel st in
    snd r = false /\
    page (fst r) = page st + Z.of_nat fuel /\
    count_gets (trace (fst r))
      = (count_gets (trace st) + fuel * Z.to_nat (max_retries c))%nat /\
    total_phones (fst r) = total_phones st /\
    empty_pages_count (fst r) = empty_pages_count st /\
    saved_records (trace (fst r)) = saved_records (trace st) /\
    store (fst r) = store st.
Proof.
  intros Hend Hm Hdown. induction fuel as [|fuel IH]; intros st; cbn zeta;
    cbn [scrape_loop]; rewrite (in_range_unbounded _ _ Hend).
  - cbn. repeat split; lia.
  - unfold crawl_step.
    rewrite fetch_loop_all_fail; [|lia|lia|intros; apply Hdown].
    destruct (IH {| page := page st + 1; total_phones := total_phones st;
                    empty_pages_count := empty_pages_count st;
                    existing_phones := existing_phones st; store := store st;
                    trace := (trace st ++ failed_attempts (page st) (retry_delay c)
                                (max_retries c) 0 (Z.to_nat (max_retries c)))%list |})
      as (H1 & H2 & H3 & H4 & H5 & H6 & H7).
    cbn zeta in *. cbn [page total_phones empty_pages_count store trace] in *.
    split; [done|]. split; [lia|]. split; [|split; [done|split; [done|split; [|done]]]].
    2:{ rewrite H6. unfold saved_records. rewrite saved_app.
        assert (Hf : forall p d l k n, saved (failed_attempts p d l k n) = []).
        { intros p d l k n. revert k. induction n as [|n IHn]; intros k; [done|].
          cbn [failed_attempts]. destruct (_ <? _); cbn; apply IHn. }
        by rewrite Hf, app_nil_r. }
    rewrite H3.
    assert (Hc : forall t1 t2, count_gets (t1 ++ t2)
                               = (count_gets t1 + count_gets t2)%nat).
    { intros t1 t2. induction t1 as [|[] t1 IHt]; cbn; by rewrite ?IHt. }
    rewrite Hc, count_gets_failed. lia.
Qed.

(** X7.  A site that answers no request keeps an unbounded crawl going
    for ever: after any number of passes the crawl has not ended, it has
    moved on by one page per pass with [max_retries] requests each, the
    total and the streak are as they were, no record was saved, and every
    file other than the log holds what it held. *)
Theorem unreachable_site_never_ends (e : env) (c : config) (st : state)
  (fuel : nat)
  (Hend : end_page c = None)
  (Hretries : 1 <= max_retries c)
  (Hdelay : 0 <= retry_delay c)
  (Hdown : forall p k, http_get e p k = None) :
  let r := scrape_loop e c fuel st in
  snd r = false /\
  page (fst r) = page st + Z.of_nat fuel /\
  count_gets (trace (fst r))
    = (count_gets (trace st) + fuel * Z.to_nat (max_retries c))%nat /\
  total_phones (fst r) = total_phones st /\
  empty_pages_count (fst r) = empty_pages_count st /\
  saved_records (trace (fst r)) = saved_records (trace st) /\
  (forall g, names_log g = false ->
     files (store (fst r)) !! g = files (store st) !! g).
Proof.
  cbn zeta.
  destruct (scrape_loop_site_down e c fuel Hend Hretries Hdown st)
    as (H1 & H2 & H3 & H4 & H5 & H6 & H7).
  repeat (split; [done|]). intros g _. by rewrite H7.
Qed.

Lemma unreachable_site_never_ends_witness :
  snd (scrape_loop (Sample.site_env Sample.down) Sample.cfg 4
         (Sample.state_at 1 0 ∅)) = false /\
  page (fst (scrape_loop (Sample.site_env Sample.down) Sample.cfg 4
               (Sample.state_at 1 0 ∅))) = 5.
Proof.
  destruct (unreachable_site_never_ends (Sample.site_env Sample.down) Sample.cfg
              (Sample.state_at 1 0 ∅) 4) as (H1 & H2 & _).
  - reflexivity.
  - cbn. lia.
  - cbn. lia.
  - reflexivity.
  - split; [exact H1|exact H2].
Defined.

(** ** More on the layout classifier and the product containers *)

(** A [div] that the first old-layout indicator finds is found by the
    new-layout indicators as well. *)
Lemma old_panel_is_new_marker (n : node) :
  is_div n && Soup.has_class product_panel n = true -> new_marker n = true.
Proof.
  unfold new_marker, Soup.has_class, Soup.class_matches, Soup.has_token,
    Soup.class_attr_contains.
  intros [Hdiv Hc]%andb_prop. rewrite Hdiv. cbn [andb].
  destruct (Soup.classes_of n) as [|t ts] eqn:E; [done|].
  apply orb_prop in Hc as [Hc|Hc].
  - rewrite Hc. by rewrite orb_true_r.
  - apply String.eqb_eq in Hc. rewrite <- Hc. by vm_compute.
Qed.

Lemma not_probe_all (marker : node -> bool) (soup : node) :
  ¬ probe marker soup ->
  forall n, n ∈ Soup.descendants soup -> marker n = false.
Proof.
  intros H n Hn. destruct (marker n) eqn:E; [|done].
  destruct H. by exists n.
Qed.

(** X8.  The layout is old only without any new-layout marker on the
    page: in particular no [div] of the page bears the product-panel
    class, so that class never decides for the old layout; what decides is
    a [row] container or, failing that too, a page number below 202. *)
Theorem old_layout_only_by_row_or_page (soup : node) (page_number : Z)
  (Hold : detect_layout soup page_number = Old) :
  (forall n, n ∈ Soup.descendants soup -> new_marker n = false) /\
  (forall n, n ∈ Soup.descendants soup ->
     is_div n && Soup.has_class product_panel n = false) /\
  ((exists n, n ∈ Soup.descendants soup /\
              is_div n && Soup.has_class "row" n = true)
   \/ page_number < 202).
Proof.
  pose proof (detect_layout_classifies soup page_number) as Hc.
  rewrite Hold in Hc.
  assert (Hnew : ¬ probe new_marker soup /\
                 (probe old_marker soup \/ page_number < 202)).
  { inversion Hc as [| |Hh Hn Ho|Hh Hn Ho Heq]; [split; [done|by left]|].
    split; [done|]. right.
    destruct (202 <=? page_number) eqn:E; [done|]. by apply Z.leb_gt in E. }
  destruct Hnew as [Hn Hor].
  pose proof (not_probe_all _ _ Hn) as Hall.
  split; [exact Hall|]. split.
  - intros n Hin. destruct (is_div n && Soup.has_class product_panel n) eqn:E; [|done].
    apply old_panel_is_new_marker in E. by rewrite (Hall n Hin) in E.
  - destruct Hor as [(n & Hin & Hm)|Hp]; [left|by right].
    exists n. split; [done|]. unfold old_marker in Hm.
    apply andb_prop in Hm as [Hdiv [Hm|Hm]%orb_prop]; rewrite Hdiv; cbn [andb]; [|done].
    assert (E : is_div n && Soup.has_class product_panel n = true)
      by (by rewrite Hdiv, Hm).
    apply old_panel_is_new_marker in E. by rewrite (Hall n Hin) in E.
Qed.

Lemma old_layout_only_by_row_or_page_witness :
  (exists n, n ∈ Soup.descendants
                   (Elem "[document]" [] None [Elem "div" ["row"] None []]) /\
             is_div n && Soup.has_class "row" n = true)
  \/ 500 < 202.
Proof.
  refine (proj2 (proj2 (old_layout_only_by_row_or_page
    (Elem "[document]" [] None [Elem "div" ["row"] None []]) 500 _))).
  reflexivity.
Defined.

(** X9.  The page number counts only when nothing on the page decides:
    with the heading rule or any marker matched, every page number gives
    the same layout. *)
Theorem page_number_only_breaks_ties (soup : node) (p q : Z)
  (Hdecided : heading_rule soup \/ probe new_marker soup \/ probe old_marker soup) :
  detect_layout soup p = detect_layout soup q.
Proof.
  pose proof (detect_layout_classifies soup p) as Hp.
  pose proof (detect_layout_classifies soup q) as Hq.
  eapply classifies_functional; [|exact Hq].
  inversion Hp as [Hh|Hh Hn|Hh Hn Ho|Hh Hn Ho Heq].
  - by apply by_headings.
  - by apply by_new_probe.
  - by apply by_old_probe.
  - destruct Hdecided as [H|[H|H]]; done.
Qed.

Lemma page_number_only_breaks_ties_witness :
  detect_layout (Sample.old_page [Sample.galaxy]) 1
  = detect_layout (Sample.old_page [Sample.galaxy]) 500.
Proof.
  apply page_number_only_breaks_ties. right. left.
  exists Sample.galaxy. split; [|by vm_compute].
  apply list_elem_of_In. vm_compute. by left.
Defined.

Lemma find_all_elem (p : node -> bool) (soup n : node) :
  n ∈ Soup.find_all p soup <-> n ∈ Soup.descendants soup /\ p n = true.
Proof.
  unfold Soup.find_all. rewrite !list_elem_of_In, filter_In. done.
Qed.

(** X10.  Every product container that the crawl loop hands to an
    extractor is a [div] below the page root, whichever selector found
    it. *)
Theorem select_products_are_divs (layout_type : layout) (soup n : node)
  (Hin : n ∈ select_products layout_type soup) :
  n ∈ Soup.descendants soup /\ is_div n = true.
Proof.
  unfold select_products in Hin.
  repeat match type of Hin with
         | context [if ?b then _ else _] => destruct b
         | context [match ?l with Old => _ | _ => _ end] => destruct l
         end;
    apply find_all_elem in Hin as [Hd Hp];
    apply andb_prop in Hp as [Hp _]; done.
Qed.

Lemma select_products_are_divs_witness :
  is_div Sample.galaxy = true.
Proof.
  refine (proj2 (select_products_are_divs Old
                   (Sample.old_page [Sample.galaxy]) Sample.galaxy _)).
  apply list_elem_of_In. vm_compute. by left.
Defined.

Lemma prefix_map_chars (f : ascii -> ascii) (a : string) :
  forall b, String.prefix a b = true ->
            String.prefix (Py.map_chars f a) (Py.map_chars f b) = true.
Proof.
  induction a as [|c a IH]; intros b; [intros _; apply prefix_nil|].
  destruct b as [|d b]; [done|]. cbn [Py.map_chars].
  rewrite !prefix_cons. intros [Hc Hr]%andb_prop.
  apply Ascii.eqb_eq in Hc. subst d. by rewrite Ascii.eqb_refl, (IH _ Hr).
Qed.

Lemma contains_map_chars (f : ascii -> ascii) (sub s : string) :
  Py.contains sub s = true ->
  Py.contains (Py.map_chars f sub) (Py.map_chars f s) = true.
Proof.
  induction s as [|c s IH].
  - cbn [Py.contains]. rewrite orb_false_r. intros H.
    apply (prefix_map_chars f) in H. cbn [Py.map_chars Py.contains] in *.
    by rewrite H.
  - cbn [Py.contains]. intros [H|H]%orb_prop.
    + apply (prefix_map_chars f) in H. cbn [Py.map_chars Py.contains] in *.
      by rewrite H.
    + cbn [Py.map_chars Py.contains]. rewrite (IH H). apply orb_true_r.
Qed.

(** A new-layout marker is within reach of one of the three selectors of
    the new layout. *)
Lemma new_marker_selected (n : node) :
  new_marker n = true ->
  is_div n && Soup.has_token product_panel n = true \/
  is_div n && Soup.class_attr_contains "productPanel" n = true \/
  is_div n && Soup.class_matches (product_like ["product"; "item"]) n = true.
Proof.
  unfold new_marker. intros [Hdiv Hm]%andb_prop. rewrite Hdiv. cbn [andb].
  apply orb_prop in Hm as [[Hm|Hm]%orb_prop|Hm]; [by right; left|by left|].
  right. right. apply andb_prop in Hm as [Hm _].
  unfold Soup.class_attr_contains in Hm. unfold Soup.class_matches.
  destruct (Soup.classes_of n) as [|t ts] eqn:E; [done|].
  apply orb_true_iff. right. unfold product_like. cbn [existsb].
  apply (contains_map_chars Py.lower_char) in Hm.
  change (Py.map_chars Py.lower_char "product") with "product" in Hm.
  unfold Py.lower. by rewrite Hm.
Qed.

Lemma probe_intro (marker : node -> bool) (soup n : node) :
  n ∈ Soup.descendants soup -> marker n = true -> probe marker soup.
Proof. intros Hin Hm. by exists n. Qed.

Lemma select_new_nonempty (soup : node) :
  probe new_marker soup -> nonempty (select_products New soup) = true.
Proof.
  intros (n & Hin & Hm). unfold select_products.
  destruct (nonempty (Soup.find_all
              (fun n => is_div n && Soup.has_token product_panel n) soup)) eqn:E1;
    [by rewrite ?E1; cbn iota; rewrite ?E1|].
  destruct (nonempty (Soup.find_all
              (fun n => is_div n && Soup.class_attr_contains "productPanel" n) soup)) eqn:E2;
    [by rewrite ?E2; cbn iota; rewrite ?E2|].
  destruct (nonempty (Soup.find_all
              (fun n => is_div n
                        && Soup.class_matches (product_like ["product"; "item"]) n) soup)) eqn:E3;
    [by rewrite ?E3; cbn iota; rewrite ?E3|].
  exfalso. apply new_marker_selected in Hm as [H|[H|H]].
  - assert (nonempty (Soup.find_all
              (fun n => is_div n && Soup.has_token product_panel n) soup) = true)
      by (apply nonempty_find_all; by exists n).
    congruence.
  - assert (nonempty (Soup.find_all
              (fun n => is_div n && Soup.class_attr_contains "productPanel" n) soup) = true)
      by (apply nonempty_find_all; by exists n).
    congruence.
  - assert (nonempty (Soup.find_all
              (fun n => is_div n
                        && Soup.class_matches (product_like ["product"; "item"]) n) soup) = true)
      by (apply nonempty_find_all; by exists n).
    congruence.
Qed.

Lemma select_old_nonempty (soup : node) :
  probe old_marker soup -> nonempty (select_products Old soup) = true.
Proof.
  intros (n & Hin & Hm). unfold select_products.
  destruct (nonempty (Soup.find_all
              (fun n => is_div n && Soup.has_class product_panel n) soup)) eqn:E1;
    [by rewrite ?E1; cbn iota; rewrite ?E1|].
  destruct (nonempty (Soup.find_all
              (fun n => is_div n && Soup.has_class "row" n) soup)) eqn:E2;
    [by rewrite ?E2; cbn iota; rewrite ?E2|].
  exfalso. unfold old_marker in Hm.
  apply andb_prop in Hm as [Hdiv [Hm|Hm]%orb_prop].
  - assert (nonempty (Soup.find_all
              (fun n => is_div n && Soup.has_class product_panel n) soup) = true)
      by (apply nonempty_find_all; exists n; by rewrite Hdiv, Hm).
    congruence.
  - assert (nonempty (Soup.find_all
              (fun n => is_div n && Soup.has_class "row" n) soup) = true)
      by (apply nonempty_find_all; exists n; by rewrite Hdiv, Hm).
    congruence.
Qed.

(** X11.  A page that the classifier put into the old or new layout
    because of a container marker has product containers for the crawl
    loop: it never takes the branch for a page without products. *)
Theorem marked_page_has_products (soup : node) (page_number : Z)
  (Hmarked : probe new_marker soup \/ probe old_marker soup)
  (Hlayout : detect_layout soup page_number <> Newest) :
  nonempty (select_products (detect_layout soup page_number) soup) = true.
Proof.
  pose proof (detect_layout_classifies soup page_number) as Hc.
  inversion Hc as [Hh Heq|Hh Hn Heq|Hh Hn Ho Heq|Hh Hn Ho Heq].
  - by rewrite <- Heq in Hlayout.
  - by apply select_new_nonempty.
  - by apply select_old_nonempty.
  - by destruct Hmarked.
Qed.

Lemma marked_page_has_products_witness :
  nonempty (select_products (detect_layout (Sample.old_page [Sample.galaxy]) 1)
              (Sample.old_page [Sample.galaxy])) = true.
Proof.
  apply marked_page_has_products; [|by vm_compute].
  left. exists Sample.galaxy. split; [|by vm_compute].
  apply list_elem_of_In. vm_compute. by left.
Defined.
(** ** More on backups and saving *)

Lemma append_assoc (a b c : string) : (a ++ b) ++ c = a ++ (b ++ c).
Proof.
  induction a as [|x a IH]; [done|]. rewrite !append_cons. by rewrite IH.
Qed.

Lemma append_empty_r (a : string) : a ++ "" = a.
Proof. induction a as [|x a IH]; [done|]. rewrite append_cons. by rewrite IH. Qed.

Lemma no_dot_split (s : string) :
  no_dot s = true -> Path.split_last_dot s = None.
Proof.
  unfold no_dot. induction s as [|c r IH]; cbn [all_chars Path.split_last_dot];
    [done|].
  intros [Hc Hr]%andb_prop. rewrite (IH Hr).
  apply negb_true_iff in Hc. by rewrite Hc.
Qed.

Lemma split_last_dot_spec (s a b : string) :
  Path.split_last_dot s = Some (a, b) ->
  exists x, b = String "." x /\ no_dot x = true /\ s = a ++ b.
Proof.
  revert a b. induction s as [|c r IH]; intros a b; cbn [Path.split_last_dot];
    [done|].
  destruct (Path.split_last_dot r) as [[a' b']|] eqn:E.
  - intros [= <- <-]. destruct (IH _ _ eq_refl) as (x & -> & Hx & ->).
    exists x. by rewrite append_cons.
  - destruct (Ascii.eqb c ".") eqn:Ec; [|done].
    apply Ascii.eqb_eq in Ec. subst c. intros [= <- <-].
    exists r. split; [done|]. split; [|by rewrite append_nil].
    clear IH. unfold no_dot. induction r as [|c r IH]; [done|].
    cbn [Path.split_last_dot] in E. cbn [all_chars].
    destruct (Path.split_last_dot r) as [[a' b']|]; [done|].
    destruct (Ascii.eqb c "."); [done|]. by rewrite IH.
Qed.

Lemma split_last_dot_at (a b : string) :
  no_dot b = true ->
  Path.split_last_dot (a ++ String "." b) = Some (a, String "." b).
Proof.
  intros Hb. induction a as [|c a IH].
  - rewrite append_nil. cbn [Path.split_last_dot].
    by rewrite (no_dot_split _ Hb).
  - rewrite append_cons. cbn [Path.split_last_dot]. by rewrite IH.
Qed.

Lemma splitext_splits (name stem ext : string) :
  Path.splitext name = (stem, ext) -> splits_extension name stem ext.
Proof.
  unfold Path.splitext, splits_extension.
  destruct (Path.split_last_dot name) as [[a b]|] eqn:E.
  - destruct (split_last_dot_spec _ _ _ E) as (x & -> & Hx & Hname).
    destruct (Path.all_dots a) eqn:Ha.
    + intros [= <- <-]. split; [by rewrite append_empty_r|]. left.
      split; [done|]. intros a' b' Hn Hb'.
      rewrite Hn, (split_last_dot_at _ _ Hb') in E. by injection E as -> _.
    + intros [= <- <-]. split; [done|]. right. by exists x.
  - intros [= <- <-]. split; [by rewrite append_empty_r|]. left.
    split; [done|]. intros a' b' Hn Hb'.
    by rewrite Hn, (split_last_dot_at _ _ Hb') in E.
Qed.

Lemma after_last_slash_split (p b : string) :
  Path.after_last_slash p = Some b -> exists dir, p = dir ++ String "/" b.
Proof.
  revert b. induction p as [|c r IH]; intros b; cbn [Path.after_last_slash];
    [done|].
  destruct (Path.after_last_slash r) as [b'|] eqn:E.
  - intros [= <-]. destruct (IH _ eq_refl) as [dir ->].
    exists (String c dir). by rewrite append_cons.
  - destruct (Ascii.eqb c "/") eqn:Ec; [|done].
    apply Ascii.eqb_eq in Ec. subst c. intros [= <-].
    exists EmptyString. by rewrite append_nil.
Qed.

Lemma basename_last_component (p : string) :
  last_component p (Path.basename p).
Proof.
  split; [apply basename_no_slash|]. unfold Path.basename.
  destruct (Path.after_last_slash p) as [b|] eqn:E; [|by left].
  right. by apply after_last_slash_split.
Qed.

(** X12.  [create_backup] on a missing path changes nothing and returns
    no name.  On an existing file it returns the name
    [backups/<stem>_<timestamp><ext>], where [<stem><ext>] is the last
    component of the path and [<ext>] its extension as [os.path.splitext]
    takes it: from the last dot on, or empty when the name has no dot or
    only dots before it.  The copy
    holds the content of the file; the file, unless it is the log, keeps
    its content, and no other path but the log changes.  With a timestamp
    free of ['/'] the copy is not the file itself. *)
Theorem create_backup_copies (e : env) (p : string) (d : disk) :
  (files d !! p = None -> create_backup e p d = (None, d)) /\
  (forall content, files d !! p = Some content ->
     let bp := backup_path_of p (now e (ticks d)) in
     let d' := snd (create_backup e p d) in
     fst (create_backup e p d) = Some bp /\
     files d' !! bp = Some content /\
     (names_log p = false -> files d' !! p = Some content) /\
     (forall g, g <> bp -> names_log g = false ->
        files d' !! g = files d !! g) /\
     (exists name stem ext,
        last_component p name /\
        splits_extension name stem ext /\
        bp = "backups/" ++ stem ++ "_" ++ now e (ticks d) ++ ext) /\
     (no_slash (now e (ticks d)) = true -> bp <> p)).
Proof.
  split.
  - intros H. unfold create_backup. by rewrite H.
  - intros content H. cbn zeta.
    rewrite (create_backup_existing _ _ _ _ H). cbn [fst snd files].
    split; [done|]. split; [apply lookup_insert_eq|]. split.
    { intros _. rewrite <- H. rewrite <- (create_backup_same e p d).
      by rewrite (create_backup_existing _ _ _ _ H). }
    split; [intros g Hg _; by rewrite lookup_insert_ne|]. split.
    + unfold backup_path_of.
      destruct (Path.splitext (Path.basename p)) as [stem ext] eqn:E.
      exists (Path.basename p), stem, ext.
      split; [apply basename_last_component|].
      split; [by apply splitext_splits|done].
    + apply backup_path_differs.
Qed.

Lemma create_backup_copies_witness :
  fst (create_backup (Sample.site_env Sample.down) "data/phones.v2.csv"
         {| files := {[ "data/phones.v2.csv" := [HeaderLine csv_columns] ]};
            ticks := 0 |})
  = Some "backups/phones.v2_20250101_000000.csv".
Proof.
  refine (proj1 (proj2 (create_backup_copies (Sample.site_env Sample.down)
    "data/phones.v2.csv"
    {| files := {[ "data/phones.v2.csv" := [HeaderLine csv_columns] ]};
       ticks := 0 |}) [HeaderLine csv_columns] _)).
  reflexivity.
Defined.

(** X13.  [save_data_to_csv] writes the file and, when it rewrites an
    existing file, the backup; every other path but the log is left
    alone.  A backup, and with it a timestamp, is made only in that case.
    Called the way the crawl loop calls it, with [append] telling whether
    the file exists, it makes no backup and keeps every line the file
    held, in place, with the new records after them. *)
Theorem save_leaves_other_files (e : env) (data : list phone_data)
  (f : string) (append : bool) (d : disk)
  (Hdata : names_log f = false) :
  (forall g, g <> f -> g <> backup_path_of f (now e (ticks d)) ->
     names_log g = false ->
     files (save_data_to_csv e data f append d) !! g = files d !! g) /\
  (ticks (save_data_to_csv e data f append d)
   = if exists_file f d && negb append then S (ticks d) else ticks d) /\
  (forall g, g <> f -> names_log g = false ->
     files (save_data_to_csv e data f (exists_file f d) d) !! g = files d !! g) /\
  (forall old, files d !! f = Some old ->
     files (save_data_to_csv e data f (exists_file f d) d) !! f
     = Some (old ++ List.map DataLine data)%list).
Proof.
  split; [|split; [|split]].
  - intros g Hf Hb _. unfold save_data_to_csv, to_csv. cbn [files].
    rewrite lookup_insert_ne by done.
    destruct (exists_file f d && negb append); [|done].
    unfold create_backup. destruct (files d !! f); [|done].
    cbn. by rewrite lookup_insert_ne.
  - unfold save_data_to_csv, to_csv. cbn [ticks].
    destruct (exists_file f d && negb append) eqn:E; [|done].
    apply andb_prop in E as [E _]. unfold exists_file in E.
    unfold create_backup. by destruct (files d !! f).
  - intros g Hf _. unfold save_data_to_csv, to_csv.
    rewrite andb_negb_r. cbn [files]. by rewrite lookup_insert_ne.
  - intros old Hold. unfold save_data_to_csv, to_csv, exists_file.
    rewrite Hold. cbn [andb negb files]. rewrite Hold. apply lookup_insert_eq.
Qed.

Lemma save_leaves_other_files_witness :
  files (save_data_to_csv (Sample.site_env Sample.down) Sample.example_frame
           "smartphone_data.csv"
           (exists_file "smartphone_data.csv" Sample.stored) Sample.stored)
    !! "smartphone_data.csv"
  = Some ([HeaderLine csv_columns] ++ List.map DataLine Sample.example_frame)%list.
Proof.
  refine (proj2 (proj2 (proj2 (save_leaves_other_files
    (Sample.site_env Sample.down) Sample.example_frame "smartphone_data.csv"
    true Sample.stored eq_refl))) [HeaderLine csv_columns] _).
  reflexivity.
Defined.
(** ** What the extractors return *)

Lemma scan_until_truthy_sound {A : Type} (f : A -> option Z) (l : list A) :
  forall cur z,
    scan_until_truthy f l cur = Some z ->
    cur = Some z \/ exists x, In x l /\ f x = Some z.
Proof.
  induction l as [|x l IH]; intros cur z; cbn [scan_until_truthy]; [by left|].
  destruct (truthy (f x)) eqn:E.
  - intros H. right. exists x. split; [by left|done].
  - intros [H|(y & Hy & Hf)]%IH; right.
    + exists x. split; [by left|done].
    + exists y. split; [by right|done].
Qed.

(** The scan stops at the first amount that is present and not zero. *)
Lemma scan_until_truthy_first {A : Type} (f : A -> option Z)
  (pre : list A) (x : A) (post : list A) (cur : option Z) :
  (forall y, In y pre -> truthy (f y) = false) ->
  truthy (f x) = true ->
  scan_until_truthy f (pre ++ x :: post) cur = f x.
Proof.
  revert cur. induction pre as [|y pre IH]; intros cur Hpre Hx; cbn.
  - by rewrite Hx.
  - rewrite (Hpre y) by (by left). apply IH; [|done].
    intros y' Hy'. apply Hpre. by right.
Qed.

Lemma first_then_break_sound {A : Type} (p : A -> bool) (f : A -> option Z)
  (l : list A) (z : Z) :
  first_then_break p f l = Some z ->
  exists x, In x l /\ p x = true /\ f x = Some z.
Proof.
  unfold first_then_break. destruct (List.find p l) as [x|] eqn:E; [|done].
  apply find_some in E as [Hin Hp]. intros H. by exists x.
Qed.

Lemma in_filter_map {A : Type} (g : A -> string) (p : string -> bool)
  (l : list A) (x : A) :
  In x l -> p (g x) = true -> In (g x) (List.filter p (List.map g l)).
Proof.
  intros Hin Hp. apply filter_In. split; [|done]. by apply in_map.
Qed.

Lemma price_from_links_cand (product : node) (z : Z) :
  price_from_links product = Some z ->
  exists t, In t (price_candidates_old product) /\ clean_price t = Some z.
Proof.
  intros (x & Hin & Hp & Hf)%first_then_break_sound.
  exists (Py.strip (Soup.text x)). split; [|done].
  unfold price_candidates_old. apply in_or_app. left.
  by apply (in_filter_map (fun link => Py.strip (Soup.text link))).
Qed.

Lemma price_from_text_nodes_cand (product : node) (z : Z) :
  price_from_text_nodes product = Some z ->
  exists t, In t (List.map Py.strip (Soup.find_all_text has_rp product)) /\
            clean_price t = Some z.
Proof.
  intros [H|(x & Hin & Hf)]%scan_until_truthy_sound; [done|].
  exists (Py.strip x). split; [by apply in_map|done].
Qed.

Lemma price_from_cells_cand (product : node) (z : Z) :
  price_from_cells product = Some z ->
  exists t, In t (List.filter has_rp
                    (List.map Soup.text
                       (Soup.find_all (Soup.has_tag "td") product))) /\
            clean_price t = Some z.
Proof.
  intros (x & Hin & Hp & Hf)%first_then_break_sound.
  exists (Soup.text x). split; [|done]. by apply in_filter_map.
Qed.

Lemma price_from_price_class_cand (product : node) (z : Z) :
  price_from_price_class product = Some z ->
  exists t, In t (List.filter has_rp
                    (List.map Soup.text
                       (Soup.find_all
                          (fun n => Soup.is_elem n
                                    && Soup.class_matches price_class n) product))) /\
            clean_price t = Some z.
Proof.
  intros [H|(x & Hin & Hf)]%scan_until_truthy_sound; [done|].
  apply filter_In in Hin as [Hin Hp].
  exists (Soup.text x). split; [|done]. by apply in_filter_map.
Qed.

Lemma or_else_some (p next : option Z) (z : Z) :
  or_else p next = Some z -> p = Some z \/ (p = None /\ next = Some z).
Proof. destruct p; cbn; [by left|by right]. Qed.

Lemma extract_price_old_cand (product : node) (z : Z) :
  extract_price_old product = Some z ->
  exists t, In t (price_candidates_old product) /\ clean_price t = Some z.
Proof.
  unfold extract_price_old. cbn zeta.
  intros [H|[_ H]]%or_else_some.
  - apply or_else_some in H as [H|[_ H]].
    + apply or_else_some in H as [H|[_ H]].
      * by apply price_from_links_cand.
      * apply price_from_text_nodes_cand in H as (t & Hin & Hc).
        exists t. split; [|done]. unfold price_candidates_old.
        apply in_or_app. right. apply in_or_app. by left.
    + apply price_from_cells_cand in H as (t & Hin & Hc).
      exists t. split; [|done]. unfold price_candidates_old.
      apply in_or_app. right. apply in_or_app. right. apply in_or_app. by left.
  - apply price_from_price_class_cand in H as (t & Hin & Hc).
    exists t. split; [|done]. unfold price_candidates_old.
    apply in_or_app. right. apply in_or_app. right. apply in_or_app. by right.
Qed.

Lemma extract_price_new_cand (product : node) (z : Z) :
  extract_price_new product = Some z ->
  exists t, In t (price_candidates_new product) /\ clean_price t = Some z.
Proof.
  unfold extract_price_new. intros [H|[_ H]]%or_else_some.
  - apply price_from_text_nodes_cand in H as (t & Hin & Hc).
    exists t. split; [|done]. unfold price_candidates_new.
    apply in_or_app. by left.
  - apply price_from_price_class_cand in H as (t & Hin & Hc).
    exists t. split; [|done]. unfold price_candidates_new.
    apply in_or_app. by right.
Qed.

(** The fields that the old and new extractors fill before the specs. *)
Lemma extract_product_body_fields (price_of : node -> option Z)
  (step : specs -> node -> result specs) (product : node) (d : phone_data) :
  catch_all (extract_product_body price_of step product) = Some d ->
  exists name_element,
    find_name_element product = Some name_element /\
    Name d = Py.strip (Soup.text name_element) /\
    Price d = price_of product /\
    ReleaseYear d = extract_release_year product.
Proof.
  unfold extract_product_body.
  destruct (find_name_element product) as [ne|]; [|done].
  destruct (extract_specs step product) as [sp|ex]; [|done]. cbn.
  destruct (from_name "ROM" _ _) as [storage|ex]; [|done]. cbn.
  destruct (from_name "RAM" _ _) as [ram|ex]; [|done]. cbn.
  intros [= <-]. by exists ne.
Qed.

(** X14.  Neither extractor invents a price: the price of a record of
    the old or new layout is the cleaned value of one of the candidate
    texts of its product. *)
Theorem price_comes_from_a_candidate (product : node) (d : phone_data) (z : Z)
  (Hprice : Price d = Some z) :
  (extract_product_data_old_layout product = Some d ->
   exists t, In t (price_candidates_old product) /\ clean_price t = Some z) /\
  (extract_product_data_new_layout product = Some d ->
   exists t, In t (price_candidates_new product) /\ clean_price t = Some z).
Proof.
  split; intros (ne & _ & _ & Hp & _)%extract_product_body_fields;
    rewrite Hprice in Hp; symmetry in Hp.
  - by apply extract_price_old_cand.
  - by apply extract_price_new_cand.
Qed.

Lemma price_comes_from_a_candidate_witness :
  exists t, In t (price_candidates_old Sample.galaxy) /\
            clean_price t = Some 5999000.
Proof.
  refine (proj1 (price_comes_from_a_candidate Sample.galaxy
    {| Name := "Galaxy A55"; Price := Some 5999000; RAM := None;
       Storage := None; Camera := None; ScreenSize := None; Battery := None;
       ReleaseYear := None |} 5999000 _) _); reflexivity.
Defined.

(** X15.  In the new layout the first text node with the marker whose
    cleaned amount is present and not zero gives the price, whatever
    follows it and whatever the price-class elements hold.  In the old
    layout the first seller link that shows the marker gives the price
    whenever its text cleans to a number, zero included. *)
Theorem first_amount_wins (product : node) (d : phone_data) (z : Z) :
  (forall pre t post,
     extract_product_data_new_layout product = Some d ->
     Soup.find_all_text has_rp product = (pre ++ t :: post)%list ->
     (forall u, In u pre -> truthy (clean_price (Py.strip u)) = false) ->
     clean_price (Py.strip t) = Some z -> z <> 0 ->
     Price d = Some z) /\
  (forall link,
     extract_product_data_old_layout product = Some d ->
     List.find (fun l => has_rp (Py.strip (Soup.text l)))
       (Soup.find_all seller_link product) = Some link ->
     clean_price (Py.strip (Soup.text link)) = Some z ->
     Price d = Some z).
Proof.
  split.
  - intros pre t post (ne & _ & _ & Hp & _)%extract_product_body_fields
      Hnodes Hpre Ht Hz.
    rewrite Hp. unfold extract_price_new, price_from_text_nodes.
    rewrite Hnodes, (scan_until_truthy_first _ pre t post None Hpre).
    + by rewrite Ht.
    + rewrite Ht. cbn. by apply negb_true_iff, Z.eqb_neq.
  - intros link (ne & _ & _ & Hp & _)%extract_product_body_fields Hfind Hc.
    rewrite Hp. unfold extract_price_old, price_from_links, first_then_break.
    cbn zeta. by rewrite Hfind, Hc.
Qed.

Lemma first_amount_wins_witness :
  Price {| Name := "Galaxy A55"; Price := Some 5999000; RAM := None;
           Storage := None; Camera := None; ScreenSize := None;
           Battery := None; ReleaseYear := None |} = Some 5999000.
Proof.
  refine (proj1 (first_amount_wins Sample.zero_first _ 5999000)
            ["Rp 0"] "Rp 5.999.000" [] _ _ _ _ _).
  - reflexivity.
  - reflexivity.
  - intros u [<-|[]]. reflexivity.
  - reflexivity.
  - discriminate.
Defined.

(** ** What a match captures *)

(** Whatever the matcher returns comes from its continuation, called on
    what is left after a string of the pattern's language; a pattern
    without groups hands the captures on as they are. *)
Lemma run_sound {R : Type} (r : Re.regex) :
  forall (prev : option ascii) (s : string) (cs : Re.captures)
         (k : @Re.cont R) (res : R),
    Re.run r prev s cs k = Some res ->
    exists d s' p' cs',
      s = d ++ s' /\ lang r d /\ k p' s' cs' = Some res /\
      (Re.ngroups r = O -> cs' = cs).
Proof.
  induction r as [|c|items|a IHa b IHb|a IHa b IHb|a IHa|n a IHa|];
    intros prev s cs k res; cbn [Re.run Re.ngroups].
  - intros H. exists "", s, prev, cs. repeat split; [constructor|done].
  - destruct s as [|d rest]; [done|].
    destruct (Ascii.eqb c d) eqn:E; [|done]. apply Ascii.eqb_eq in E. subst d.
    intros H. exists (String c ""), rest, (Some c), cs.
    repeat split; [constructor|done].
  - destruct s as [|d rest]; [done|].
    destruct (existsb (Re.item_matches d) items) eqn:E; [|done].
    intros H. exists (String d ""), rest, (Some d), cs.
    repeat split; [by constructor|done].
  - intros (d1 & s1 & p1 & cs1 & -> & L1 & H1 & C1)%IHa.
    apply IHb in H1 as (d2 & s2 & p2 & cs2 & -> & L2 & H2 & C2).
    exists (d1 ++ d2), s2, p2, cs2. split; [by rewrite append_assoc|].
    split; [by constructor|]. split; [done|].
    intros Hn. rewrite C2, C1 by lia. done.
  - destruct (Re.run a prev s cs k) as [res'|] eqn:E.
    + intros [= <-]. apply IHa in E as (d & s' & p' & cs' & -> & L & H & C).
      exists d, s', p', cs'. split; [done|]. split; [by apply lang_alt_l|].
      split; [done|]. intros Hn. apply C. lia.
    + intros (d & s' & p' & cs' & -> & L & H & C)%IHb.
      exists d, s', p', cs'. split; [done|]. split; [by apply lang_alt_r|].
      split; [done|]. intros Hn. apply C. lia.
  - generalize (String.length s) as fuel. intros fuel.
    revert prev s cs. induction fuel as [|fuel IHf]; intros prev s cs.
    + intros H. exists "", s, prev, cs. repeat split; [constructor|done].
    + match goal with
      | |- context [Re.run a prev s cs ?K] =>
          destruct (Re.run a prev s cs K) as [res'|] eqn:E
      end.
      * intros [= <-].
        apply IHa in E as (d1 & s1 & p1 & cs1 & -> & L1 & H1 & C1).
        destruct (String.length s1 <? String.length (d1 ++ s1))%nat; [|done].
        apply IHf in H1 as (d2 & s2 & p2 & cs2 & -> & L2 & H2 & C2).
        exists (d1 ++ d2), s2, p2, cs2. split; [by rewrite append_assoc|].
        split; [by constructor|]. split; [done|].
        intros Hn. rewrite C2, C1 by done. done.
      * intros H. exists "", s, prev, cs. repeat split; [constructor|done].
  - intros (d & s' & p' & cs' & -> & L & H & C)%IHa.
    eexists d, s', p', _. split; [done|]. split; [by constructor|].
    split; [exact H|]. done.
  - destruct (xorb _ _); [|done].
    intros H. exists "", s, prev, cs. repeat split; [constructor|done].
Qed.

Lemma substring_prefix (d s : string) :
  String.substring 0 (String.length d) (d ++ s) = d.
Proof.
  induction d as [|c d IH]; [by destruct s|].
  rewrite append_cons. cbn [String.length String.substring]. by rewrite IH.
Qed.

Lemma consumed_append (d s : string) : Re.consumed (d ++ s) s = d.
Proof.
  unfold Re.consumed. rewrite length_append.
  replace (String.length d + String.length s - String.length s)%nat
    with (String.length d) by lia.
  apply substring_prefix.
Qed.

(** A group around a pattern without groups records what it consumed. *)
Lemma run_group {R : Type} (n : nat) (a : Re.regex) (prev : option ascii)
  (s : string) (cs : Re.captures) (k : @Re.cont R) (res : R) :
  Re.ngroups a = O ->
  Re.run (Re.Group n a) prev s cs k = Some res ->
  exists d s' p',
    s = d ++ s' /\ lang a d /\ k p' s' ((n, d) :: cs) = Some res.
Proof.
  intros Hn. cbn [Re.run].
  intros (d & s' & p' & cs' & Hs & L & H & C)%run_sound.
  exists d, s', p'. split; [done|]. split; [done|].
  rewrite (C Hn) in H. subst s. by rewrite consumed_append in H.
Qed.

Lemma run_one_group {R : Type} (a r : Re.regex) :
  one_group a r -> Re.ngroups a = O ->
  forall (prev : option ascii) (s : string) (cs : Re.captures)
         (k : @Re.cont R) (res : R),
    Re.run r prev s cs k = Some res ->
    exists d s' p', lang a d /\ k p' s' ((1%nat, d) :: cs) = Some res.
Proof.
  intros Hog Hn. induction Hog as [|r post Hog IH Hpost|pre r Hpre Hog IH];
    intros prev s cs k res.
  - intros (d & s' & p' & _ & L & H)%run_group; [|done]. by exists d, s', p'.
  - cbn [Re.run]. intros (d & s' & p' & L & H)%IH.
    apply run_sound in H as (d2 & s2 & p2 & cs2 & _ & _ & H & C).
    rewrite (C Hpost) in H. by exists d, s2, p2.
  - cbn [Re.run].
    intros (d1 & s1 & p1 & cs1 & _ & _ & H & C)%run_sound.
    rewrite (C Hpre) in H. by apply IH in H.
Qed.

Lemma one_group_ngroups (a r : Re.regex) :
  one_group a r -> Re.ngroups r = S (Re.ngroups a).
Proof.
  induction 1 as [|r post Hog IH Hpost|pre r Hpre Hog IH]; cbn [Re.ngroups];
    [done|lia|lia].
Qed.

Lemma search_from_try (r : Re.regex) (s : string) :
  forall prev m,
    Re.search_from r prev s = Some m ->
    exists prev' s', Re.try_at r prev' s' = Some m.
Proof.
  induction s as [|c s IH]; intros prev m; cbn [Re.search_from].
  - destruct (Re.try_at r prev "") eqn:E; [|done]. intros [= <-]. eauto.
  - destruct (Re.try_at r prev (String c s)) eqn:E.
    + intros [= <-]. eauto.
    + apply IH.
Qed.

(** A match of a one-group pattern holds group 1, a string of the
    language of the group. *)
Lemma search_one_group (a r : Re.regex) (text : string) (m : Re.match_obj) :
  one_group a r -> Re.ngroups a = O ->
  Re.search r text = Some m ->
  exists d, lang a d /\ group m 1 = Ok (Some d).
Proof.
  intros Hog Hn Hs. pose proof (search_groups _ _ _ Hs) as Hg.
  rewrite (one_group_ngroups _ _ Hog), Hn in Hg.
  apply search_from_try in Hs as (prev & s & Ht).
  unfold Re.try_at in Ht.
  destruct (Re.run r prev s [] _) as [[rest cs]|] eqn:E; [|done].
  apply (run_one_group a r Hog Hn) in E as (d & s' & p' & L & [= <- <-]).
  exists d. split; [done|]. injection Ht as <-.
  cbn in Hg. unfold group. cbn. by rewrite Hg.
Qed.

Lemma lang_star_set (items : list Re.cset_item) (d : string) :
  lang (Re.Star (Re.Set_ items)) d -> all_chars (in_set items) d = true.
Proof.
  remember (Re.Star (Re.Set_ items)) as r eqn:Hr. intros H.
  induction H as [| | | | | | |a x y Hx _ Hy IH| |]; try done.
  injection Hr as ->. rewrite all_chars_append, (IH eq_refl), andb_true_r.
  inversion Hx; subst. cbn. unfold in_set. by rewrite H0.
Qed.

Lemma lang_plus_set (items : list Re.cset_item) (d : string) :
  lang (Re.Plus (Re.Set_ items)) d ->
  d <> EmptyString /\ all_chars (in_set items) d = true.
Proof.
  unfold Re.Plus. intros H. inversion H as [| | |a b x y Hx Hy| | | | | |]; subst.
  apply lang_star_set in Hy. inversion Hx; subst.
  rewrite append_cons. split; [done|]. cbn [all_chars].
  unfold in_set at 1. rewrite H1. cbn [andb]. by rewrite append_nil.
Qed.

Lemma in_set_digit (d : string) :
  all_chars (in_set [Re.CDigit]) d = true -> all_chars Py.is_digit d = true.
Proof.
  induction d as [|c d IH]; [done|]. cbn [all_chars].
  intros [Hc Hd]%andb_prop. rewrite (IH Hd), andb_true_r.
  unfold in_set in Hc. cbn in Hc. by rewrite orb_false_r in Hc.
Qed.

Lemma lang_digits (d : string) :
  lang (Re.Plus Re.digit) d ->
  d <> EmptyString /\ all_chars Py.is_digit d = true.
Proof.
  intros [Hne Hall]%lang_plus_set. split; [done|]. by apply in_set_digit.
Qed.
(** ** The patterns of the extractors *)

Lemma ngroups_lit (s : string) : Re.ngroups (Re.Lit s) = O.
Proof.
  induction s as [|c s IH]; [done|]. cbn [Re.Lit].
  destruct s; [done|]. cbn [Re.ngroups]. by rewrite IH.
Qed.

Lemma one_group_int_unit (u : string) :
  one_group (Re.Plus Re.digit) (Pat.int_unit u).
Proof.
  unfold Pat.int_unit. apply og_before; [apply og_here|].
  cbn [Re.ngroups]. by rewrite ngroups_lit.
Qed.

Lemma one_group_named_gb (k : string) :
  one_group (Re.Plus Re.digit) (Pat.named_gb k).
Proof.
  unfold Pat.named_gb. apply og_after; [apply ngroups_lit|].
  apply og_after; [done|]. apply one_group_int_unit.
Qed.

Lemma one_group_inch :
  one_group (Re.Plus (Re.Set_ [Re.CDigit; Re.CChar "."])) Pat.inch.
Proof. unfold Pat.inch. apply og_before; [apply og_here|done]. Qed.

Lemma one_group_integer_pattern (r : Re.regex) :
  In r integer_patterns -> one_group (Re.Plus Re.digit) r.
Proof.
  unfold integer_patterns. cbn [In].
  intros [<-|[<-|[<-|[<-|[<-|[]]]]]];
    first [apply one_group_int_unit | apply one_group_named_gb].
Qed.

Lemma digit_not_dot (c : ascii) : Py.is_digit c = true -> Ascii.eqb "." c = false.
Proof.
  intros H. destruct (Ascii.eqb "." c) eqn:E; [|done].
  apply Ascii.eqb_eq in E. by subst c.
Qed.

Lemma digits_no_dot (d : string) :
  all_chars Py.is_digit d = true -> Py.contains "." d = false.
Proof.
  induction d as [|c d IH]; [done|]. cbn [all_chars Py.contains].
  intros [Hc Hd]%andb_prop.
  by rewrite prefix_cons, (digit_not_dot _ Hc), (IH Hd).
Qed.

Lemma digit_val_range (c : ascii) (v : Z) :
  Py.digit_val c = Some v -> 0 <= v <= 9.
Proof.
  unfold Py.digit_val.
  destruct ((48 <=? nat_of_ascii c)%nat && (nat_of_ascii c <=? 57)%nat) eqn:E;
    [|done].
  apply andb_prop in E as [H1 H2]. apply Nat.leb_le in H1, H2.
  intros [= <-]. lia.
Qed.

Lemma decimal_value_nonneg (d : string) (acc : Z) :
  0 <= acc -> 0 <= decimal_value acc d.
Proof.
  revert acc. induction d as [|c d IH]; intros acc Hacc; cbn [decimal_value]; [done|].
  destruct (Py.digit_val c) as [v|] eqn:E; [|by apply IH].
  apply digit_val_range in E. apply IH. lia.
Qed.

(** Group 1 of an integer pattern reads as an integer. *)
Lemma int_group1_digits (r : Re.regex) (text : string) (m : Re.match_obj) :
  one_group (Re.Plus Re.digit) r ->
  Re.search r text = Some m ->
  exists d,
    group m 1 = Ok (Some d) /\ d <> EmptyString /\
    all_chars Py.is_digit d = true /\
    int_group1 m = Ok (decimal_value 0 d).
Proof.
  intros Hog Hs.
  destruct (search_one_group _ _ _ _ Hog eq_refl Hs) as (d & L & Hg).
  apply lang_digits in L as [Hne Hall].
  exists d. split; [done|]. split; [done|]. split; [done|].
  unfold int_group1. rewrite Hg. cbn. by rewrite (int_digits _ Hall Hne).
Qed.

(** With a capture group in the pattern nothing is raised. *)
Lemma extract_spec_value_ok (text : string) (pattern : Re.regex) :
  (1 <= Re.ngroups pattern)%nat ->
  exists v, extract_spec_value text pattern = Ok v.
Proof.
  intros Hn. unfold extract_spec_value. destruct text as [|c t]; [by eexists|].
  destruct (Re.search pattern (String c t)) as [m|] eqn:Hs; [|by eexists].
  assert (Hm : (1 <= Re.m_pattern_groups m)%nat)
    by (by rewrite (search_groups _ _ _ Hs)).
  destruct (Re.lookup_capture 1 (Re.m_captures m)) as [g|] eqn:Hg.
  - rewrite (spec_value_of_group _ _ Hm Hg).
    destruct (Py.contains "." g).
    + destruct (Py.float (Py.strip g)); by eexists.
    + destruct (Py.int (Py.strip g)); by eexists.
  - rewrite (spec_value_unset_group _ Hm Hg). by eexists.
Qed.

(** X17.  With one of the integer patterns of the extractors,
    [extract_spec_value] returns [None] exactly when the text is empty or
    the pattern finds nothing; whenever the pattern matches it returns the
    integer, never negative, that the captured digits write, never a
    float.  [Py.int] reads a run of digits of any length. *)
Theorem integer_pattern_gives_integer (r : Re.regex) (text : string)
  (Hr : In r integer_patterns) :
  (text = EmptyString \/ Re.search r text = None ->
   extract_spec_value text r = Ok None) /\
  (forall m, text <> EmptyString -> Re.search r text = Some m ->
     exists d,
       group m 1 = Ok (Some d) /\ d <> EmptyString /\
       all_chars Py.is_digit d = true /\
       0 <= decimal_value 0 d /\
       extract_spec_value text r = Ok (Some (PyInt (decimal_value 0 d)))).
Proof.
  apply one_group_integer_pattern in Hr. split.
  - intros [-> | Hs]; [done|]. unfold extract_spec_value.
    destruct text; [done|]. by rewrite Hs.
  - intros m Hne Hs.
    destruct (int_group1_digits _ _ _ Hr Hs) as (d & Hg & Hd & Hall & _).
    exists d. split; [done|]. split; [done|]. split; [done|].
    split; [by apply decimal_value_nonneg|].
    unfold extract_spec_value. destruct text as [|c t]; [done|]. rewrite Hs.
    unfold spec_value_of_match. rewrite Hg. cbn.
    rewrite (digits_no_dot _ Hall).
    rewrite (strip_digits _ Hall), (int_digits _ Hall Hd). done.
Qed.

Lemma integer_pattern_gives_integer_witness :
  extract_spec_value "8GB RAM" Pat.gb = Ok (Some (PyInt 8)).
Proof.
  destruct (proj2 (integer_pattern_gives_integer Pat.gb "8GB RAM"
                     ltac:(by left))
              {| Re.m_pattern_groups := 1; Re.m_whole := "8GB";
                 Re.m_captures := [(1%nat, "8")] |}
              ltac:(discriminate) eq_refl)
    as (d & Hg & _ & _ & _ & Hv).
  injection Hg as <-. exact Hv.
Defined.
(** ** Products lost to an exception *)

Lemma storage_step_ok (spec_text : string) (storage : option pynum) :
  exists v, storage_step spec_text storage = Ok v.
Proof.
  unfold storage_step. destruct (_ && _); [|by eexists].
  destruct (Re.search Pat.gb spec_text) as [m|] eqn:Hs; [|by eexists].
  destruct (negb _); [|by eexists].
  destruct (int_group1_digits _ _ _ (one_group_int_unit "GB") Hs)
    as (d & _ & _ & _ & ->).
  by eexists.
Qed.

Lemma integer_pattern_ok (r : Re.regex) (text : string) :
  one_group (Re.Plus Re.digit) r ->
  exists v, extract_spec_value text r = Ok v.
Proof.
  intros Hog. apply extract_spec_value_ok.
  rewrite (one_group_ngroups _ _ Hog). lia.
Qed.

Lemma spec_step_old_ok (acc : specs) (item : node) :
  exists acc', spec_step_old acc item = Ok acc'.
Proof.
  unfold spec_step_old. cbn zeta.
  set (spec_text := Py.strip (Soup.text item)).
  assert (Hram : exists v,
    (if Py.contains "GB" spec_text
        && (Py.contains "RAM" (Py.upper spec_text) || is_none (s_ram acc))
     then extract_spec_value spec_text Pat.gb else Ok (s_ram acc)) = Ok v).
  { destruct (_ && _); [|by eexists].
    apply integer_pattern_ok, one_group_int_unit. }
  destruct Hram as [ram ->]. cbn.
  destruct (storage_step_ok spec_text (s_storage acc)) as [storage ->]. cbn.
  assert (Hcam : exists v,
    (if Py.contains "MP" spec_text && is_none (s_camera acc)
     then extract_spec_value spec_text Pat.mp else Ok (s_camera acc)) = Ok v).
  { destruct (_ && _); [|by eexists].
    apply integer_pattern_ok, one_group_int_unit. }
  destruct Hcam as [camera ->]. cbn.
  assert (Hscr : exists v,
    (if Py.contains "inch" spec_text && is_none (s_screen acc)
     then extract_spec_value spec_text Pat.inch else Ok (s_screen acc)) = Ok v).
  { destruct (_ && _); [|by eexists].
    apply extract_spec_value_ok. cbn. lia. }
  destruct Hscr as [screen ->]. cbn.
  assert (Hbat : exists v,
    (if Py.contains "mAh" spec_text && is_none (s_battery acc)
     then extract_spec_value spec_text Pat.mah else Ok (s_battery acc)) = Ok v).
  { destruct (_ && _); [|by eexists].
    apply integer_pattern_ok, one_group_int_unit. }
  destruct Hbat as [battery ->]. cbn. by eexists.
Qed.

Lemma fold_result_ok {A B : Type} (f : A -> B -> result A) (l : list B) :
  (forall a x, exists a', f a x = Ok a') ->
  forall a, exists a', fold_result f l a = Ok a'.
Proof.
  intros Hf. induction l as [|x l IH]; intros a; cbn [fold_result]; [by eexists|].
  destruct (Hf a x) as [a' ->]. cbn. apply IH.
Qed.

Lemma fold_result_raise {A B : Type} (f : A -> B -> result A) (l : list B) :
  forall a ex,
    fold_result f l a = Raise ex ->
    exists a' x, In x l /\ f a' x = Raise ex.
Proof.
  induction l as [|x l IH]; intros a ex; cbn [fold_result]; [done|].
  destruct (f a x) as [a'|ex'] eqn:E; cbn.
  - intros (a'' & y & Hy & Hf)%IH. exists a'', y. split; [by right|done].
  - intros [= <-]. exists a, x. split; [by left|done].
Qed.

Lemma from_name_ok (key name : string) (cur : option pynum) :
  exists v, from_name key name cur = Ok v.
Proof.
  unfold from_name. destruct (_ && _); [|by eexists].
  apply integer_pattern_ok, one_group_named_gb.
Qed.

(** Once the specs are read, the rest of the body goes through. *)
Lemma extract_product_body_after_specs (price_of : node -> option Z)
  (step : specs -> node -> result specs) (product name_element : node)
  (sp : specs) :
  find_name_element product = Some name_element ->
  extract_specs step product = Ok sp ->
  exists d, catch_all (extract_product_body price_of step product) = Some d.
Proof.
  intros Hn Hs. unfold extract_product_body. rewrite Hn, Hs. cbn.
  destruct (from_name_ok "ROM" (Py.strip (Soup.text name_element)) (s_storage sp))
    as [storage ->]. cbn.
  destruct (from_name_ok "RAM" (Py.strip (Soup.text name_element)) (s_ram sp))
    as [ram ->]. cbn. by eexists.
Qed.

(** X18.  The old-layout extractor loses no product to an exception: it
    returns a record exactly for the products that have a name element,
    whatever their price, year and specification texts hold.  ([Py.int]
    reads a run of digits of any length.) *)
Theorem old_extractor_keeps_named_products (product : node) :
  (forall name_element,
     find_name_element product = Some name_element ->
     exists d, extract_product_data_old_layout product = Some d /\
               Name d = Py.strip (Soup.text name_element)) /\
  (find_name_element product = None ->
   extract_product_data_old_layout product = None).
Proof.
  split.
  - intros ne Hn.
    assert (Hs : exists sp, extract_specs spec_step_old product = Ok sp).
    { unfold extract_specs. destruct (find_specs_div product); [|by eexists].
      apply fold_result_ok, spec_step_old_ok. }
    destruct Hs as [sp Hs].
    destruct (extract_product_body_after_specs extract_price_old spec_step_old
                product ne sp Hn Hs) as [d Hd].
    exists d. split; [exact Hd|].
    apply extract_product_body_fields in Hd as (ne' & Hn' & Hname & _).
    rewrite Hn in Hn'. by injection Hn' as <-.
  - intros Hn. unfold extract_product_data_old_layout, extract_product_body.
    by rewrite Hn.
Qed.

Lemma old_extractor_keeps_named_products_witness :
  exists d, extract_product_data_old_layout Sample.unpriced = Some d /\
            Name d = Py.strip (Soup.text
                       (Elem "h2" ["styles_productName__fr99s"] None
                          [Text "Redmi 13"])).
Proof.
  refine (proj1 (old_extractor_keeps_named_products Sample.unpriced) _ _).
  reflexivity.
Defined.

Lemma match_then_int_ok (r : Re.regex) (text : string) (cur : option pynum) :
  one_group (Re.Plus Re.digit) r ->
  exists v, match_then r text int_group1 PyInt cur = Ok v.
Proof.
  intros Hog. unfold match_then.
  destruct (Re.search r text) as [m|] eqn:Hs; [|by eexists].
  destruct (int_group1_digits _ _ _ Hog Hs) as (d & _ & _ & _ & ->).
  by eexists.
Qed.

Lemma match_then_float_raise (text : string) (cur : option pynum) (ex : exn) :
  match_then Pat.inch text float_group1 PyFloat cur = Raise ex ->
  malformed_screen text.
Proof.
  unfold match_then. destruct (Re.search Pat.inch text) as [m|] eqn:Hs; [|done].
  destruct (search_one_group _ _ _ _ one_group_inch eq_refl Hs) as (d & _ & Hg).
  unfold float_group1. rewrite Hg. cbn.
  destruct (Py.float d) eqn:Hf; [done|]. intros _. by exists m, d.
Qed.

Lemma spec_step_new_raise (acc : specs) (item : node) (ex : exn) :
  spec_step_new acc item = Raise ex ->
  malformed_screen (Py.strip (Soup.text item)).
Proof.
  unfold spec_step_new. cbn zeta.
  set (spec_text := Py.strip (Soup.text item)).
  assert (Hram : exists v,
    (if Py.contains "GB" spec_text
        && (Py.contains "RAM" (Py.upper spec_text) || is_none (s_ram acc))
     then match_then Pat.gb spec_text int_group1 PyInt (s_ram acc)
     else Ok (s_ram acc)) = Ok v).
  { destruct (_ && _); [|by eexists].
    apply match_then_int_ok, one_group_int_unit. }
  destruct Hram as [ram ->]. cbn.
  destruct (storage_step_ok spec_text (s_storage acc)) as [storage ->]. cbn.
  assert (Hcam : exists v,
    (if Py.contains "MP" spec_text && is_none (s_camera acc)
     then match_then Pat.mp spec_text int_group1 PyInt (s_camera acc)
     else Ok (s_camera acc)) = Ok v).
  { destruct (_ && _); [|by eexists].
    apply match_then_int_ok, one_group_int_unit. }
  destruct Hcam as [camera ->]. cbn.
  destruct (Py.contains "inch" spec_text && is_none (s_screen acc)).
  - destruct (match_then Pat.inch spec_text float_group1 PyFloat (s_screen acc))
      as [screen|ex'] eqn:Hscr.
    + cbn.
      assert (Hbat : exists v,
        (if Py.contains "mAh" spec_text && is_none (s_battery acc)
         then match_then Pat.mah spec_text int_group1 PyInt (s_battery acc)
         else Ok (s_battery acc)) = Ok v).
      { destruct (_ && _); [|by eexists].
        apply match_then_int_ok, one_group_int_unit. }
      destruct Hbat as [battery ->]. done.
    + intros _. by eapply match_then_float_raise.
  - cbn.
    assert (Hbat : exists v,
      (if Py.contains "mAh" spec_text && is_none (s_battery acc)
       then match_then Pat.mah spec_text int_group1 PyInt (s_battery acc)
       else Ok (s_battery acc)) = Ok v).
    { destruct (_ && _); [|by eexists].
      apply match_then_int_ok, one_group_int_unit. }
    destruct Hbat as [battery ->]. done.
Qed.

(** X19.  The new-layout extractor returns nothing for a product with a
    name element only when one of the items of its specs container has a
    screen size that the inch pattern matches and [float] rejects; that
    one text costs the whole product.  ([Py.int] reads a run of digits of
    any length, so no integer field raises.) *)
Theorem new_extractor_loses_only_malformed_screens (product name_element : node)
  (Hname : find_name_element product = Some name_element)
  (Hlost : extract_product_data_new_layout product = None) :
  exists specs_div item,
    find_specs_div product = Some specs_div /\
    In item (spec_items specs_div) /\
    malformed_screen (Py.strip (Soup.text item)).
Proof.
  destruct (extract_specs spec_step_new product) as [sp|ex] eqn:Hs.
  - destruct (extract_product_body_after_specs extract_price_new spec_step_new
                product name_element sp Hname Hs) as [d Hd].
    unfold extract_product_data_new_layout in Hlost. congruence.
  - unfold extract_specs in Hs.
    destruct (find_specs_div product) as [specs_div|]; [|done].
    apply fold_result_raise in Hs as (acc & item & Hin & Hr).
    exists specs_div, item. split; [done|]. split; [done|].
    by eapply spec_step_new_raise.
Qed.

Lemma new_extractor_loses_only_malformed_screens_witness :
  exists specs_div item,
    find_specs_div dotted_screen = Some specs_div /\
    In item (spec_items specs_div) /\
    malformed_screen (Py.strip (Soup.text item)).
Proof.
  exact (new_extractor_loses_only_malformed_screens dotted_screen
           (Elem "h2" ["styles_productName__fr99s"] None [Text "Nova 12"])
           eq_refl eq_refl).
Defined.

(** ** The release year *)

Lemma lang_digit_char (d : string) :
  lang Re.digit d ->
  exists c, d = String c EmptyString /\ Py.is_digit c = true.
Proof.
  unfold Re.digit. inversion 1 as [| |items c Hc| | | | | | |]; subst.
  exists c. split; [done|].
  assert (H' : all_chars (in_set [Re.CDigit]) (String c EmptyString) = true).
  { cbn [all_chars]. unfold in_set. by rewrite Hc. }
  apply in_set_digit in H'. cbn [all_chars] in H'.
  by apply andb_prop in H' as [? _].
Qed.

Lemma lang_chr_inv (c : ascii) (d : string) :
  lang (Re.Chr c) d -> d = String c EmptyString.
Proof. by inversion 1. Qed.

Lemma lang_seq_inv (a b : Re.regex) (d : string) :
  lang (Re.Seq a b) d -> exists x y, d = x ++ y /\ lang a x /\ lang b y.
Proof. inversion 1; subst. by eexists _, _. Qed.

Lemma lang_year_body (d : string) :
  lang year_body d ->
  exists c1 c2,
    d = String "2" (String "0" (String c1 (String c2 EmptyString))) /\
    Py.is_digit c1 = true /\ Py.is_digit c2 = true.
Proof.
  unfold year_body. change (Re.Lit "20") with (Re.Seq (Re.Chr "2") (Re.Chr "0")).
  intros (x & y & -> & Hx & Hy)%lang_seq_inv.
  apply lang_seq_inv in Hx as (x1 & x2 & -> & ->%lang_chr_inv & ->%lang_chr_inv).
  apply lang_seq_inv in Hy as (y1 & y2 & -> & Hy1 & Hy2).
  apply lang_digit_char in Hy1 as (c1 & -> & H1).
  apply lang_digit_char in Hy2 as (c2 & -> & H2).
  by exists c1, c2.
Qed.

Lemma is_digit_val (c : ascii) :
  Py.is_digit c = true -> exists v, Py.digit_val c = Some v /\ 0 <= v <= 9.
Proof.
  unfold Py.is_digit. destruct (Py.digit_val c) as [v|] eqn:E; [|done].
  intros _. exists v. split; [done|]. by eapply digit_val_range.
Qed.

Lemma one_group_year : one_group year_body Pat.year.
Proof.
  unfold Pat.year. apply og_after; [done|]. apply og_before; [|done].
  apply og_here.
Qed.

Lemma year_token_range (text : string) (m : Re.match_obj) :
  Re.search Pat.year text = Some m ->
  exists y, int_group1 m = Ok y /\ 2000 <= y <= 2099.
Proof.
  intros Hs.
  destruct (search_one_group _ _ _ _ one_group_year eq_refl Hs) as (d & Hd & Hg).
  apply lang_year_body in Hd as (c1 & c2 & -> & H1 & H2).
  unfold int_group1. rewrite Hg. cbn.
  rewrite int_digits; [|cbn [all_chars]; by rewrite H1, H2|done].
  destruct (is_digit_val _ H1) as (v1 & E1 & R1).
  destruct (is_digit_val _ H2) as (v2 & E2 & R2).
  eexists. split; [done|].
  cbn [decimal_value]. rewrite E1, E2.
  change (Py.digit_val "2") with (Some 2).
  change (Py.digit_val "0") with (Some 0).
  cbn iota. lia.
Qed.

Lemma scan_year_source (l : list string) (cur : option Z) (y : Z) :
  scan_year l cur = Some y ->
  cur = Some y \/
  exists s, In s l /\ year_of_text s = Some (Ok y).
Proof.
  induction l as [|s l IH]; cbn [scan_year]; [by left|].
  destruct (year_of_text s) as [[y'|ex]|] eqn:E.
  - intros [= <-]. right. exists s. split; [by left|done].
  - intros [H|(s' & Hin & H)]%IH; [by left|]. right. exists s'. split; [by right|done].
  - intros [H|(s' & Hin & H)]%IH; [by left|]. right. exists s'. split; [by right|done].
Qed.

(** X20.  The release year of the old and new extractors: a non-zero
    year read from the year element is kept as it is; otherwise the
    recorded year, when there is one other than 0, was read from a text
    node of the product and lies between 2000 and 2099. *)
Theorem release_year_range (product : node) :
  (truthy (year_element_value product) = true ->
   extract_release_year product = year_element_value product) /\
  (truthy (year_element_value product) = false ->
   forall y, extract_release_year product = Some y -> y <> 0 ->
     2000 <= y <= 2099 /\
     exists s, In s (Soup.find_all_text (fun _ => true) product) /\
               year_of_text s = Some (Ok y)).
Proof.
  assert (Hdef : extract_release_year product
                 = if truthy (year_element_value product)
                   then year_element_value product
                   else scan_year (Soup.find_all_text (fun _ => true) product)
                          (year_element_value product)) by reflexivity.
  split; intros Ht.
  - by rewrite Hdef, Ht.
  - intros y Hy Hnz. rewrite Hdef, Ht in Hy.
    apply scan_year_source in Hy as [Hcur|(s & Hin & Hs)].
    + rewrite Hcur in Ht. unfold truthy in Ht. cbn in Ht.
      exfalso. destruct (Z.eqb_spec y 0); [done|]. cbn in Ht. done.
    + split; [|by exists s].
      unfold year_of_text in Hs.
      destruct (Re.search Pat.year (Py.strip s)) as [m|] eqn:E; [|done].
      destruct (year_token_range _ _ E) as (y' & Hy' & Hr).
      injection Hs as Hs. rewrite Hy' in Hs. by injection Hs as <-.
Qed.

Lemma release_year_range_witness :
  2000 <= 2024 <= 2099 /\
  exists s,
    In s (Soup.find_all_text (fun _ => true)
            (Sample.panel "Redmi 13 2024" "Hubungi toko")) /\
    year_of_text s = Some (Ok 2024).
Proof.
  refine (proj2 (release_year_range
                   (Sample.panel "Redmi 13 2024" "Hubungi toko"))
            eq_refl 2024 eq_refl _).
  discriminate.
Defined.
(** ** The newest layout *)

Lemma lstrip_no_space (s : string) :
  all_chars no_space s = true -> Py.lstrip s = s.
Proof.
  destruct s as [|c r]; cbn [all_chars Py.lstrip]; [done|].
  unfold no_space at 1. intros [Hc _]%andb_prop.
  apply negb_true_iff in Hc. by rewrite Hc.
Qed.

Lemma rstrip_no_space (s : string) :
  all_chars no_space s = true -> Py.rstrip s = s.
Proof.
  induction s as [|c r IH]; cbn [all_chars Py.rstrip]; [done|].
  unfold no_space at 1. intros [Hc Hr]%andb_prop. rewrite (IH Hr).
  apply negb_true_iff in Hc. destruct r; [|done]. by rewrite Hc.
Qed.

Lemma strip_no_space (s : string) :
  all_chars no_space s = true -> Py.strip s = s.
Proof.
  intros H. unfold Py.strip. rewrite (lstrip_no_space _ H).
  by apply rstrip_no_space.
Qed.

Lemma all_chars_impl (p q : ascii -> bool) (s : string) :
  (forall c, p c = true -> q c = true) ->
  all_chars p s = true -> all_chars q s = true.
Proof.
  intros Hpq. induction s as [|c r IH]; cbn [all_chars]; [done|].
  intros [Hc Hr]%andb_prop. by rewrite (Hpq _ Hc), (IH Hr).
Qed.

Lemma digit_no_space (c : ascii) : Py.is_digit c = true -> no_space c = true.
Proof. intros H. unfold no_space. by rewrite (digit_not_space _ H). Qed.

Lemma digit_not_exp_mark (c : ascii) :
  Py.is_digit c = true -> Py.is_exp_mark c = false.
Proof.
  destruct c as [[] [] [] [] [] [] [] []]; try reflexivity;
    intros H; vm_compute in H; discriminate.
Qed.

Lemma digit_not_is_dot (c : ascii) :
  Py.is_digit c = true -> Py.is_dot c = false.
Proof.
  destruct c as [[] [] [] [] [] [] [] []]; try reflexivity;
    intros H; vm_compute in H; discriminate.
Qed.

Lemma split_first_none (p : ascii -> bool) (s : string) :
  all_chars (fun c => negb (p c)) s = true ->
  Py.split_first p s = (s, None).
Proof.
  induction s as [|c r IH]; cbn [all_chars Py.split_first]; [done|].
  intros [Hc Hr]%andb_prop. apply negb_true_iff in Hc.
  by rewrite Hc, (IH Hr).
Qed.

Lemma split_first_at (p : ascii -> bool) (a : string) (c : ascii) (b : string) :
  all_chars (fun c => negb (p c)) a = true -> p c = true ->
  Py.split_first p (a ++ String c b) = (a, Some b).
Proof.
  intros Ha Hc. induction a as [|x a IH].
  - rewrite append_nil. cbn [Py.split_first]. by rewrite Hc.
  - cbn [all_chars] in Ha. apply andb_prop in Ha as [Hx Ha].
    apply negb_true_iff in Hx.
    rewrite append_cons. cbn [Py.split_first]. by rewrite Hx, (IH Ha).
Qed.

Lemma contains_dot_append (a b : string) :
  Py.contains "." (a ++ String "." b) = true.
Proof.
  induction a as [|x a IH].
  - rewrite append_nil. cbn [Py.contains]. rewrite prefix_cons.
    by rewrite Ascii.eqb_refl, prefix_nil.
  - rewrite append_cons. cbn [Py.contains]. rewrite IH. by rewrite orb_true_r.
Qed.

(** [float] accepts every literal [digits.digits]. *)
Lemma float_decimal_literal (i f : string) :
  all_chars Py.is_digit i = true -> i <> EmptyString ->
  all_chars Py.is_digit f = true -> f <> EmptyString ->
  exists q, Py.float (i ++ String "." f) = Some q.
Proof.
  intros Hi Hin Hf Hfn.
  assert (Hns : all_chars no_space (i ++ String "." f) = true).
  { rewrite all_chars_append. cbn [all_chars].
    rewrite (all_chars_impl _ _ _ digit_no_space Hi).
    by rewrite (all_chars_impl _ _ _ digit_no_space Hf). }
  assert (Hne : all_chars (fun c => negb (Py.is_exp_mark c))
                  (i ++ String "." f) = true).
  { rewrite all_chars_append. cbn [all_chars].
    rewrite (all_chars_impl Py.is_digit _ i); [|by intros c ->%digit_not_exp_mark|done].
    by rewrite (all_chars_impl Py.is_digit _ f);
      [|by intros c ->%digit_not_exp_mark|done]. }
  assert (Hnd : all_chars (fun c => negb (Py.is_dot c)) i = true).
  { by apply (all_chars_impl Py.is_digit); [intros c ->%digit_not_is_dot|]. }
  unfold Py.float. rewrite (strip_no_space _ Hns).
  destruct i as [|c i']; [done|].
  assert (Hc : Py.is_digit c = true).
  { cbn [all_chars] in Hi. by apply andb_prop in Hi as [? _]. }
  rewrite append_cons, (split_sign_digit _ _ Hc). cbv beta iota.
  rewrite <- append_cons.
  rewrite (split_first_none _ _ Hne). cbv beta iota.
  rewrite (split_first_at _ _ "." f Hnd eq_refl). cbv beta iota.
  destruct f as [|c' f']; [done|].
  cbn [Py.opt_digits]. unfold Py.digits.
  destruct (digits_from_digits (String c i') 0 0 false Hi Hin) as [k ->].
  destruct (digits_from_digits (String c' f') 0 0 false Hf Hfn) as [k' ->].
  by eexists.
Qed.

Lemma lang_decimal_body (d : string) :
  lang decimal_body d ->
  (d <> EmptyString /\ all_chars Py.is_digit d = true) \/
  exists i f,
    d = i ++ String "." f /\
    i <> EmptyString /\ all_chars Py.is_digit i = true /\
    f <> EmptyString /\ all_chars Py.is_digit f = true.
Proof.
  unfold decimal_body, Re.Opt.
  intros (i & y & -> & [Hin Hi]%lang_digits & Hy)%lang_seq_inv.
  inversion Hy as [| | | |a b x Hx|a b x Hx| | | |]; subst.
  - apply lang_seq_inv in Hx as (p & f & -> & ->%lang_chr_inv & [Hfn Hf]%lang_digits).
    right. exists i, f. by rewrite append_cons, append_nil.
  - inversion Hx; subst. left. by rewrite append_empty_r.
Qed.

Lemma one_group_ram_frac : one_group decimal_body Pat.ram_frac.
Proof.
  unfold Pat.ram_frac. apply og_after; [apply ngroups_lit|].
  apply og_after; [done|]. apply og_before; [apply og_here|].
  cbn [Re.ngroups]. by rewrite ngroups_lit.
Qed.

Lemma ram_of_name_ok (name : string) : exists v, ram_of_name name = Ok v.
Proof.
  unfold ram_of_name.
  destruct (Re.search Pat.ram_frac name) as [m|] eqn:Hs; [|by eexists].
  destruct (search_one_group _ _ _ _ one_group_ram_frac eq_refl Hs)
    as (d & Hd & ->).
  cbn.
  apply lang_decimal_body in Hd
    as [[Hn Hd]|(i & f & -> & Hin & Hi & Hfn & Hf)].
  - rewrite (digits_no_dot _ Hd), (int_digits _ Hd Hn). by eexists.
  - rewrite contains_dot_append.
    destruct (float_decimal_literal i f Hi Hin Hf Hfn) as [q ->]. by eexists.
Qed.

Lemma price_of_link_text_ok (link_text : string) :
  exists v, price_of_link_text link_text = Ok v.
Proof.
  unfold price_of_link_text.
  destruct (Re.search Pat.rp link_text) as [m|]; by eexists.
Qed.

Lemma year_of_link_text_ok (link_text : string) :
  exists v, year_of_link_text link_text = Ok v.
Proof.
  unfold year_of_link_text.
  destruct (Re.search Pat.year link_text) as [m|] eqn:Hs; [|by eexists].
  destruct (year_token_range _ _ Hs) as (y & -> & _). by eexists.
Qed.

Lemma match_then_float_cases (text : string) (cur : option pynum) :
  (exists v, match_then Pat.inch text float_group1 PyFloat cur = Ok v
             /\ ~ malformed_screen text) \/
  (match_then Pat.inch text float_group1 PyFloat cur = Raise ValueError
   /\ malformed_screen text).
Proof.
  unfold match_then, malformed_screen.
  destruct (Re.search Pat.inch text) as [m|] eqn:Hs.
  - destruct (search_one_group _ _ _ _ one_group_inch eq_refl Hs) as (d & _ & Hg).
    unfold float_group1. rewrite Hg. cbn.
    destruct (Py.float d) as [q|] eqn:Hf; cbn.
    + left. eexists. split; [done|].
      intros (m' & d' & [= <-] & Hg' & Hf').
      change (group m 1 = Ok (Some d')) in Hg'. congruence.
    + right. split; [done|]. by exists m, d.
  - left. eexists. split; [done|]. by intros (m' & d' & ? & _).
Qed.

(** X21.  The newest-layout extractor returns a record for every heading,
    named by the stripped heading text, unless the first link after the
    heading has a screen size that the inch pattern matches and [float]
    rejects; with no link after the heading the record has only what the
    name gives.  ([Py.int] reads a run of digits of any length, so no
    integer field raises.) *)
Theorem newest_extractor_loses_only_malformed_screens
  (header_element : node) (following : list node) :
  (extract_product_data_newest_layout header_element following = None <->
   exists next_element,
     List.find (Soup.has_tag "a") following = Some next_element /\
     malformed_screen (Py.strip (Soup.text next_element))) /\
  (forall d,
     extract_product_data_newest_layout header_element following = Some d ->
     Name d = Py.strip (Soup.text header_element) /\
     (List.find (Soup.has_tag "a") following = None ->
      Price d = None /\ Camera d = None /\ ScreenSize d = None /\
      Battery d = None /\ ReleaseYear d = None)).
Proof.
  unfold extract_product_data_newest_layout, extract_newest_body. cbv zeta.
  destruct (ram_of_name_ok (Py.strip (Soup.text header_element))) as [ram ->].
  destruct (match_then_int_ok (Pat.named_gb "ROM")
              (Py.strip (Soup.text header_element)) None
              (one_group_named_gb "ROM")) as [storage ->].
  cbn [mbind result_bind].
  destruct (List.find (Soup.has_tag "a") following) as [next_element|].
  - set (link_text := Py.strip (Soup.text next_element)).
    destruct (price_of_link_text_ok link_text) as [price ->].
    destruct (match_then_int_ok Pat.mp link_text None (one_group_int_unit "MP"))
      as [camera ->].
    cbn [mbind result_bind].
    destruct (match_then_float_cases link_text None)
      as [(screen & -> & Hok)|[-> Hbad]].
    + destruct (match_then_int_ok Pat.mah link_text None (one_group_int_unit "mAh"))
        as [battery ->].
      destruct (year_of_link_text_ok link_text) as [release_year ->].
      cbn. split.
      * split; [done|]. intros (n & [= <-] & Hm). by destruct (Hok Hm).
      * intros d [= <-]. by split.
    + cbn. split; [|done]. split; [|done]. intros _. by exists next_element.
  - cbn. split.
    + split; [done|]. by intros (n & ? & _).
    + intros d [= <-]. by split.
Qed.

Lemma newest_extractor_loses_only_malformed_screens_witness :
  exists next_element,
    List.find (Soup.has_tag "a")
      [Elem "a" [] (Some "/p") [Text "Rp 2.500.000 6..5 inch"]]
    = Some next_element /\
    malformed_screen (Py.strip (Soup.text next_element)).
Proof.
  exact (proj1 (proj1 (newest_extractor_loses_only_malformed_screens
                         (Elem "h2" [] None [Text "Oppo a RAM 8GB ROM 128GB"])
                         [Elem "a" [] (Some "/p")
                            [Text "Rp 2.500.000 6..5 inch"]]))
           eq_refl).
Defined.
(** ** The files of a run *)

Lemma disk_grows_refl (csv : string) (d : disk) : disk_grows csv d d.
Proof. by split. Qed.

Lemma disk_grows_trans (csv : string) (d1 d2 d3 : disk) :
  disk_grows csv d1 d2 -> disk_grows csv d2 d3 -> disk_grows csv d1 d3.
Proof.
  intros [H1 K1] [H2 K2]. split.
  - intros g Hg Hp Hl. by rewrite H2, H1.
  - intros g Hg. by apply K2, K1.
Qed.

Lemma backup_path_prefix (p ts : string) :
  String.prefix "backups/" (backup_path_of p ts) = true.
Proof.
  unfold backup_path_of. destruct (Path.splitext (Path.basename p)) as [stem ext].
  unfold backup_dir. rewrite !append_cons, !append_nil.
  rewrite !prefix_cons. by rewrite prefix_nil.
Qed.

Lemma create_backup_grows (e : env) (csv p : string) (d : disk) :
  disk_grows csv d (snd (create_backup e p d)).
Proof.
  unfold create_backup. destruct (files d !! p) as [content|] eqn:E;
    [|apply disk_grows_refl].
  cbn [snd]. split; cbn [files].
  - intros g _ Hp _. rewrite lookup_insert_ne; [done|].
    intros <-. by rewrite backup_path_prefix in Hp.
  - intros g Hg. rewrite lookup_insert_is_Some.
    destruct (decide (backup_path_of p (now e (ticks d)) = g)); [by left|by right].
Qed.

Lemma save_grows (e : env) (data : list phone_data) (csv : string) (d : disk) :
  disk_grows csv d (save_data_to_csv e data csv (exists_file csv d) d).
Proof.
  unfold save_data_to_csv, to_csv. rewrite andb_negb_r. split; cbn [files].
  - intros g Hg _ _. by rewrite lookup_insert_ne.
  - intros g Hg. rewrite lookup_insert_is_Some.
    destruct (decide (csv = g)); [by left|by right].
Qed.

Lemma page_error_grows (e : env) (c : config) (st : state) :
  disk_grows (csv_filename c) (store st) (store (page_error e c st)).
Proof.
  unfold page_error. destruct (exists_file _ _); cbn [store set_page set_store].
  - apply create_backup_grows.
  - apply disk_grows_refl.
Qed.

Lemma persist_grows (e : env) (c : config) (l : layout)
  (cands : list (option phone_data)) (require_price : bool) (st : state) :
  disk_grows (csv_filename c) (store st)
    (store (state_of (persist e c l cands require_price st))).
Proof.
  unfold persist.
  destruct (accept_loop require_price cands (existing_phones st))
    as [page_phones existing].
  destruct (nonempty page_phones).
  - cbn [store set_store log page].
    destruct (backup_interval c =? 0).
    + cbn [state_of]. eapply disk_grows_trans; [|apply page_error_grows].
      cbn [store]. apply save_grows.
    + cbn [state_of next_page set_page log store].
      destruct (_ =? 0); cbn [store set_store].
      * eapply disk_grows_trans; [apply save_grows|apply create_backup_grows].
      * apply save_grows.
  - cbn [count_empty_page set_empty_pages_count empty_pages_count].
    destruct (_ <=? _); cbn; apply disk_grows_refl.
Qed.

Lemma process_page_grows (e : env) (c : config) (soup : node) (st : state) :
  disk_grows (csv_filename c) (store st) (store (state_of (process_page e c soup st))).
Proof.
  unfold process_page.
  destruct (detect_layout soup (page st));
    try (cbn [candidates]; apply persist_grows);
    (destruct (nonempty _);
     [cbn [candidates];
      apply (persist_grows e c _ _ true (set_empty_pages_count 0 st))
     |cbn [count_empty_page set_empty_pages_count empty_pages_count];
      destruct (_ <=? _); cbn; apply disk_grows_refl]).
Qed.

Lemma crawl_step_grows (e : env) (c : config) (st : state) :
  disk_grows (csv_filename c) (store st) (store (state_of (crawl_step e c st))).
Proof.
  unfold crawl_step.
  pose proof (fetch_loop_frame e c (page st) (Z.to_nat (max_retries c)) 0 st)
    as (_ & _ & _ & _ & Hs). cbn zeta in Hs.
  destruct (fetch_loop e c (page st) (Z.to_nat (max_retries c)) 0 st)
    as [[soup|] st']; cbn [snd] in Hs.
  - rewrite <- Hs. apply process_page_grows.
  - cbn [state_of]. rewrite Hs. apply disk_grows_refl.
Qed.

Lemma scrape_loop_grows (e : env) (c : config) (fuel : nat) :
  forall st,
    disk_grows (csv_filename c) (store st) (store (fst (scrape_loop e c fuel st))).
Proof.
  induction fuel as [|fuel IH]; intros st; cbn [scrape_loop].
  - destruct (in_range c st); apply disk_grows_refl.
  - destruct (in_range c st); [|apply disk_grows_refl].
    pose proof (crawl_step_grows e c st) as H.
    destruct (crawl_step e c st) as [st'|st']; cbn [state_of] in H.
    + eapply disk_grows_trans; [exact H|apply IH].
    + exact H.
Qed.

(** X23.  A run writes the CSV file, files under [backups/] and the log,
    and nothing else: every other path holds at the end what it held
    before, and no path that existed is gone. *)
Theorem run_touches_only_its_files (e : env) (c : config) (start_page : Z)
  (fuel : nat) (d : disk) :
  let st := fst (scrape_pricebook e c start_page fuel d) in
  (forall g, g <> csv_filename c -> String.prefix "backups/" g = false ->
     names_log g = false ->
     files (store st) !! g = files d !! g) /\
  (forall g, is_Some (files d !! g) -> is_Some (files (store st) !! g)).
Proof.
  cbn zeta. unfold scrape_pricebook.
  apply (disk_grows_trans _ _ (store (initial_state e c start_page d))).
  - unfold initial_state. cbn [store].
    destruct (exists_file _ _); [apply create_backup_grows|apply disk_grows_refl].
  - apply scrape_loop_grows.
Qed.

(** ** When backups are made *)

Lemma pauses_app (t1 t2 : list event) :
  pauses (t1 ++ t2) = (pauses t1 + pauses t2)%nat.
Proof.
  induction t1 as [|ev t1 IH]; [done|].
  destruct ev; cbn [app pauses]; by rewrite IH.
Qed.

Lemma save_then_backup (e : env) (data : list phone_data) (f : string) (d : disk) :
  let d1 := save_data_to_csv e data f (exists_file f d) d in
  let d2 := snd (create_backup e f d1) in
  ticks d1 = ticks d /\
  exists_file f d1 = true /\
  ticks d2 = S (ticks d) /\
  exists content,
    files d2 !! f = Some content /\
    files d2 !! backup_path_of f (now e (ticks d)) = Some content.
Proof.
  cbn zeta.
  assert (Ht : ticks (save_data_to_csv e data f (exists_file f d) d) = ticks d).
  { unfold save_data_to_csv, to_csv. by rewrite andb_negb_r. }
  destruct (save_appends e data f d) as [before Hf].
  split; [done|]. split; [by eapply exists_file_true|].
  rewrite (create_backup_existing _ _ _ _ Hf). cbn [snd ticks files].
  rewrite Ht. split; [done|].
  exists (before ++ List.map DataLine data)%list. split.
  - destruct (decide (backup_path_of f (now e (ticks d)) = f)) as [E|E].
    + rewrite E at 1. apply lookup_insert_eq.
    + by rewrite lookup_insert_ne.
  - apply lookup_insert_eq.
Qed.

Lemma persist_backup (e : env) (c : config) (l : layout)
  (cands : list (option phone_data)) (require_price : bool) (st : state) :
  let accepted := fst (accept_loop require_price cands (existing_phones st)) in
  let st' := state_of (persist e c l cands require_price st) in
  ticks (store st')
  = (if nonempty accepted && backup_due c (page st)
     then S (ticks (store st)) else ticks (store st)) /\
  (nonempty accepted = true -> backup_due c (page st) = true ->
   exists content,
     files (store st') !! csv_filename c = Some content /\
     files (store st') !! backup_path_of (csv_filename c)
                            (now e (ticks (store st))) = Some content) /\
  (nonempty accepted = true -> backup_interval c = 0 ->
   pauses (trace st') = pauses (trace st) /\ page st' = page st + 1).
Proof.
  cbn zeta. unfold persist, backup_due.
  destruct (accept_loop require_price cands (existing_phones st)) as [pp ex].
  cbn [fst]. destruct (nonempty pp) eqn:Hpp.
  - cbn [store set_store log page andb].
    destruct (save_then_backup e pp (csv_filename c) (store st))
      as (Ht1 & Hex & Ht2 & content & Hc1 & Hc2).
    destruct (backup_interval c =? 0) eqn:Hz.
    + cbn [orb state_of]. unfold page_error. cbn [store]. rewrite Hex.
      cbn [store set_page set_store page trace log].
      split; [done|]. split; [intros _ _; by exists content|].
      intros _ _. rewrite pauses_app. cbn. split; lia.
    + cbn [orb state_of next_page set_page log store page].
      destruct (page st mod backup_interval c =? 0) eqn:Hm;
        cbn [store set_store].
      * split; [done|]. split; [intros _ _; by exists content|].
        intros _ H0. apply Z.eqb_neq in Hz. done.
      * split; [done|]. split; [done|].
        intros _ H0. apply Z.eqb_neq in Hz. done.
  - cbn [andb]. split; [|split; done].
    cbn [count_empty_page set_empty_pages_count empty_pages_count].
    by destruct (_ <=? _).
Qed.

(** X24.  Backups within the loop: a page is followed by exactly one
    backup when it added records and its number is a multiple of
    [backup_interval], or [backup_interval] is 0 (the remainder then
    raises and the page handler makes the backup); every other page makes
    none.  The backup holds the CSV file as it is after the page's
    records were written.  With [backup_interval] 0 such a page also
    skips the pause before the next request. *)
Theorem backup_after_saving_page (e : env) (c : config) (soup : node)
  (st : state) :
  let accepted := page_phones_of soup (page st) (existing_phones st) in
  let st' := state_of (process_page e c soup st) in
  ticks (store st')
  = (if nonempty accepted && backup_due c (page st)
     then S (ticks (store st)) else ticks (store st)) /\
  (nonempty accepted = true -> backup_due c (page st) = true ->
   exists content,
     files (store st') !! csv_filename c = Some content /\
     files (store st') !! backup_path_of (csv_filename c)
                            (now e (ticks (store st))) = Some content) /\
  (nonempty accepted = true -> backup_interval c = 0 ->
   pauses (trace st') = pauses (trace st) /\ page st' = page st + 1).
Proof.
  cbn zeta. unfold page_phones_of, page_candidates, process_page. cbn zeta.
  destruct (detect_layout soup (page st));
    try (cbn [candidates fst]; apply (persist_backup e c Newest _ false st));
    (destruct (nonempty (select_products _ soup)) eqn:Ep;
     [cbn [candidates fst];
      apply (persist_backup e c _ _ true (set_empty_pages_count 0 st))
     |destruct (select_products _ soup); [|done]; cbn;
      split; [by destruct (max_empty_pages <=? _)|split; done]]).
Qed.

Lemma backup_after_saving_page_witness :
  exists content,
    files (store (state_of (process_page
        (Sample.site_env (Sample.serve (Sample.old_page [Sample.galaxy])))
        {| csv_filename := "smartphone_data.csv"; backup_interval := 0;
           max_retries := 5; retry_delay := 30; end_page := None |}
        (Sample.old_page [Sample.galaxy])
        (Sample.state_at 7 0 ∅)))) !! "smartphone_data.csv" = Some content /\
    files (store (state_of (process_page
        (Sample.site_env (Sample.serve (Sample.old_page [Sample.galaxy])))
        {| csv_filename := "smartphone_data.csv"; backup_interval := 0;
           max_retries := 5; retry_delay := 30; end_page := None |}
        (Sample.old_page [Sample.galaxy])
        (Sample.state_at 7 0 ∅))))
      !! "backups/smartphone_data_20250101_000000.csv" = Some content.
Proof.
  exact (proj1 (proj2 (backup_after_saving_page
    (Sample.site_env (Sample.serve (Sample.old_page [Sample.galaxy])))
    {| csv_filename := "smartphone_data.csv"; backup_interval := 0;
       max_retries := 5; retry_delay := 30; end_page := None |}
    (Sample.old_page [Sample.galaxy])
    (Sample.state_at 7 0 ∅))) eq_refl eq_refl).
Defined.

(** ** The integer that a price text writes *)














(** ** Restarting a run *)

Lemma get_existing_phones_file (e : env) (f : string) (d1 d2 : disk) :
  files d1 !! f = files d2 !! f ->
  get_existing_phones e f d1 = get_existing_phones e f d2.
Proof. intros H. unfold get_existing_phones. by rewrite H. Qed.

Lemma get_existing_phones_missing (e : env) (f : string) (d : disk) :
  files d !! f = None -> get_existing_phones e f d = ∅.
Proof. intros Hf. unfold get_existing_phones. by rewrite Hf. Qed.

Lemma get_existing_phones_written (kept : string -> bool) (e : env)
  (f : string) (d : disk) (recs : list phone_data) :
  reads_kept_names kept e ->
  files d !! f = Some (HeaderLine csv_columns :: List.map DataLine recs) ->
  (forall n, n ∈ get_existing_phones e f d -> n ∈ names recs) /\
  (forall n, n ∈ names recs -> kept n = true -> n ∈ get_existing_phones e f d).
Proof.
  intros Hr Hf. unfold get_existing_phones. rewrite Hf.
  destruct (Hr recs) as (df & -> & Hn & Hsound & Hcomplete).
  rewrite bool_decide_eq_true_2 by done.
  split; intros n.
  - rewrite elem_of_list_to_set. apply Hsound.
  - rewrite elem_of_list_to_set. apply Hcomplete.
Qed.

Lemma names_app (a b : list phone_data) : names (a ++ b) = names a ∪ names b.
Proof. unfold names. by rewrite map_app, list_to_set_app_L. Qed.

(** The file a run leaves, when it started from a file of its own. *)
Lemma extend_own_file (content : option (list csv_line)) (recs : list phone_data) :
  own_file content ->
  (content = None /\ recs = [] /\ extend_csv content recs = None) \/
  exists all,
    extend_csv content recs
    = Some (HeaderLine csv_columns :: List.map DataLine all) /\
    names recs ⊆ names all /\
    (forall old, content = Some (HeaderLine csv_columns :: List.map DataLine old) ->
                 names old ⊆ names all).
Proof.
  destruct content as [lines|]; cbn [own_file].
  - intros [old ->]. right. destruct recs as [|r recs].
    + exists old. split; [done|]. split; [unfold names; cbn; set_solver|].
      intros old' [= H]. apply (f_equal (flat_map (fun l =>
        match l with DataLine x => [Name x] | HeaderLine _ => [] end))) in H.
      assert (Hn : forall l, flat_map (fun l => match l with
                                 | DataLine x => [Name x]
                                 | HeaderLine _ => [] end)
                     (List.map DataLine l) = List.map Name l).
      { intros l. induction l as [|x l IH]; cbn; [done|]. by rewrite IH. }
      rewrite !Hn in H. unfold names. by rewrite H.
    + exists (old ++ r :: recs)%list. cbn [extend_csv]. split.
      * by rewrite map_app.
      * rewrite names_app. split; [set_solver|].
        intros old' [= H]. apply (f_equal (flat_map (fun l =>
          match l with DataLine x => [Name x] | HeaderLine _ => [] end))) in H.
        assert (Hn : forall l, flat_map (fun l => match l with
                                   | DataLine x => [Name x]
                                   | HeaderLine _ => [] end)
                       (List.map DataLine l) = List.map Name l).
        { intros l. induction l as [|x l IH]; cbn; [done|]. by rewrite IH. }
        rewrite !Hn in H. unfold names at 1 2. rewrite H. set_solver.
  - intros _. destruct recs as [|r recs].
    + by left.
    + right. exists (r :: recs). cbn [extend_csv]. split; [done|].
      split; [done|]. by intros old.
Qed.

Lemma initial_ledger (e : env) (c : config) (start_page : Z) (d : disk) :
  existing_phones (initial_state e c start_page d)
  = get_existing_phones e (csv_filename c) d.
Proof.
  unfold initial_state. cbn [existing_phones].
  apply get_existing_phones_file.
  destruct (exists_file (csv_filename c) d); [|done]. apply create_backup_same.
Qed.

(** X22.  Across a restart only the names that the CSV reader does not
    give back are saved again.  Take a reader that returns no name that is
    not in the file and returns every name of the file for which [kept]
    holds, and a run that starts from a missing file or from a file the
    scraper wrote.  The run leaves such a file, the ledger that the next
    run reads from it holds every [kept] name of this run's ledger, and
    the next run saves no record whose name this run's ledger held,
    unless that name is not [kept]. *)
Theorem restart_resumes_ledger (kept : string -> bool) (e e2 : env)
  (c c2 : config) (start_page start_page2 : Z) (fuel fuel2 : nat) (d : disk)
  (Hreader : reads_kept_names kept e)
  (Hreader2 : reads_kept_names kept e2)
  (Hcsv : csv_filename c2 = csv_filename c)
  (Hfile : own_file (files d !! csv_filename c)) :
  let st := fst (scrape_pricebook e c start_page fuel d) in
  let st2 := fst (scrape_pricebook e2 c2 start_page2 fuel2 (store st)) in
  own_file (files (store st) !! csv_filename c) /\
  (forall n, n ∈ existing_phones st -> kept n = true ->
     n ∈ existing_phones (initial_state e2 c2 start_page2 (store st))) /\
  Forall (fun r => Name r ∈ existing_phones st -> kept (Name r) = false)
    (saved_records (trace st2)).
Proof.
  cbn zeta.
  destruct (run_effect e c start_page fuel d) as (_ & _ & Hl & _ & _ & Hf).
  rewrite initial_state_file in Hf. rewrite initial_ledger in Hl.
  set (st := fst (scrape_pricebook e c start_page fuel d)) in *.
  set (recs := saved_records (trace st)) in *.
  assert (Hcarry : forall n, n ∈ existing_phones st -> kept n = true ->
            n ∈ existing_phones (initial_state e2 c2 start_page2 (store st))).
  { intros n Hn Hk. rewrite initial_ledger, Hcsv.
    destruct (extend_own_file _ recs Hfile)
      as [(Hnone & Hrecs & _)|(all & Hall & Hsub & Hold)].
    - exfalso. rewrite Hl, Hrecs in Hn.
      rewrite (get_existing_phones_missing _ _ _ Hnone) in Hn.
      unfold names in Hn. cbn in Hn. set_solver.
    - rewrite <- Hf in Hall.
      apply (proj2 (get_existing_phones_written kept e2 _ _ all Hreader2 Hall));
        [|done].
      rewrite Hl in Hn. apply elem_of_union in Hn as [Hn|Hn]; [set_solver|].
      destruct (files d !! csv_filename c) as [lines|] eqn:Hd.
      + destruct Hfile as [old ->].
        apply (Hold old eq_refl).
        by apply (proj1 (get_existing_phones_written kept e _ _ old Hreader Hd)).
      + rewrite (get_existing_phones_missing _ _ _ Hd) in Hn. set_solver. }
  split; [|split; [exact Hcarry|]].
  - rewrite Hf. destruct (extend_own_file _ recs Hfile)
      as [(_ & _ & ->)|(all & -> & _)]; [done|]. by exists all.
  - destruct (run_effect e2 c2 start_page2 fuel2 (store st))
      as (_ & _ & _ & Hfresh & _ & _).
    apply Forall_forall. intros r Hr Hin.
    destruct (kept (Name r)) eqn:Hk; [|done]. exfalso.
    apply (Hfresh r); [done|]. by apply Hcarry.
Qed.

Lemma na_reader_reads_kept_names (site : Z -> Z -> option node) :
  reads_kept_names (fun n => negb (is_na n)) (na_env site).
Proof.
  intros recs. eexists. split; [reflexivity|]. split.
  { cbn [df_columns]. unfold csv_columns. apply elem_of_cons. by left. }
  cbn [df_column String.eqb]. change (String.eqb "Name" "Name") with true.
  cbn iota. unfold names.
  split; intros n; rewrite elem_of_list_to_set.
  - induction recs as [|r recs IH]; cbn [List.map flat_map]; [done|].
    destruct (is_na (Name r)); cbn [app].
    + intros H. apply elem_of_cons. right. by apply IH.
    + intros [->|H]%elem_of_cons; apply elem_of_cons; [by left|right; by apply IH].
  - intros Hn Hk. apply negb_true_iff in Hk.
    induction recs as [|r recs IH]; cbn [List.map flat_map] in *; [done|].
    apply elem_of_cons in Hn as [->|Hn].
    + rewrite Hk. apply elem_of_cons. by left.
    + destruct (is_na (Name r)); cbn [app]; [by apply IH|].
      apply elem_of_cons. right. by apply IH.
Qed.

Lemma restart_resumes_ledger_witness :
  Forall (fun r =>
            Name r ∈ existing_phones
              (fst (scrape_pricebook (na_env (Sample.serve two_names))
                      Sample.cfg 7 1 Sample.empty_disk)) ->
            negb (is_na (Name r)) = false)
    (saved_records
       (trace (fst (scrape_pricebook (na_env (Sample.serve two_names))
                      Sample.cfg 7 1
                      (store (fst (scrape_pricebook
                                     (na_env (Sample.serve two_names))
                                     Sample.cfg 7 1 Sample.empty_disk))))))).
Proof.
  exact (proj2 (proj2 (restart_resumes_ledger (fun n => negb (is_na n))
    (na_env (Sample.serve two_names)) (na_env (Sample.serve two_names))
    Sample.cfg Sample.cfg 7 7 1 1 Sample.empty_disk
    (na_reader_reads_kept_names _) (na_reader_reads_kept_names _) eq_refl I))).
Defined.

(** ** Where the restart leaves the specification *)

(** C3.  Within a pass the ledger keeps a page from being saved twice
    (lemma [dedup_idempotent]).  Across runs it does not: the ledger of a
    run is read from the stored file, and the reader returns no string for
    a name that is one of its missing-value markers.  A product named
    ["N/A"] is saved by the first run and saved again by the second,
    which starts with an empty ledger; the file ends with two lines for
    it. *)
Theorem dedup_reseeding_diverges :
  let e := na_env (Sample.serve (Sample.old_page [unnamed])) in
  let c := {| csv_filename := "smartphone_data.csv"; backup_interval := 5;
              max_retries := 5; retry_delay := 30; end_page := Some 7 |} in
  let first := fst (scrape_pricebook e c 7 1 Sample.empty_disk) in
  let second := fst (scrape_pricebook e c 7 1 (store first)) in
  List.map Name (saved_records (trace first)) = ["N/A"] /\
  "N/A" ∈ existing_phones first /\
  existing_phones (initial_state e c 7 (store first)) = ∅ /\
  List.map Name (saved_records (trace second)) = ["N/A"] /\
  total_phones second = 1 /\
  files (store second) !! csv_filename c
  = Some (HeaderLine csv_columns
          :: List.map DataLine (saved_records (trace first)
                                ++ saved_records (trace second)))%list.
Proof.
  cbn zeta. split; [by vm_compute|]. split.
  { apply (bool_decide_unpack _). by vm_compute. }
  split; [by vm_compute|]. split; [by vm_compute|]. split; by vm_compute.
Qed.
